(** * NASA wallpaper scripts for KDE: a shallow embedding and its properties

    The repository holds three near-duplicate Python scripts:
    - [apiscript.py], class [KDENASAWallpaper]            (module [KDE]);
    - [apiscript.py], second half ("import requests.py"),
      the retrying functions                               (module [Plugin]);
    - [nasa_wallpaper_updater.py], the plain functions     (module [Updater]).

    Python values that come out of [json.load] / [response.json()] are
    modelled by the type [json]; exceptions by an error monad [res];
    the network, the clock, the temp-file allocator and the desktop
    shell are an explicit environment; the file system is a finite map
    from paths to contents.  Strings and byte strings are sequences of
    characters with code points below 256. *)

From Stdlib Require Import ZArith Ascii String List Lia Bool.
From stdpp Require Import base list strings gmap.

Local Open Scope string_scope.
Local Open Scope Z_scope.
Local Open Scope list_scope.

Set Warnings "-register-all".

(* ===================================================================== *)
(** ** String operations                                                 *)
(* ===================================================================== *)

Module Str.

(** [c.lower()] for a character with code point below 256: the ASCII
    capitals and the Latin-1 capitals (all of C0..DE but the
    multiplication sign D7) move up by 32. *)
Definition lower_ascii (c : ascii) : ascii :=
  let n := N_of_ascii c in
  if ((65 <=? n) && (n <=? 90) ||
      (192 <=? n) && (n <=? 222) && negb (n =? 215))%N
  then ascii_of_N (n + 32) else c.

(** [s.lower()] *)
Fixpoint lower (s : string) : string :=
  match s with
  | EmptyString => EmptyString
  | String c s' => String (lower_ascii c) (lower s')
  end.

(** [s.endswith(suf)]: [suf] is [s] itself or a suffix of its tail. *)
Fixpoint endswith (s suf : string) : bool :=
  match s with
  | EmptyString => String.eqb suf EmptyString
  | String _ s' => String.eqb suf s || endswith s' suf
  end.

(** [s.endswith((suf1, suf2, ...))] *)
Definition endswith_any (s : string) (sufs : list string) : bool :=
  existsb (endswith s) sufs.

(** [s.split(c)] for a one-character separator: never empty. *)
Fixpoint split (c : ascii) (s : string) : list string :=
  match s with
  | EmptyString => [EmptyString]
  | String a s' =>
      if Ascii.eqb a c then EmptyString :: split c s'
      else match split c s' with
           | h :: t => String a h :: t
           | [] => [String a EmptyString]
           end
  end.

(** [s.split(c)[-1]]: the text after the last [c], all of [s] when
    there is none (the list is never empty, so the index is in range). *)
Definition after_last (c : ascii) (s : string) : string :=
  List.last (split c s) EmptyString.

(** [sep.join(parts)] *)
Fixpoint join (sep : string) (parts : list string) : string :=
  match parts with
  | [] => EmptyString
  | [p] => p
  | p :: rest => p +:+ sep +:+ join sep rest
  end.

(** [s.startswith(p)] *)
Fixpoint startswith (s p : string) : bool :=
  match p, s with
  | EmptyString, _ => true
  | String a p', String b s' => Ascii.eqb a b && startswith s' p'
  | String _ _, EmptyString => false
  end.

(** [sub in s] for strings *)
Fixpoint contains (s sub : string) : bool :=
  startswith s sub ||
  match s with
  | EmptyString => false
  | String _ s' => contains s' sub
  end.

(** [c in s] for a character *)
Fixpoint has_char (c : ascii) (s : string) : bool :=
  match s with
  | EmptyString => false
  | String a s' => Ascii.eqb a c || has_char c s'
  end.

End Str.

(* ===================================================================== *)
(** ** Python values, exceptions and the operations the scripts apply    *)
(* ===================================================================== *)

Module Py.

(** A value produced by a JSON parser.  JSON numbers are restricted to
    integers: the scripts only test numbers for truth and fail on every
    other use, and a float behaves like an integer in both respects.
    A [JObj] is the parsed dict in insertion order (keys are unique in a
    parsed dict; [lookup_key] returns the first binding). *)
Inductive json : Type :=
| JNull
| JBool (b : bool)
| JNum (n : Z)
| JStr (s : string)
| JArr (l : list json)
| JObj (kv : list (string * json)).

(** The exception classes that can arise in the modelled code. *)
Inductive exn : Type :=
| KeyError | IndexError | TypeError | AttributeError
| JSONDecodeError        (* raised by json.load / response.json() *)
| ConnectionError        (* a requests.exceptions.RequestException *)
| HTTPError              (* raised by response.raise_for_status() *)
| OSError                (* file system failure *)
| DBusException.         (* raised by the plasma shell interface *)

(** Outcome of a Python expression or block: a value or a raised exception. *)
Inductive res (A : Type) : Type :=
| Ret (a : A)
| Raise (e : exn).
Arguments Ret {A} a.
Arguments Raise {A} e.

(** Sequencing: an exception skips the rest of the block.  With these
    instances [x ← m; k] is stdpp's notation for it. *)
#[export] Instance res_bind : MBind res := fun A B k m =>
  match m with
  | Ret a => k a
  | Raise e => Raise e
  end.
#[export] Instance res_ret : MRet res := fun A a => Ret a.
#[export] Instance res_fmap : FMap res := fun A B f m =>
  match m with
  | Ret a => Ret (f a)
  | Raise e => Raise e
  end.

(** [bool(v)] *)
Definition truthy (v : json) : bool :=
  match v with
  | JNull => false
  | JBool b => b
  | JNum n => negb (n =? 0)
  | JStr s => negb (String.eqb s "")
  | JArr l => match l with [] => false | _ => true end
  | JObj kv => match kv with [] => false | _ => true end
  end.

Fixpoint lookup_key (k : string) (kv : list (string * json)) : option json :=
  match kv with
  | [] => None
  | (k', v) :: rest => if String.eqb k k' then Some v else lookup_key k rest
  end.

(** [v[k]] for a string key [k] *)
Definition getitem_str (v : json) (k : string) : res json :=
  match v with
  | JObj kv => match lookup_key k kv with Some x => Ret x | None => Raise KeyError end
  | _ => Raise TypeError
  end.

(** Python index normalisation for sequences: [l[i]] with [i] possibly
    negative. *)
Definition seq_index {A} (l : list A) (i : Z) : option A :=
  let n := Z.of_nat (length l) in
  let j := if i <? 0 then n + i else i in
  if (0 <=? j) && (j <? n) then l !! (Z.to_nat j) else None.

Definition string_chars (s : string) : list json :=
  map (fun c => JStr (String c "")) (list_ascii_of_string s).

(** [v[i]] for an integer index [i]; a JSON dict never has an integer key. *)
Definition getitem_int (v : json) (i : Z) : res json :=
  match v with
  | JArr l => match seq_index l i with Some x => Ret x | None => Raise IndexError end
  | JStr s => match seq_index (string_chars s) i with Some x => Ret x | None => Raise IndexError end
  | JObj _ => Raise KeyError
  | _ => Raise TypeError
  end.

(** [v.get(k, default)]: only dicts have [get]. *)
Definition dict_get (v : json) (k : string) (default : json) : res json :=
  match v with
  | JObj kv => Ret (match lookup_key k kv with Some x => x | None => default end)
  | _ => Raise AttributeError
  end.

(** [l[i:]] on a list, [i] possibly negative (Python slice semantics:
    the start is clamped into [0, len]). *)
Definition slice_from {A} (i : Z) (l : list A) : list A :=
  let n := Z.of_nat (length l) in
  let start := if i <? 0 then Z.max (n + i) 0 else Z.min i n in
  drop (Z.to_nat start) l.

(** [v.append(x)]: only lists have [append]. *)
Definition append (v x : json) : res (list json) :=
  match v with
  | JArr l => Ret (l ++ [x])
  | _ => Raise AttributeError
  end.

(** [k in v] for a string [k]: key membership for a dict, element
    membership for a list, substring test for a string. *)
Definition contains_str (k : string) (v : json) : res bool :=
  match v with
  | JObj kv => Ret (match lookup_key k kv with Some _ => true | None => false end)
  | JArr l => Ret (existsb (fun x => match x with JStr s => String.eqb s k | _ => false end) l)
  | JStr s => Ret (Str.contains s k)
  | _ => Raise TypeError
  end.

(** [for x in v]: the sequence of values the loop variable takes. *)
Definition iter (v : json) : res (list json) :=
  match v with
  | JArr l => Ret l
  | JObj kv => Ret (map (fun p => JStr (fst p)) kv)
  | JStr s => Ret (string_chars s)
  | _ => Raise TypeError
  end.

(** [random.choice(v)] where the generator draws [rand]: an element of a
    non-empty list or string; a dict is indexed by an integer, which is
    never one of its keys. *)
Definition random_choice (rand : nat) (v : json) : res json :=
  match v with
  | JArr l =>
      match l !! (rand `mod` length l)%nat with
      | Some x => Ret x
      | None => Raise IndexError
      end
  | JStr s =>
      match string_chars s !! (rand `mod` String.length s)%nat with
      | Some x => Ret x
      | None => Raise IndexError
      end
  | JObj [] => Raise IndexError
  | JObj _ => Raise KeyError
  | _ => Raise TypeError
  end.

(** [str(v)] as the f-strings apply it to a value that should be a
    string; [repr] stands for the text Python prints for any other
    value. *)
Definition format (repr : json -> string) (v : json) : string :=
  match v with
  | JStr s => s
  | _ => repr v
  end.

End Py.
Import Py.


(* ===================================================================== *)
(** ** The outside world: HTTP responses and files                       *)
(* ===================================================================== *)

Module Sys.

(** What [requests.get] returned: the status code, the body
    ([response.content], a bytes object, as a string of 8-bit
    characters) and what [response.json()] makes of the body ([None]
    when the body is not a JSON document). *)
Record response : Type := Response {
  status_code : Z;
  content : string;
  parsed : option json
}.

(** One call of [requests.get]: it raises (connection refused, timeout,
    DNS failure ...) or returns a response. *)
Inductive http_outcome : Type :=
| NetFail
| Answer (r : response).

Definition http_result (o : http_outcome) : res response :=
  match o with
  | NetFail => Raise ConnectionError
  | Answer r => Ret r
  end.

(** [response.raise_for_status()]: 4xx and 5xx raise. *)
Definition raise_for_status (r : response) : res unit :=
  if (400 <=? status_code r) && (status_code r <? 600)
  then Raise HTTPError else Ret tt.

(** [response.json()] *)
Definition response_json (r : response) : res json :=
  match parsed r with
  | Some j => Ret j
  | None => Raise JSONDecodeError
  end.

(** How [with open(path, 'wb') as f: f.write(data)] goes: all written;
    [open] fails and the file is left alone; or the file is opened
    (hence truncated) and the write fails after [n] bytes. *)
Inductive fwrite : Type :=
| FwOk
| FwOpenFails
| FwFailsAfter (n : nat).

Definition write_file (w : fwrite) (path data : string) (fs : gmap string string)
  : res unit * gmap string string :=
  match w with
  | FwOk => (Ret tt, <[path := data]> fs)
  | FwOpenFails => (Raise OSError, fs)
  | FwFailsAfter n => (Raise OSError, <[path := String.substring 0 n data]> fs)
  end.

(** How [shutil.move(src, dst)] goes: done; failed with nothing changed;
    or (a move across file systems is a copy followed by an unlink) the
    copy failed after [n] bytes, with the source still in place. *)
Inductive move_outcome : Type :=
| MoveOk
| MoveFails
| MoveFailsAfter (n : nat).

Definition move_file (m : move_outcome) (src dst : string) (fs : gmap string string)
  : res unit * gmap string string :=
  match fs !! src with
  | None => (Raise OSError, fs)
  | Some data =>
      match m with
      | MoveOk => (Ret tt, <[dst := data]> (delete src fs))
      | MoveFails => (Raise OSError, fs)
      | MoveFailsAfter n => (Raise OSError, <[dst := String.substring 0 n data]> fs)
      end
  end.

(** [a / b] on [pathlib] paths, for a relative [b]: the components of
    [b] are appended, empty ones and ["."] dropped; an absolute [b]
    replaces [a]. [a] is the string of a path, hence already normal. *)
Definition components (p : string) : list string :=
  List.filter (fun c => negb (String.eqb c "") && negb (String.eqb c "."))
              (Str.split "/" p).

Definition path_join (a b : string) : string :=
  if Str.startswith b "/" then "/" +:+ Str.join "/" (components b)
  else Str.join "/" (a :: components b).

End Sys.
Import Sys.

(* ===================================================================== *)
(** ** The two function-style scripts: what they share                   *)
(* ===================================================================== *)

Module Script.

Definition NASA_SEARCH_ENDPOINT : string := "https://images-api.nasa.gov/search".
Definition NASA_ASSET_ENDPOINT : string := "https://images-api.nasa.gov/asset".
Definition SAVE_PATH : string := "/tmp/nasa_wallpaper.jpg".

(** The lines the scripts print. *)
Inductive message : Type :=
| RequestURL                                   (* "Request URL: ..." *)
| NoItemsFound                                 (* "No items found for the query." *)
| NoAssetFound                                 (* "No asset found." *)
| FailedToSearch (code : Z)                    (* "Failed to search. Status code: ..." *)
| FailedToRetrieve (code : Z)                  (* "Failed to retrieve asset. Status code: ..." *)
| FailedToDownload (code : Z)                  (* "Failed to download image. Status code: ..." *)
| RequestFailed (attempt : Z) (retries : Z) (e : exn)   (* "Request failed (attempt a/r): e" *)
| DownloadFailed (attempt : Z) (retries : Z) (e : exn)  (* "Download failed (attempt a/r): e" *)
| Downloaded (save_path : string).             (* "Image successfully downloaded to ..." *)

(** What a script does to the outside, in program order. *)
Inductive event : Type :=
| Request (url : string) (params : list (string * string))   (* requests.get *)
| Print (m : message)
| Sleep (seconds : Z)             (* time.sleep *)
| OpenWrite (path : string).      (* open(path, 'wb') *)

(** A block of a script: its value or exception, the file system it
    leaves, and what it did. *)
Definition out (A : Type) : Type := res A * gmap string string * list event.

(** [items[0]['data'][0]['nasa_id']] *)
Definition first_nasa_id (items : json) : res json :=
  item ← getitem_int items 0;
  data ← getitem_str item "data";
  first ← getitem_int data 0;
  getitem_str first "nasa_id".

(** [items[-1]['href']] *)
Definition last_href (items : json) : res json :=
  item ← getitem_int items (-1);
  getitem_str item "href".

(** [data['collection']['items']] *)
Definition collection_items (data : json) : res json :=
  collection ← getitem_str data "collection";
  getitem_str collection "items".

(** The branch [if response.status_code == 200] of the search, in both
    scripts: the value returned (or the exception) and the line printed. *)
Definition search_found (r : response) : res json * list event :=
  match (data ← response_json r; collection_items data) with
  | Raise e => (Raise e, [])
  | Ret items =>
      if truthy items then (first_nasa_id items, [])
      else (Ret JNull, [Print NoItemsFound])
  end.

(** The same branch of [get_asset_url]. *)
Definition asset_found (r : response) : res json * list event :=
  match (data ← response_json r; collection_items data) with
  | Raise e => (Raise e, [])
  | Ret items =>
      if truthy items then (last_href items, [])
        (* Typically the last item is the full resolution image *)
      else (Ret JNull, [Print NoAssetFound])
  end.

(** The same branch of [download_image]: the file is opened at
    [save_path] itself and the body written to it. *)
Definition download_found (w : fwrite) (r : response) (save_path : string)
  (fs : gmap string string) : res unit * gmap string string * list event :=
  match write_file w save_path (content r) fs with
  | (Ret _, fs') => (Ret tt, fs', [OpenWrite save_path; Print (Downloaded save_path)])
  | (Raise e, fs') => (Raise e, fs', [OpenWrite save_path])
  end.

Definition search_params (query : string) : list (string * string) :=
  [("q", query); ("media_type", "image")].

End Script.
Import Script.

(* ===================================================================== *)
(** ** nasa_wallpaper_updater.py                                         *)
(* ===================================================================== *)

Module Updater.

Section Updater.

(** [str(v)] for a value that is not a string; not modelled. *)
Variable repr : json -> string.

(** [search_nasa_images(query)]; [o] is what [requests.get] does. *)
Definition search_nasa_images (query : string) (o : http_outcome)
  : res json * list event :=
  let get := Request NASA_SEARCH_ENDPOINT (search_params query) in
  match o with
  | NetFail => (Raise ConnectionError, [get])
  | Answer r =>
      if status_code r =? 200 then
        let '(v, printed) := search_found r in (v, get :: printed)
      else (Ret JNull, [get; Print (FailedToSearch (status_code r))])
  end.

(** [get_asset_url(nasa_id)] *)
Definition get_asset_url (nasa_id : json) (o : http_outcome)
  : res json * list event :=
  let get := Request (NASA_ASSET_ENDPOINT +:+ "/" +:+ Py.format repr nasa_id) [] in
  match o with
  | NetFail => (Raise ConnectionError, [get])
  | Answer r =>
      if status_code r =? 200 then
        let '(v, printed) := asset_found r in (v, get :: printed)
      else (Ret JNull, [get; Print (FailedToRetrieve (status_code r))])
  end.

(** [download_image(image_url, save_path)]; [w] is what the file system
    does when the body is written. *)
Definition download_image (image_url save_path : string) (o : http_outcome)
  (w : fwrite) (fs : gmap string string) : out unit :=
  let get := Request image_url [] in
  match o with
  | NetFail => (Raise ConnectionError, fs, [get])
  | Answer r =>
      if status_code r =? 200 then
        let '(v, fs', done) := download_found w r save_path fs in (v, fs', get :: done)
      else (Ret tt, fs, [get; Print (FailedToDownload (status_code r))])
  end.

End Updater.

End Updater.

(* ===================================================================== *)
(** ** apiscript.py, second half: the retrying functions                 *)
(* ===================================================================== *)

Module Plugin.

Section Plugin.

(** [str(v)] for a value that is not a string; not modelled. *)
Variable repr : json -> string.

(** Whether the exception of [response.json()] is a
    [requests.exceptions.RequestException].  It depends on the installed
    [requests]: from release 2.27 on, [response.json()] raises
    [requests.exceptions.JSONDecodeError], a subclass of
    [RequestException]; before, it raised the [ValueError] of the json
    module, which is not. *)
Variable json_error_is_request_exception : bool.

(** [except requests.exceptions.RequestException] catches [e]. *)
Definition is_request_exception (e : exn) : bool :=
  match e with
  | ConnectionError | HTTPError => true
  | JSONDecodeError => json_error_is_request_exception
  | _ => false
  end.

(** One [try ... except RequestException] statement of a loop.
    [block] is the outcome of the [try] block: [Ret (Some v)] when it
    executes [return v], [Ret None] when control leaves it at its end,
    [Raise e] when it raises.  The result is [Some r] when the function
    returns or raises [r], and [None] when control reaches
    [attempt += 1]. *)
Definition except_request {A} (failed : exn -> message)
  (block : res (option A) * gmap string string * list event)
  : option (res A) * gmap string string * list event :=
  match block with
  | (Ret (Some v), fs, ev) => (Some (Ret v), fs, ev)
  | (Ret None, fs, ev) => (None, fs, ev)
  | (Raise e, fs, ev) =>
      if is_request_exception e then (None, fs, ev ++ [Print (failed e)])
      else (Some (Raise e), fs, ev)
  end.

(** [while attempt < retries: <statement>; attempt += 1; time.sleep(1)]
    followed by the end of the function, which returns [None] (here
    [none]).  [n] is the number of iterations left,
    [retries - attempt]. *)
Fixpoint retry_loop {A} (none : A)
  (statement : nat -> gmap string string -> option (res A) * gmap string string * list event)
  (n attempt : nat) (fs : gmap string string) : out A :=
  match n with
  | O => (Ret none, fs, [])
  | S n' =>
      match statement attempt fs with
      | (Some r, fs', ev) => (r, fs', ev)
      | (None, fs', ev) =>
          let '(r, fs'', ev') := retry_loop none statement n' (S attempt) fs' in
          (r, fs'', ev ++ Sleep 1 :: ev')
      end
  end.

(** The [try] block of [search_nasa_images]. *)
Definition search_try (query : string) (o : http_outcome) : res (option json) * list event :=
  let get := Request NASA_SEARCH_ENDPOINT (search_params query) in
  match o with
  | NetFail => (Raise ConnectionError, [get])
  | Answer r =>
      if status_code r =? 200 then
        let '(v, printed) := search_found r in (Some <$> v, get :: Print RequestURL :: printed)
      else (Ret None, [get; Print RequestURL; Print (FailedToSearch (status_code r))])
  end.

(** The [try ... except] statement of [search_nasa_images] in iteration
    [attempt]; [net attempt] is what [requests.get] does then. *)
Definition search_statement (query : string) (retries : Z) (net : nat -> http_outcome)
  (attempt : nat) (fs : gmap string string)
  : option (res json) * gmap string string * list event :=
  let '(block, ev) := search_try query (net attempt) in
  except_request (RequestFailed (Z.of_nat attempt + 1) retries) (block, fs, ev).

(** [search_nasa_images(query, retries)] *)
Definition search_nasa_images (query : string) (retries : Z) (net : nat -> http_outcome)
  : res json * list event :=
  let '(r, _, ev) :=
    retry_loop JNull (search_statement query retries net) (Z.to_nat retries) 0%nat ∅ in
  (r, ev).

(** The [try] block of [get_asset_url]. *)
Definition asset_try (nasa_id : json) (o : http_outcome) : res (option json) * list event :=
  let get := Request (NASA_ASSET_ENDPOINT +:+ "/" +:+ Py.format repr nasa_id) [] in
  match o with
  | NetFail => (Raise ConnectionError, [get])
  | Answer r =>
      if status_code r =? 200 then
        let '(v, printed) := asset_found r in (Some <$> v, get :: Print RequestURL :: printed)
      else (Ret None, [get; Print RequestURL; Print (FailedToRetrieve (status_code r))])
  end.

Definition asset_statement (nasa_id : json) (retries : Z) (net : nat -> http_outcome)
  (attempt : nat) (fs : gmap string string)
  : option (res json) * gmap string string * list event :=
  let '(block, ev) := asset_try nasa_id (net attempt) in
  except_request (RequestFailed (Z.of_nat attempt + 1) retries) (block, fs, ev).

(** [get_asset_url(nasa_id, retries)] *)
Definition get_asset_url (nasa_id : json) (retries : Z) (net : nat -> http_outcome)
  : res json * list event :=
  let '(r, _, ev) :=
    retry_loop JNull (asset_statement nasa_id retries net) (Z.to_nat retries) 0%nat ∅ in
  (r, ev).

(** The [try] block of [download_image]. *)
Definition download_try (image_url save_path : string) (o : http_outcome) (w : fwrite)
  (fs : gmap string string) : res (option unit) * gmap string string * list event :=
  let get := Request image_url [] in
  match o with
  | NetFail => (Raise ConnectionError, fs, [get])
  | Answer r =>
      if status_code r =? 200 then
        let '(v, fs', done) := download_found w r save_path fs in (Some <$> v, fs', get :: done)
      else (Ret None, fs, [get; Print (FailedToDownload (status_code r))])
  end.

(** [disk attempt] is what the file system does in iteration [attempt]. *)
Definition download_statement (image_url save_path : string) (retries : Z)
  (net : nat -> http_outcome) (disk : nat -> fwrite)
  (attempt : nat) (fs : gmap string string)
  : option (res unit) * gmap string string * list event :=
  except_request (DownloadFailed (Z.of_nat attempt + 1) retries)
    (download_try image_url save_path (net attempt) (disk attempt) fs).

(** [download_image(image_url, save_path, retries)].  The function has
    no [return] with a value: it yields [None] on every path. *)
Definition download_image (image_url save_path : string) (retries : Z)
  (net : nat -> http_outcome) (disk : nat -> fwrite) (fs : gmap string string) : out unit :=
  retry_loop tt (download_statement image_url save_path retries net disk)
    (Z.to_nat retries) 0%nat fs.

End Plugin.

End Plugin.

(* ===================================================================== *)
(** ** apiscript.py, class KDENASAWallpaper                              *)
(* ===================================================================== *)

Module KDE.

(** *** The history file [config_dir / 'wallpaper_history.json'] *)

(** What the history file holds: a document that [json.load] parses to
    the given value, or bytes that [json.load] rejects (an empty or
    partially written file is of that kind: no proper prefix of the
    output of [json.dump] for a list is a JSON document). *)
Inductive hfile : Type :=
| Garbage
| Doc (j : json).

(** How writing the file goes: [open(history_file, 'w')] may fail, which
    leaves the file alone; once it has succeeded the file is truncated,
    and a failure inside [json.dump] leaves it truncated or partial. *)
Inductive write_outcome : Type :=
| WriteOk
| OpenFails
| DumpFails.

(** The behaviour of the file system during one call of
    [save_wallpaper_history]. *)
Record hist_io : Type := HistIO {
  read_ok : bool;              (* open(history_file, 'r') succeeds *)
  write_res : write_outcome
}.

Definition io_ok : hist_io := HistIO true WriteOk.

(** The dict appended by [save_wallpaper_history]; [date] is
    [datetime.now().isoformat()]. *)
Definition history_entry (image_path date : string) : json :=
  JObj [("path", JStr image_path); ("date", JStr date)].

(** Lines 115-119: the only place where the persisted history is read.
    An absent file yields the empty list. *)
Definition load_history (io : hist_io) (f : option hfile) : res json :=
  match f with
  | Some content =>
      if read_ok io then
        match content with
        | Doc j => Ret j
        | Garbage => Raise JSONDecodeError
        end
      else Raise OSError
  | None => Ret (JArr [])
  end.

(** Lines 129-130: [with open(history_file, 'w') as f: json.dump(...)].
    What [json.dump] writes, [json.load] reads back as the same value. *)
Definition write_history (io : hist_io) (history : list json) (f : option hfile)
  : res unit * option hfile :=
  match write_res io with
  | WriteOk => (Ret tt, Some (Doc (JArr history)))
  | OpenFails => (Raise OSError, f)
  | DumpFails => (Raise OSError, Some Garbage)
  end.

(** The body of the [try] block of [save_wallpaper_history]. *)
Definition save_body (image_path date : string) (io : hist_io) (f : option hfile)
  : res unit * option hfile :=
  match (history ← load_history io f;
         Py.append history (history_entry image_path date)) with
  | Raise e => (Raise e, f)
  | Ret history =>
      (* Keep only last 50 entries *)
      let history := slice_from (-50) history in
      write_history io history f
  end.

(** [save_wallpaper_history]: every exception is caught and logged; the
    result is the new file state and the exception that was logged, if
    any. *)
Definition save_wallpaper_history (image_path date : string) (io : hist_io)
  (f : option hfile) : option hfile * option exn :=
  match save_body image_path date io f with
  | (Ret _, f') => (f', None)
  | (Raise e, f') => (f', Some e)
  end.

(** The entries that a sequence of calls appends, in the order of the
    calls; a call is given by its [image_path] and the time it is made. *)
Definition entries (records : list (string * string)) : list json :=
  map (fun r => history_entry r.1 r.2) records.

(** Recording a sequence of wallpapers, one call each, with a file
    system that does not fail. *)
Definition replay (records : list (string * string)) (f : option hfile) : option hfile :=
  fold_left (fun f r => fst (save_wallpaper_history r.1 r.2 io_ok f)) records f.

(** *** The state of the world and the calls made to it *)

(** The calls a cycle makes to the outside, in program order. *)
Inductive event : Type :=
| HttpGet (url : string)
| MkTemp
| WriteFile (path : string)
| Move (src dst : string)
| Chmod (path : string)
| Unlink (path : string)
| EvaluateScript (image_path : string)   (* plasma_interface.evaluateScript *)
| SaveHistory (image_path : string)      (* self.save_wallpaper_history *)
| LogInfo (msg : string)
| LogError (msg : string) (e : exn).

(** The files under the temp directory and [wallpaper_dir] ([fs]), the
    history file under [config_dir] ([hist]; no path built by
    [download_wallpaper] names it, its last component being
    [wallpaper_history.json]) and the calls made so far. *)
Record world : Type := World {
  fs : gmap string string;
  hist : option hfile;
  trace : list event
}.

(** A statement: it changes the world and returns or raises. *)
Definition M (A : Type) : Type := world -> res A * world.

#[export] Instance M_ret : MRet M := fun A a w => (Ret a, w).
#[export] Instance M_bind : MBind M := fun A B k m w =>
  match m w with
  | (Ret a, w') => k a w'
  | (Raise e, w') => (Raise e, w')
  end.

Definition lift {A} (r : res A) : M A := fun w => (r, w).

Definition emit (e : event) : M unit :=
  fun w => (Ret tt, World (fs w) (hist w) (trace w ++ [e])).

(** [try: m except Exception as e: h e] *)
Definition try_except {A} (m : M A) (h : exn -> M A) : M A := fun w =>
  match m w with
  | (Ret a, w') => (Ret a, w')
  | (Raise e, w') => h e w'
  end.

(** A file system operation, lifted to the world. *)
Definition on_fs (op : gmap string string -> res unit * gmap string string) : M unit :=
  fun w => let '(r, fs') := op (fs w) in (r, World fs' (hist w) (trace w)).

(** What the environment does during one call of [download_wallpaper]. *)
Record download_env : Type := DownloadEnv {
  mktemp : res string;       (* NamedTemporaryFile(delete=False): the new path *)
  image_http : http_outcome; (* requests.get(image_url, ...) *)
  temp_write : fwrite;       (* open(temp_path, 'wb') and f.write *)
  now : string;              (* datetime.now().strftime("%Y%m%d_%H%M%S") *)
  move_res : move_outcome;   (* shutil.move(temp_path, file_path) *)
  chmod_ok : bool            (* os.chmod(file_path, 0o644) *)
}.

(** What the environment does during one cycle. *)
Record cycle_env : Type := CycleEnv {
  search_http : http_outcome;  (* requests.get(base_url/search) *)
  rand : nat;                  (* the draw of random.choice *)
  asset_http : http_outcome;   (* requests.get(base_url/asset/nasa_id) *)
  dl : download_env;
  sink_ok : bool;              (* evaluateScript returns rather than raises *)
  date : string;               (* datetime.now().isoformat() *)
  hio : hist_io
}.

Section Pipeline.

(** [wallpaper_dir] is [str(self.wallpaper_dir)], [base_url] is
    [self.base_url]. *)
Variables (base_url wallpaper_dir : string).

(** [str(v)] for a value that is not a string (the f-strings format
    [nasa_id] whatever it is); not modelled. *)
Variable repr : json -> string.

Definition http_get (url : string) (o : http_outcome) : M response :=
  _ ← emit (HttpGet url); lift (http_result o).

(** Lines 166-167. *)
Definition file_extension (image_url : string) : string :=
  Str.lower (Str.after_last "." image_url).

Definition filename (image_url nasa_id timestamp : string) : string :=
  "nasa_" +:+ nasa_id +:+ "_" +:+ timestamp +:+ "." +:+ file_extension image_url.

(** The [try] block of [download_wallpaper], after the temp file exists. *)
Definition download_body (env : download_env) (image_url nasa_id temp_path : string)
  : M string :=
  response ← http_get image_url (image_http env);
  _ ← lift (raise_for_status response);
  _ ← emit (WriteFile temp_path);
  _ ← on_fs (write_file (temp_write env) temp_path (content response));
  let file_path := path_join wallpaper_dir (filename image_url nasa_id (now env)) in
  _ ← emit (Move temp_path file_path);
  _ ← on_fs (move_file (move_res env) temp_path file_path);
  _ ← emit (Chmod file_path);
  _ ← (if chmod_ok env then mret tt else lift (Raise OSError));
  mret file_path.

(** [download_wallpaper]: the path of the new wallpaper, or [None].
    The handler unlinks the temp file when [temp_path] is bound. *)
Definition download_wallpaper (env : download_env) (image_url nasa_id : string)
  : M (option string) :=
  _ ← emit MkTemp;
  match mktemp env with
  | Raise e => _ ← emit (LogError "Download error" e); mret None
  | Ret temp_path =>
      _ ← on_fs (fun fs => (Ret tt, <[temp_path := ""]> fs));
      try_except (p ← download_body env image_url nasa_id temp_path; mret (Some p))
        (fun e =>
           _ ← emit (LogError "Download error" e);
           _ ← emit (Unlink temp_path);
           _ ← on_fs (fun fs => (Ret tt, delete temp_path fs));
           mret None)
  end.

(** [save_wallpaper_history] as a statement on the world. *)
Definition on_hist (image_path date : string) (io : hist_io) : M unit := fun w =>
  let '(f', err) := save_wallpaper_history image_path date io (hist w) in
  let log := match err with
             | Some e => [LogError "Failed to save wallpaper history" e]
             | None => []
             end in
  (Ret tt, World (fs w) f' (trace w ++ log)).

Definition record_history (image_path date : string) (io : hist_io) : M unit :=
  _ ← emit (SaveHistory image_path); on_hist image_path date io.

(** [set_wallpaper]: the script is handed to the plasma shell; the
    history is saved after that call has returned. *)
Definition set_wallpaper (env : cycle_env) (image_path : string) : M unit :=
  try_except
    (_ ← emit (EvaluateScript image_path);
     _ ← (if sink_ok env then mret tt else lift (Raise DBusException));
     _ ← emit (LogInfo ("Successfully set wallpaper: " +:+ image_path));
     (* Save wallpaper history *)
     record_history image_path (date env) (hio env))
    (fun e => emit (LogError "Failed to set wallpaper" e)).

(** [search_images]: the parsed document, or [None]. *)
Definition search_images (env : cycle_env) : M json :=
  try_except
    (response ← http_get (base_url +:+ "/search") (search_http env);
     _ ← lift (raise_for_status response);
     lift (response_json response))
    (fun e => _ ← emit (LogError "Search error" e); mret JNull).

(** The allow-list of line 208. *)
Definition image_suffixes : list string := [".jpg"; ".jpeg"; ".png"].

(** Lines 206-210: the loop over the assets of the manifest.  It stops
    at the first asset whose [href], lower-cased, ends with one of the
    suffixes. *)
Fixpoint select_image_url (assets : list json) : res (option string) :=
  match assets with
  | [] => Ret None
  | asset :: rest =>
      href ← getitem_str asset "href";
      match href with
      | JStr h =>
          if Str.endswith_any (Str.lower h) image_suffixes
          then Ret (Some h)
          else select_image_url rest
      | _ => Raise AttributeError      (* no [lower] *)
      end
  end.

(** The [try] block of [fetch_and_set_wallpaper]; [mret tt] is [return]. *)
Definition fetch_body (env : cycle_env) : M unit :=
  (* Search for images *)
  results ← search_images env;
  no_collection ← lift (if negb (truthy results) then Ret true
                         else negb <$> contains_str "collection" results);
  if (no_collection : bool) then mret tt else
  collection ← lift (getitem_str results "collection");
  items ← lift (dict_get collection "items" (JArr []));
  if negb (truthy items) then mret tt else
  (* Randomly select an image *)
  item ← lift (random_choice (rand env) items);
  data ← lift (dict_get item "data" (JArr [JObj []]));
  first ← lift (getitem_int data 0);
  nasa_id ← lift (dict_get first "nasa_id" JNull);
  if negb (truthy nasa_id) then mret tt else
  (* Get image URL *)
  let asset_url := base_url +:+ "/asset/" +:+ Py.format repr nasa_id in
  response ← http_get asset_url (asset_http env);
  _ ← lift (raise_for_status response);
  manifest ← lift (response_json response);
  collection ← lift (dict_get manifest "collection" (JObj []));
  items ← lift (dict_get collection "items" (JArr []));
  assets ← lift (iter items);
  image_url ← lift (select_image_url assets);
  match image_url with
  | None => mret tt
  | Some image_url =>
      if String.eqb image_url "" then mret tt else
      (* Download and set wallpaper *)
      wallpaper_path ← download_wallpaper (dl env) image_url (Py.format repr nasa_id);
      match wallpaper_path with
      | None => mret tt
      | Some path => if String.eqb path "" then mret tt else set_wallpaper env path
      end
  end.

(** [fetch_and_set_wallpaper]: one cycle. *)
Definition fetch_and_set_wallpaper (env : cycle_env) : M unit :=
  try_except (fetch_body env)
    (fun e => emit (LogError "Failed to fetch and set wallpaper" e)).

End Pipeline.

End KDE.

(* ===================================================================== *)
(** ** Vocabulary of the statements                                      *)
(* ===================================================================== *)

Module Spec.
Import KDE.

(** The call [self.save_wallpaper_history(...)]. *)
Definition is_save (e : KDE.event) : bool :=
  match e with
  | SaveHistory _ => true
  | _ => false
  end.

(** A statement that leaves the history file alone and never calls
    [save_wallpaper_history]. *)
Definition no_record {A} (m : M A) : Prop :=
  forall w, hist (m w).2 = hist w /\
            exists evs, trace (m w).2 = trace w ++ evs /\
                        Forall (fun e => is_save e = false) evs.

(** The test of line 208 on one href. *)
Definition allowed (href : string) : bool :=
  Str.endswith_any (Str.lower href) image_suffixes.

(** In the spec's words: the extension of an href, lower-cased (case is
    ignored), is on the allow-list.  The extension is the text after
    the last dot; a name without a dot has none. *)
Definition allow_list : list string := ["jpg"; "jpeg"; "png"].

Definition extension (href : string) : option string :=
  if Str.has_char "." href then Some (Str.lower (Str.after_last "." href)) else None.

Definition extension_allowed (href : string) : bool :=
  match extension href with
  | Some ext => existsb (String.eqb ext) allow_list
  | None => false
  end.

(** The number of calls of [requests.get] among the things a script did. *)
Definition is_request (e : Script.event) : bool :=
  match e with
  | Request _ _ => true
  | _ => false
  end.

Definition requests (ev : list Script.event) : nat :=
  length (List.filter is_request ev).

(** A transient failure of one attempt: [requests.get] raises, or the
    status is not 200. *)
Definition transient (o : http_outcome) : bool :=
  match o with
  | NetFail => true
  | Answer r => negb (status_code r =? 200)
  end.

(** An attempt answered with status 200 and a body that is not JSON. *)
Definition malformed (o : http_outcome) : bool :=
  match o with
  | NetFail => false
  | Answer r => (status_code r =? 200) && negb (bool_decide (is_Some (parsed r)))
  end.

(** An iteration of the search or asset loop that reaches
    [attempt += 1]: a transient failure, or a body that is not JSON when
    the exception of [response.json()] is a [RequestException] ([jx]). *)
Definition again (jx : bool) (o : http_outcome) : bool :=
  transient o || (jx && malformed o).

(** The exceptions of a document that lacks an expected field or has a
    value of another type in its place. *)
Definition shape_error (e : exn) : bool :=
  match e with
  | KeyError | IndexError | TypeError => true
  | _ => false
  end.

(** In the spec's words: the final path segment of a URL and its
    extension.  The path of a URL stops at the first [?] or [#]; its
    final segment is what follows the last [/]. *)
Fixpoint url_path (url : string) : string :=
  match url with
  | EmptyString => EmptyString
  | String c rest =>
      if Ascii.eqb c "?" || Ascii.eqb c "#" then EmptyString
      else String c (url_path rest)
  end.

Definition final_segment (url : string) : string :=
  Str.after_last "/" (url_path url).

Definition url_extension (url : string) : option string :=
  extension (final_segment url).

(** The transfer of [download_wallpaper] is interrupted: no temp file
    can be made, the request raises, the status is an error, or the
    body cannot be written to the temp file in full. *)
Definition transfer_interrupted (env : download_env) : bool :=
  match mktemp env with
  | Raise _ => true
  | Ret _ =>
      match image_http env with
      | NetFail => true
      | Answer r =>
          (400 <=? status_code r) && (status_code r <? 600) ||
          match temp_write env with
          | FwOk => false
          | _ => true
          end
      end
  end.

(** The items of a manifest that lists the given hrefs. *)
Definition assets_of (hrefs : list string) : list json :=
  map (fun h => JObj [("href", JStr h)]) hrefs.

(** A manifest with the given hrefs, as the asset endpoint answers. *)
Definition manifest_of (hrefs : list string) : json :=
  JObj [("collection", JObj [("items", JArr (assets_of hrefs))])].

(** A response with status 200 whose body is the document [j]. *)
Definition ok (j : json) : http_outcome := Answer (Response 200 "" (Some j)).

End Spec.

(* ===================================================================== *)
(** ** Sample inputs                                                     *)
(* ===================================================================== *)

Module Sample.
Import KDE Spec.

Definition records3 : list (string * string) :=
  [("/a.jpg", "2024-01-01T00:00:00"); ("/b.png", "2024-01-01T06:00:00");
   ("/a.jpg", "2024-01-01T12:00:00")].

Definition full_history : list json :=
  replicate 50 (history_entry "/old.jpg" "2024-01-01T00:00:00").

Definition one_entry : option hfile :=
  Some (Doc (JArr [history_entry "/a.jpg" "2024-01-01T00:00:00"])).

Definition search_doc : json :=
  JObj [("collection",
         JObj [("items",
                JArr [JObj [("data", JArr [JObj [("nasa_id", JStr "PIA00001")]])]])])].

Definition hrefs3 : list string :=
  ["http://images-assets.nasa.gov/image/PIA00001/PIA00001~orig.tif";
   "http://images-assets.nasa.gov/image/PIA00001/PIA00001~large.JPG";
   "http://images-assets.nasa.gov/image/PIA00001/PIA00001~thumb.jpg"].

Definition hrefs_jpg_tif : list string :=
  ["http://images-assets.nasa.gov/image/PIA00001/PIA00001~thumb.jpg";
   "http://images-assets.nasa.gov/image/PIA00001/PIA00001~orig.tif"].

Definition hrefs_tif : list string :=
  ["http://images-assets.nasa.gov/image/PIA00001/PIA00001~orig.tif"].

(** A search document without items. *)
Definition empty_doc : json := JObj [("collection", JObj [("items", JArr [])])].

(** Three transient failures in a row, and as many more as asked for. *)
Definition always_down : nat -> http_outcome := fun _ => NetFail.

(** Two transient failures, then the search document. *)
Definition up_at_2 (j : json) : nat -> http_outcome :=
  fun i => if (i <? 2)%nat then NetFail else ok j.

(** The server answers 200 with an HTML error page each time. *)
Definition always_html : nat -> http_outcome :=
  fun _ => Answer (Response 200 "<html>busy</html>" None).

(** The server answers with the image each time. *)
Definition image_up : nat -> http_outcome :=
  fun _ => Answer (Response 200 "JFIF-bytes" None).

Definition disk_ok : nat -> fwrite := fun _ => FwOk.

(** A download whose URL carries a query string. *)
Definition url_with_query : string :=
  "https://images-assets.nasa.gov/image/PIA00001/PIA00001~orig.JPG?v=1.5".

(** The connection breaks while the image is fetched. *)
Definition broken_download : download_env :=
  DownloadEnv (Ret "/tmp/tmpk3v9x1") NetFail FwOk "20240101_120000" MoveOk true.

(** The wallpaper of an earlier run is at the destination. *)
Definition old_wallpaper : gmap string string :=
  {[ SAVE_PATH := "old-image-bytes" ]}.

Definition ok_download : download_env :=
  DownloadEnv (Ret "/tmp/tmpk3v9x1") (Answer (Response 200 "JFIF-bytes" None))
              FwOk "20240101_120000" MoveOk true.

(** A cycle in which everything works but the plasma shell. *)
Definition failing_sink : cycle_env :=
  CycleEnv (ok search_doc) 0 (ok (manifest_of hrefs3)) ok_download
           false "2024-01-01T12:00:01" io_ok.

Definition world0 : world := World ∅ one_entry [].

End Sample.

(* ===================================================================== *)
(** ** The scripts as wholes: search, resolve, download, set             *)
(* ===================================================================== *)

Module Shell.

(** The commands handed to [subprocess.run]; each evaluates, in the
    plasma shell, the script that sets [image_path] as the wallpaper. *)
Inductive command : Type :=
| Qdbus (image_path : string)
| DbusSend (image_path : string).

(** What a whole script does, in program order: what its stages do,
    the commands it runs, and the line printed when no tool is found. *)
Inductive action : Type :=
| Stage (e : Script.event)
| Run (c : command)
| PrintNoTool.     (* "Neither qdbus nor dbus-send is available ..." *)

(** A statement of a script: from the files, its value or exception,
    the files it leaves and what it did. *)
Definition P (A : Type) : Type :=
  gmap string string -> res A * gmap string string * list action.

#[export] Instance P_ret : MRet P := fun A a fs => (Ret a, fs, []).
#[export] Instance P_bind : MBind P := fun A B k m fs =>
  match m fs with
  | (Ret a, fs', acts) =>
      let '(r, fs'', acts') := k a fs' in (r, fs'', acts ++ acts')
  | (Raise e, fs', acts) => (Raise e, fs', acts)
  end.

(** A stage that touches no file. *)
Definition stage {A} (x : res A * list Script.event) : P A :=
  fun fs => (x.1, fs, Stage <$> x.2).

(** A stage that writes files. *)
Definition file_stage {A} (f : gmap string string -> Script.out A) : P A :=
  fun fs => let '(r, fs', ev) := f fs in (r, fs', Stage <$> ev).

Definition act {A} (r : res A) (a : action) : P A :=
  fun fs => (r, fs, [a]).

End Shell.
Import Shell.

(** *** nasa_wallpaper_updater.py, [set_wallpaper] and the main block *)

Module UpdaterMain.

(** What the outside does during one run of the script. *)
Record env : Type := Env {
  search_o : http_outcome;
  asset_o : http_outcome;
  image_o : http_outcome;
  disk_o : fwrite;
  qdbus_installed : bool     (* subprocess.run finds the executable *)
}.

Section Main.

Variable repr : json -> string.

(** [set_wallpaper(image_path)]: [subprocess.run] without [check]; it
    raises only when there is no [qdbus] to run. *)
Definition set_wallpaper (e : env) (image_path : string) : P unit :=
  act (if qdbus_installed e then Ret tt else Raise OSError) (Run (Qdbus image_path)).

(** The block under [if __name__ == "__main__"], with [query] for the
    keyword.  [requests.get] takes the string of a URL that is not a
    string. *)
Definition main (query : string) (e : env) : P unit :=
  nasa_id ← stage (Updater.search_nasa_images query (search_o e));
  if truthy nasa_id then
    image_url ← stage (Updater.get_asset_url repr nasa_id (asset_o e));
    if truthy image_url then
      _ ← file_stage (Updater.download_image (Py.format repr image_url) SAVE_PATH
                        (image_o e) (disk_o e));
      set_wallpaper e SAVE_PATH
    else mret tt
  else mret tt.

End Main.

End UpdaterMain.

(** *** apiscript.py, class [NasaWallpaperPlugin] *)

Module NasaWallpaperPlugin.

(** What the outside does during one call of [update_wallpaper]. *)
Record env : Type := Env {
  search_net : nat -> http_outcome;
  asset_net : nat -> http_outcome;
  image_net : nat -> http_outcome;
  disk : nat -> fwrite;
  which_qdbus : bool;        (* shutil.which("qdbus") finds it *)
  which_dbus_send : bool     (* shutil.which("dbus-send") finds it *)
}.

Section Plugin.

Variables (repr : json -> string) (json_error_is_request_exception : bool).

(** [set_wallpaper(image_path)]: the first tool found is run. *)
Definition set_wallpaper (e : env) (image_path : string) : P unit :=
  if which_qdbus e then act (Ret tt) (Run (Qdbus image_path))
  else if which_dbus_send e then act (Ret tt) (Run (DbusSend image_path))
  else act (Ret tt) PrintNoTool.

(** [update_wallpaper()]; [query] is [self.query], and the stages run
    with their default of three retries. *)
Definition update_wallpaper (query : string) (e : env) : P unit :=
  nasa_id ← stage (Plugin.search_nasa_images json_error_is_request_exception
                     query 3 (search_net e));
  if truthy nasa_id then
    image_url ← stage (Plugin.get_asset_url repr json_error_is_request_exception
                         nasa_id 3 (asset_net e));
    if truthy image_url then
      _ ← file_stage (Plugin.download_image json_error_is_request_exception
                        (Py.format repr image_url) SAVE_PATH 3 (image_net e) (disk e));
      set_wallpaper e SAVE_PATH
    else mret tt
  else mret tt.

End Plugin.

End NasaWallpaperPlugin.

(* ===================================================================== *)
(** ** Vocabulary of the further statements                              *)
(* ===================================================================== *)

Module Spec2.
Import KDE Spec.

(** The calls by which a cycle shows something to the desktop or to
    the history. *)
Definition is_apply_or_save (e : KDE.event) : bool :=
  match e with
  | EvaluateScript _ | SaveHistory _ => true
  | _ => false
  end.

Definition silent (evs : list KDE.event) : Prop :=
  Forall (fun e => is_apply_or_save e = false) evs.

(** [w'] comes from [w] by steps that call neither the shell nor
    [save_wallpaper_history] and leave the history file alone. *)
Definition quiet_step (w w' : world) : Prop :=
  hist w' = hist w /\ exists evs, trace w' = trace w ++ evs /\ silent evs.

(** A statement made of such steps, whose value satisfies [post]. *)
Definition quiet {A} (post : A -> Prop) (m : M A) : Prop :=
  forall w, quiet_step w (m w).2 /\ forall a, (m w).1 = Ret a -> post a.

(** A statement made of such steps, after which it may end by one call
    of [set_wallpaper] on a path that satisfies [good]. *)
Definition applies_last (env : cycle_env) (good : string -> Prop) (m : M unit) : Prop :=
  forall w, quiet_step w (m w).2 \/
            exists w1 path, quiet_step w w1 /\ good path /\ m w = set_wallpaper env path w1.

(** A statement that leaves alone the files whose path satisfies [keep]. *)
Definition frames {A} (keep : string -> Prop) (m : M A) : Prop :=
  forall w q, keep q -> fs (m w).2 !! q = fs w !! q.

(** Line 113: [self.config_dir / 'wallpaper_history.json']. *)
Definition history_file (config_dir : string) : string :=
  path_join config_dir "wallpaper_history.json".

(** Line 41: [self.config_dir / 'wallpaper.log']. *)
Definition log_file (config_dir : string) : string :=
  path_join config_dir "wallpaper.log".

(** A file of the logger: [wallpaper.log], or one of the backups
    [wallpaper.log.1], ... that the rotating handler makes of it. *)
Definition is_log_file (config_dir q : string) : bool :=
  Str.startswith q (log_file config_dir).

(** The calls of [self.logger], each of which writes to the log. *)
Definition is_log (e : KDE.event) : bool :=
  match e with
  | LogInfo _ | LogError _ _ => true
  | _ => false
  end.

Definition log_lines (evs : list KDE.event) : list KDE.event :=
  List.filter is_log evs.

(** The content of every file of the machine, by path, as the class
    leaves it: the files of the logger hold what the logging library
    made of the lines logged so far ([logged]), the history file holds
    the bytes of its state ([dumps]), and every other path is looked up
    in [fs].  Neither the logging library nor the layout of [json.dump]
    is modelled: the statements hold whatever [logged] and [dumps]
    are. *)
Definition disk (config_dir : string) (dumps : hfile -> string)
  (logged : list KDE.event -> string -> option string) (w : world) (q : string)
  : option string :=
  if is_log_file config_dir q then logged (log_lines (trace w)) q
  else if String.eqb q (history_file config_dir) then dumps <$> hist w
  else fs w !! q.

(** An item the loop of line 207 looks at and passes over: it has an
    href, a string, whose extension is not on the allow-list. *)
Definition skipped (asset : json) : Prop :=
  exists x, getitem_str asset "href" = Ret (JStr x) /\ extension_allowed x = false.

(** An item on which the loop raises [e]: no href ([KeyError]), not a
    dict ([TypeError]), or an href that is not a string and so has no
    [lower] ([AttributeError]). *)
Definition breaks (asset : json) (e : exn) : Prop :=
  getitem_str asset "href" = Raise e \/
  (exists v, getitem_str asset "href" = Ret v /\ (forall x, v <> JStr x) /\
             e = AttributeError).

(** The number of calls of [requests.get] a cycle makes. *)
Definition http_gets (evs : list KDE.event) : nat :=
  length (List.filter (fun e => match e with HttpGet _ => true | _ => false end) evs).

(** A statement that calls [requests.get] at most [n] times. *)
Definition gets_at_most {A} (n : nat) (m : M A) : Prop :=
  forall w, exists evs, trace (m w).2 = trace w ++ evs /\ (http_gets evs <= n)%nat.

(** The seconds a script spends in [time.sleep]. *)
Definition slept (ev : list Script.event) : Z :=
  foldr (fun e acc => match e with Sleep s => s + acc | _ => acc end) 0 ev.

(** The [Run] actions of a script. *)
Definition commands (acts : list action) : list command :=
  omap (fun a => match a with Run c => Some c | _ => None end) acts.

End Spec2.

Module Sample2.
Import KDE Spec.

(** A cycle in which everything works. *)
Definition working : cycle_env :=
  CycleEnv (ok Sample.search_doc) 0 (ok (manifest_of Sample.hrefs3)) Sample.ok_download
           true "2024-01-01T12:00:01" io_ok.

(** A manifest whose second item has no href, after a [.png]. *)
Definition assets_png_then_bad : list json :=
  [JObj [("href", JStr "http://images-assets.nasa.gov/image/PIA00001/PIA00001~orig.tif")];
   JObj [("href", JStr "http://images-assets.nasa.gov/image/PIA00001/PIA00001~medium.PNG")];
   JObj [("rel", JStr "captions")];
   JNum 7].

(** The same with the item without href first. *)
Definition assets_bad_first : list json :=
  [JObj [("rel", JStr "captions")];
   JObj [("href", JStr "http://images-assets.nasa.gov/image/PIA00001/PIA00001~medium.PNG")]].

(** The image server is down while the catalog works. *)
Definition plugin_image_down : NasaWallpaperPlugin.env :=
  NasaWallpaperPlugin.Env (fun _ => ok Sample.search_doc)
    (fun _ => ok (manifest_of Sample.hrefs3)) Sample.always_down Sample.disk_ok
    true true.

(** The image server answers 404. *)
Definition updater_image_404 : UpdaterMain.env :=
  UpdaterMain.Env (ok Sample.search_doc) (ok (manifest_of Sample.hrefs3))
    (Answer (Response 404 "not found" None)) FwOk true.

End Sample2.

(* ===================================================================== *)
(** * Properties                                                         *)
(* ===================================================================== *)

(** ** Strings: splitting, suffixes and case *)

Module StrFacts.
Import Str.

Lemma split_no_sep (c : ascii) (s : string) :
  has_char c s = false -> split c s = [s].
Proof.
  induction s as [|a s IH]; [done|]. simpl.
  intros [Ha Hs]%orb_false_iff. rewrite Ha, (IH Hs). done.
Qed.

Lemma split_sep (c : ascii) (s : string) :
  has_char c s = true -> exists h t, split c s = h :: t /\ t <> [].
Proof.
  induction s as [|a s IH]; [done|]. simpl.
  destruct (Ascii.eqb a c) eqn:Ha; simpl.
  - intros _. destruct (has_char c s) eqn:Hs.
    + destruct (IH eq_refl) as (h & t & -> & Ht). by exists EmptyString, (h :: t).
    + rewrite (split_no_sep _ _ Hs). by exists EmptyString, [s].
  - intros Hs. destruct (IH Hs) as (h & t & -> & Ht). by exists (String a h), t.
Qed.

Lemma after_last_no_sep (c : ascii) (s : string) :
  has_char c s = false -> after_last c s = s.
Proof. intros Hs. unfold after_last. by rewrite split_no_sep. Qed.

(** The text after the last [c] of a string, read from its head. *)
Lemma after_last_cons (c a : ascii) (s : string) :
  after_last c (String a s) =
    if has_char c s then after_last c s
    else if Ascii.eqb a c then s else String a s.
Proof.
  unfold after_last. simpl.
  destruct (has_char c s) eqn:Hs.
  - destruct (split_sep _ _ Hs) as (h & t & -> & Ht).
    destruct (Ascii.eqb a c); destruct t; done.
  - rewrite (split_no_sep _ _ Hs). by destruct (Ascii.eqb a c).
Qed.

Lemma has_char_after_last (c d : ascii) (s : string) :
  has_char c (after_last d s) = true -> has_char c s = true.
Proof.
  induction s as [|a s IH]; [done|].
  rewrite after_last_cons. simpl.
  destruct (has_char d s).
  - intros H%IH. rewrite H. apply orb_true_r.
  - destruct (Ascii.eqb a d); [|done]. intros ->. apply orb_true_r.
Qed.

(** [s] ends with [c] followed by a [c]-free [ext] exactly when [s]
    has a [c] and [ext] is what follows the last one. *)
Lemma endswith_after_last (c : ascii) (ext s : string) :
  has_char c ext = false ->
  endswith s (String c ext) = has_char c s && String.eqb (after_last c s) ext.
Proof.
  intros Hext. induction s as [|a s IH]; [done|].
  rewrite after_last_cons. simpl. rewrite IH.
  destruct (has_char c s) eqn:Hs; simpl.
  - rewrite orb_true_r. simpl.
    destruct (Ascii.eqb c a) eqn:Hca; simpl; [|done].
    destruct (String.eqb ext s) eqn:He; [|done].
    apply String.eqb_eq in He. congruence.
  - rewrite orb_false_r. rewrite (Ascii.eqb_sym c a).
    destruct (Ascii.eqb a c); simpl; [|done].
    apply String.eqb_sym.
Qed.

(** No character becomes a dot, or stops being one, under [lower]. *)
Lemma lower_ascii_dot (a : ascii) :
  Ascii.eqb (lower_ascii a) "." = Ascii.eqb a ".".
Proof.
  destruct a as [[] [] [] [] [] [] [] []]; vm_compute; reflexivity.
Qed.

Lemma has_dot_lower (s : string) : has_char "." (lower s) = has_char "." s.
Proof.
  induction s as [|a s IH]; [done|]. simpl. by rewrite lower_ascii_dot, IH.
Qed.

Lemma after_last_dot_lower (s : string) :
  after_last "." (lower s) = lower (after_last "." s).
Proof.
  induction s as [|a s IH]; [done|].
  change (lower (String a s)) with (String (lower_ascii a) (lower s)).
  rewrite !after_last_cons, has_dot_lower, lower_ascii_dot, IH.
  destruct (has_char "." s); [done|]. by destruct (Ascii.eqb a ".").
Qed.

End StrFacts.

(** ** The history store *)

Module HistoryFacts.
Import KDE.

(** [history[-50:]] is the list without its first [len - 50] entries. *)
Lemma slice_last_50 {A} (l : list A) :
  slice_from (-50) l = drop (length l - 50)%nat l.
Proof.
  unfold slice_from. f_equal.
  replace (-50 <? 0) with true by reflexivity. lia.
Qed.

Lemma slice_last_50_short {A} (l : list A) :
  (length l <= 50)%nat -> slice_from (-50) l = l.
Proof.
  intros Hlen. rewrite slice_last_50.
  replace (length l - 50)%nat with 0%nat by lia. apply drop_0.
Qed.

Lemma slice_last_50_length {A} (l : list A) :
  length (slice_from (-50) l) = Nat.min (length l) 50.
Proof. rewrite slice_last_50, length_drop. lia. Qed.

(** Truncating early does not change what a later truncation keeps. *)
Lemma slice_last_50_app {A} (l k : list A) :
  slice_from (-50) (slice_from (-50) l ++ k) = slice_from (-50) (l ++ k).
Proof.
  rewrite !slice_last_50.
  rewrite <- (drop_app_le l k (length l - 50)) by lia.
  rewrite drop_drop. f_equal.
  rewrite length_drop, !length_app. lia.
Qed.

(** One call on a file that holds a list, when the file system works. *)
Lemma save_on_list (l : list json) (image_path date : string) (io : hist_io) :
  read_ok io = true -> write_res io = WriteOk ->
  save_wallpaper_history image_path date io (Some (Doc (JArr l))) =
    (Some (Doc (JArr (slice_from (-50) (l ++ [history_entry image_path date])))), None).
Proof.
  intros Hr Hw. unfold save_wallpaper_history, save_body, write_history. simpl.
  rewrite Hr. simpl. rewrite Hw. reflexivity.
Qed.

(** One call when there is no file yet. *)
Lemma save_on_absent (image_path date : string) (io : hist_io) :
  write_res io = WriteOk ->
  save_wallpaper_history image_path date io None =
    (Some (Doc (JArr [history_entry image_path date])), None).
Proof.
  intros Hw. unfold save_wallpaper_history, save_body, write_history. simpl.
  rewrite Hw. reflexivity.
Qed.

Lemma replay_cons (r : string * string) (records : list (string * string))
  (f : option hfile) :
  replay (r :: records) f =
    replay records (save_wallpaper_history r.1 r.2 io_ok f).1.
Proof. reflexivity. Qed.

Lemma replay_on_list (records : list (string * string)) (l : list json) :
  replay records (Some (Doc (JArr (slice_from (-50) l)))) =
    Some (Doc (JArr (slice_from (-50) (l ++ entries records)))).
Proof.
  revert l. induction records as [|r records IH]; intros l.
  - simpl. by rewrite app_nil_r.
  - rewrite replay_cons, save_on_list by reflexivity. cbn [fst].
    rewrite IH, <- app_assoc, slice_last_50_app.
    reflexivity.
Qed.

(** Replaying a non-empty sequence of records on an absent or empty
    history stores the last 50 of them, in the order of the calls. *)
Lemma replay_from_empty (r : string * string) (records : list (string * string))
  (start : option hfile) :
  start = None \/ start = Some (Doc (JArr [])) ->
  replay (r :: records) start =
    Some (Doc (JArr (slice_from (-50) (entries (r :: records))))).
Proof.
  intros Hstart.
  rewrite replay_cons.
  assert ((save_wallpaper_history r.1 r.2 io_ok start).1 =
          Some (Doc (JArr (slice_from (-50) [history_entry r.1 r.2])))) as ->.
  { destruct Hstart as [-> | ->]; reflexivity. }
  exact (replay_on_list records [history_entry r.1 r.2]).
Qed.

End HistoryFacts.

Module HistoryClaims.
Import KDE HistoryFacts.

(** C1. When the history holds more than 50 entries once the new entry
    is appended, [save_wallpaper_history] stores exactly 50 entries: the
    last 50 of the old entries followed by the new one, in their order.
    The old list is whatever list the file held (the code does not ask
    that it be capped already). *)
Theorem history_capped_at_50 (l : list json) (image_path date : string) (io : hist_io) :
  read_ok io = true -> write_res io = WriteOk ->
  (50 < length (l ++ [history_entry image_path date]))%nat ->
  exists stored,
    save_wallpaper_history image_path date io (Some (Doc (JArr l))) =
      (Some (Doc (JArr stored)), None)
    /\ length stored = 50%nat
    /\ stored = drop (length (l ++ [history_entry image_path date]) - 50)%nat
                     (l ++ [history_entry image_path date])
    /\ (forall i, (i < 50)%nat ->
          stored !! i = (l ++ [history_entry image_path date]) !! (length l - 49 + i)%nat)
    /\ load_history io (Some (Doc (JArr stored))) = Ret (JArr stored).
Proof.
  intros Hr Hw Hlen.
  exists (slice_from (-50) (l ++ [history_entry image_path date])).
  split; [by apply save_on_list|].
  split; [rewrite slice_last_50_length; lia|].
  split; [apply slice_last_50|].
  split.
  - intros i Hi. rewrite slice_last_50, lookup_drop. f_equal.
    rewrite length_app in *. simpl in *. lia.
  - simpl. by rewrite Hr.
Qed.

Lemma history_capped_at_50_witness :
  let l := Sample.full_history in
  read_ok io_ok = true /\ write_res io_ok = WriteOk /\
  (50 < length (l ++ [history_entry "/new.jpg" "2024-01-02T00:00:00"]))%nat /\
  exists stored,
    save_wallpaper_history "/new.jpg" "2024-01-02T00:00:00" io_ok (Some (Doc (JArr l))) =
      (Some (Doc (JArr stored)), None)
    /\ length stored = 50%nat
    /\ stored = drop (length (l ++ [history_entry "/new.jpg" "2024-01-02T00:00:00"]) - 50)%nat
                     (l ++ [history_entry "/new.jpg" "2024-01-02T00:00:00"])
    /\ (forall i, (i < 50)%nat ->
          stored !! i =
          (l ++ [history_entry "/new.jpg" "2024-01-02T00:00:00"]) !! (length l - 49 + i)%nat)
    /\ load_history io_ok (Some (Doc (JArr stored))) = Ret (JArr stored).
Proof.
  intros l. split; [reflexivity|]. split; [reflexivity|].
  split; [vm_compute; lia|].
  apply (history_capped_at_50 l "/new.jpg" "2024-01-02T00:00:00" io_ok);
    [reflexivity | reflexivity | vm_compute; lia].
Defined.

(** The same over a whole run: more than 50 calls on an absent history
    leave the entries of the last 50 calls, oldest first. *)
Lemma replay_keeps_last_50 (records : list (string * string)) :
  (50 < length records)%nat ->
  replay records None =
    Some (Doc (JArr (drop (length records - 50)%nat (entries records))))
  /\ length (drop (length records - 50)%nat (entries records)) = 50%nat.
Proof.
  intros Hlen. destruct records as [|r records]; [simpl in Hlen; lia|].
  rewrite replay_from_empty by auto.
  rewrite slice_last_50. unfold entries at 1 2. rewrite !length_map.
  split; [reflexivity|].
  rewrite length_drop. unfold entries. rewrite length_map. lia.
Qed.

(** C6. N <= 50 entries recorded in order on an absent (or empty)
    history: reading the file back yields exactly those N entries in the
    order of the calls.  And reading an absent history yields the empty
    list, not an exception, whatever the file system does. *)
Theorem replay_then_load (records : list (string * string)) (start : option hfile)
  (io : hist_io) :
  start = None \/ start = Some (Doc (JArr [])) ->
  (length records <= 50)%nat ->
  read_ok io = true ->
  load_history io (replay records start) = Ret (JArr (entries records))
  /\ forall io', load_history io' None = Ret (JArr []).
Proof.
  intros Hstart Hlen Hr. split; [|reflexivity].
  destruct records as [|r records].
  - destruct Hstart as [-> | ->]; simpl; [reflexivity | by rewrite Hr].
  - rewrite replay_from_empty by done.
    rewrite slice_last_50_short by (unfold entries; rewrite length_map; lia).
    simpl. by rewrite Hr.
Qed.

Lemma replay_then_load_witness :
  let records := Sample.records3 in
(@None hfile = None \/ @None hfile = Some (Doc (JArr []))) /\
  (length records <= 50)%nat /\
  read_ok io_ok = true /\
  load_history io_ok (replay records None) = Ret (JArr (entries records))
  /\ forall io', load_history io' None = Ret (JArr []).
Proof.
  intros records. split; [left; reflexivity|]. split; [simpl; lia|].
  split; [reflexivity|].
  apply (replay_then_load records None io_ok); [left; reflexivity | simpl; lia | reflexivity].
Defined.

(** C10, as stated, fails: when the step that fails is the write itself,
    after [open(history_file, 'w')] has truncated the file, the call logs
    the exception and the history that was there is gone. *)
Lemma record_write_failure_loses_history :
  let before := Sample.one_entry in
  let io := HistIO true DumpFails in
  (save_wallpaper_history "/b.jpg" "2024-01-01T06:00:00" io before).2 = Some OSError
  /\ (save_wallpaper_history "/b.jpg" "2024-01-01T06:00:00" io before).1 = Some Garbage
  /\ (save_wallpaper_history "/b.jpg" "2024-01-01T06:00:00" io before).1 <> before.
Proof. repeat split. discriminate. Qed.

(** C10, amended.  A call that fails anywhere but inside [json.dump]
    leaves the history file as it was: the file cannot be read, its
    content is not JSON, the document is not a list (no [append]), or
    the file cannot be opened for writing. *)
Theorem record_failure_leaves_file (image_path date : string) (io : hist_io)
  (f : option hfile) (e : exn) :
  (save_wallpaper_history image_path date io f).2 = Some e ->
  write_res io <> DumpFails ->
  (save_wallpaper_history image_path date io f).1 = f.
Proof.
  unfold save_wallpaper_history, save_body, write_history.
  intros Hfail Hw.
  destruct (history ← load_history io f; Py.append history (history_entry image_path date))
    as [history|e']; [|reflexivity].
  destruct (write_res io); simpl in *; congruence.
Qed.

Lemma record_failure_leaves_file_witness :
  (save_wallpaper_history "/b.jpg" "2024-01-01T06:00:00" io_ok (Some Garbage)).2
    = Some JSONDecodeError /\
  write_res io_ok <> DumpFails /\
  (save_wallpaper_history "/b.jpg" "2024-01-01T06:00:00" io_ok (Some Garbage)).1
    = Some Garbage.
Proof.
  split; [reflexivity|]. split; [discriminate|].
  apply (record_failure_leaves_file "/b.jpg" "2024-01-01T06:00:00" io_ok (Some Garbage)
           JSONDecodeError); [reflexivity | discriminate].
Defined.

(** The failures before the write, one by one. *)
Lemma record_failure_cases (image_path date : string) (io : hist_io) (f : option hfile) :
  (read_ok io = false /\ is_Some f) \/
  f = Some Garbage \/
  (exists j, f = Some (Doc j) /\ forall l, j <> JArr l) \/
  write_res io = OpenFails ->
  exists e, save_wallpaper_history image_path date io f = (f, Some e).
Proof.
  unfold save_wallpaper_history, save_body, write_history, load_history.
  intros [[Hr [c ->]] | [-> | [(j & -> & Hj) | Hw]]].
  - rewrite Hr. by eexists.
  - destruct (read_ok io); by eexists.
  - destruct (read_ok io); [|by eexists].
    destruct j; try by eexists. by destruct (Hj l).
  - destruct f as [[|j]|]; simpl.
    + destruct (read_ok io); by eexists.
    + destruct (read_ok io); [|by eexists].
      destruct j; simpl; try by eexists. rewrite Hw. by eexists.
    + rewrite Hw. by eexists.
Qed.

End HistoryClaims.

(** ** One cycle: the history is written only after the shell call *)

Module CycleFacts.
Import KDE Spec.

Lemma no_record_ret {A} (a : A) : no_record (mret a).
Proof. intros w. split; [done|]. exists []. by rewrite app_nil_r. Qed.

Lemma no_record_lift {A} (r : res A) : no_record (lift r).
Proof. intros w. split; [done|]. exists []. by rewrite app_nil_r. Qed.

Lemma no_record_emit (e : KDE.event) : is_save e = false -> no_record (emit e).
Proof. intros He w. split; [done|]. exists [e]. split; [done|]. by constructor. Qed.

Lemma no_record_on_fs op : no_record (on_fs op).
Proof.
  intros w. unfold on_fs. destruct (op (fs w)) as [r fs'].
  split; [done|]. exists []. by rewrite app_nil_r.
Qed.

Lemma no_record_bind {A B} (m : M A) (k : A -> M B) :
  no_record m -> (forall a, no_record (k a)) -> no_record (m ≫= k).
Proof.
  intros Hm Hk w. unfold mbind, M_bind.
  destruct (Hm w) as (Hh & evs & Ht & Hs).
  destruct (m w) as [[a|e] w1]; simpl in *.
  - destruct (Hk a w1) as (Hh' & evs' & Ht' & Hs').
    split; [congruence|]. exists (evs ++ evs'). rewrite Ht', Ht, app_assoc.
    split; [done|]. by apply Forall_app.
  - split; [done|]. by exists evs.
Qed.

Lemma no_record_try {A} (m : M A) (h : exn -> M A) :
  no_record m -> (forall e, no_record (h e)) -> no_record (try_except m h).
Proof.
  intros Hm Hh w. unfold try_except.
  destruct (Hm w) as (Hhist & evs & Ht & Hs).
  destruct (m w) as [[a|e] w1]; simpl in *.
  - split; [done|]. by exists evs.
  - destruct (Hh e w1) as (Hh' & evs' & Ht' & Hs').
    split; [congruence|]. exists (evs ++ evs'). rewrite Ht', Ht, app_assoc.
    split; [done|]. by apply Forall_app.
Qed.

Create HintDb norec.
#[local] Hint Resolve no_record_ret no_record_lift no_record_on_fs : norec.
#[local] Hint Extern 1 (no_record (emit _)) => (apply no_record_emit; reflexivity) : norec.

(** Splits a block into its statements; the branches of a conditional
    are treated one by one. *)
Ltac norec :=
  repeat first
    [ progress eauto with norec
    | apply no_record_bind; [|intros ?]
    | apply no_record_try; [|intros ?]
    | match goal with
      | |- no_record (if ?b then _ else _) => destruct b
      | |- no_record (match ?x with _ => _ end) => destruct x
      end ].

Section Cycle.

Variables (base_url wallpaper_dir : string) (repr : json -> string).

Lemma no_record_http_get url o : no_record (http_get url o).
Proof. unfold http_get. norec. Qed.

Lemma no_record_download env image_url nasa_id :
  no_record (download_wallpaper wallpaper_dir env image_url nasa_id).
Proof. unfold download_wallpaper, download_body, http_get. norec. Qed.

Lemma no_record_search env : no_record (search_images base_url env).
Proof. unfold search_images, http_get. norec. Qed.

(** The shell call raises: the handler logs, and that is all. *)
Lemma set_wallpaper_failed env image_path w :
  sink_ok env = false ->
  set_wallpaper env image_path w =
    (Ret tt, World (fs w) (hist w)
               (trace w ++ [EvaluateScript image_path;
                            LogError "Failed to set wallpaper" DBusException])).
Proof.
  intros Hs. unfold set_wallpaper, try_except, mbind, M_bind, emit, lift. simpl.
  rewrite Hs. simpl. by rewrite <- app_assoc.
Qed.

Lemma no_record_set_wallpaper env image_path :
  sink_ok env = false -> no_record (set_wallpaper env image_path).
Proof.
  intros Hs w. rewrite set_wallpaper_failed by done. simpl.
  split; [done|]. eexists. split; [done|]. by repeat constructor.
Qed.

Lemma no_record_cycle env :
  sink_ok env = false ->
  no_record (fetch_and_set_wallpaper base_url wallpaper_dir repr env).
Proof.
  intros Hs. unfold fetch_and_set_wallpaper, fetch_body.
  pose proof (no_record_search env).
  pose proof (no_record_download).
  pose proof (no_record_set_wallpaper env).
  pose proof no_record_http_get.
  norec.
Qed.

End Cycle.

End CycleFacts.

Module CycleClaims.
Import KDE Spec CycleFacts.

(** C5. In a cycle in which the call to the plasma shell
    ([evaluateScript], the only way [set_wallpaper] applies an image)
    raises, [save_wallpaper_history] is not called and the history file
    is what it was before the cycle, so that reading it back yields the
    same sequence. *)
Theorem failed_apply_records_nothing (base_url wallpaper_dir : string)
  (repr : json -> string) (env : cycle_env) (w : world) :
  sink_ok env = false ->
  let w' := (fetch_and_set_wallpaper base_url wallpaper_dir repr env w).2 in
  hist w' = hist w
  /\ (forall io, load_history io (hist w') = load_history io (hist w))
  /\ exists evs, trace w' = trace w ++ evs /\ forall p, SaveHistory p ∉ evs.
Proof.
  intros Hs w'.
  destruct (no_record_cycle base_url wallpaper_dir repr env Hs w) as (Hh & evs & Ht & Hsave).
  fold w' in Hh, Ht.
  split; [done|]. split; [by intros io; rewrite Hh|].
  exists evs. split; [done|].
  intros p Hin. rewrite Forall_forall in Hsave. by apply Hsave in Hin.
Qed.

Lemma failed_apply_records_nothing_witness :
  sink_ok Sample.failing_sink = false /\
  let w' := (fetch_and_set_wallpaper "https://images-api.nasa.gov"
               "/home/u/Pictures/NASA-Wallpapers" (fun _ => "")
               Sample.failing_sink Sample.world0).2 in
  hist w' = hist Sample.world0
  /\ (forall io, load_history io (hist w') = load_history io (hist Sample.world0))
  /\ exists evs, trace w' = trace Sample.world0 ++ evs /\ forall p, SaveHistory p ∉ evs.
Proof.
  split; [reflexivity|].
  apply (failed_apply_records_nothing "https://images-api.nasa.gov"
           "/home/u/Pictures/NASA-Wallpapers" (fun _ => "")
           Sample.failing_sink Sample.world0).
  reflexivity.
Defined.

(** The sample cycle does reach the shell call: the image is downloaded
    and moved into place, the call raises, nothing is recorded. *)
Example failing_sink_trace :
  trace (fetch_and_set_wallpaper "https://images-api.nasa.gov"
           "/home/u/Pictures/NASA-Wallpapers" (fun _ => "")
           Sample.failing_sink Sample.world0).2 =
  [HttpGet "https://images-api.nasa.gov/search";
   HttpGet "https://images-api.nasa.gov/asset/PIA00001";
   MkTemp;
   HttpGet "http://images-assets.nasa.gov/image/PIA00001/PIA00001~large.JPG";
   WriteFile "/tmp/tmpk3v9x1";
   Move "/tmp/tmpk3v9x1"
        "/home/u/Pictures/NASA-Wallpapers/nasa_PIA00001_20240101_120000.jpg";
   Chmod "/home/u/Pictures/NASA-Wallpapers/nasa_PIA00001_20240101_120000.jpg";
   EvaluateScript "/home/u/Pictures/NASA-Wallpapers/nasa_PIA00001_20240101_120000.jpg";
   LogError "Failed to set wallpaper" DBusException].
Proof. vm_compute. reflexivity. Qed.

(** When the shell call returns, the history is saved next, and only
    then. *)
Lemma set_wallpaper_records_after_apply (env : cycle_env) (image_path : string) (w : world) :
  sink_ok env = true ->
  exists log,
    set_wallpaper env image_path w =
      (Ret tt,
       World (fs w)
             (save_wallpaper_history image_path (date env) (hio env) (hist w)).1
             (trace w ++ [EvaluateScript image_path;
                          LogInfo ("Successfully set wallpaper: " +:+ image_path);
                          SaveHistory image_path] ++ log)).
Proof.
  intros Hs.
  unfold set_wallpaper, try_except, record_history, on_hist, mbind, M_bind, emit, lift.
  simpl. rewrite Hs. simpl.
  destruct (save_wallpaper_history image_path (date env) (hio env) (hist w)) as [f' err].
  eexists. simpl. rewrite <- !app_assoc. simpl. reflexivity.
Qed.

End CycleClaims.

(** ** Choosing the asset to download *)

Module SelectFacts.
Import KDE Spec Str StrFacts.

(** The suffix test of the code is a test on the extension. *)
Lemma allowed_extension (href : string) : allowed href = extension_allowed href.
Proof.
  unfold allowed, extension_allowed, extension, endswith_any, image_suffixes, allow_list.
  simpl. rewrite !endswith_after_last by reflexivity.
  rewrite has_dot_lower, after_last_dot_lower.
  by destruct (has_char "." href).
Qed.

Lemma select_cons (h : string) (assets : list json) :
  select_image_url (JObj [("href", JStr h)] :: assets) =
    if allowed h then Ret (Some h) else select_image_url assets.
Proof. reflexivity. Qed.

(** On a manifest whose items all carry an [href] string, the loop
    finds the first allowed one and never raises. *)
Lemma select_is_find (hrefs : list string) :
  select_image_url (assets_of hrefs) = Ret (find allowed hrefs).
Proof.
  induction hrefs as [|h hrefs IH]; [done|].
  change (assets_of (h :: hrefs)) with (JObj [("href", JStr h)] :: assets_of hrefs).
  rewrite select_cons. simpl. by destruct (allowed h).
Qed.

Lemma find_first {A} (P : A -> bool) (l : list A) (x : A) :
  find P l = Some x <->
  exists pre post, l = pre ++ x :: post /\ P x = true /\ Forall (fun y => P y = false) pre.
Proof.
  induction l as [|a l IH]; simpl.
  - split; [done|]. intros (pre & post & H & _). by destruct pre.
  - destruct (P a) eqn:Ha.
    + split.
      * intros [= ->]. by exists [], l.
      * intros ([|b pre] & post & H & Hx & Hpre); simplify_eq/=; [done|].
        apply Forall_cons in Hpre as [Hb _]. congruence.
    + rewrite IH. split.
      * intros (pre & post & -> & Hx & Hpre). exists (a :: pre), post.
        split; [done|]. split; [done|]. by constructor.
      * intros ([|b pre] & post & H & Hx & Hpre); simplify_eq/=; [congruence|].
        apply Forall_cons in Hpre as [_ Hpre]. by exists pre, post.
Qed.

Lemma find_nothing {A} (P : A -> bool) (l : list A) :
  find P l = None <-> Forall (fun y => P y = false) l.
Proof.
  induction l as [|a l IH]; simpl; [by split|].
  destruct (P a) eqn:Ha.
  - split; [done|]. intros [Hb _]%Forall_cons. congruence.
  - rewrite IH. split; [by constructor|]. by intros [_ ?]%Forall_cons.
Qed.

(** [items[-1]] of a list. *)
Lemma seq_index_last {A} (l : list A) : seq_index l (-1) = last l.
Proof.
  unfold seq_index. rewrite last_lookup.
  destruct l as [|a l]; [done|].
  replace (-1 <? 0) with true by done.
  destruct (Z.leb_spec 0 (Z.of_nat (length (a :: l)) + -1)) as [_|Hneg];
    [|simpl length in Hneg; lia].
  destruct (Z.ltb_spec (Z.of_nat (length (a :: l)) + -1) (Z.of_nat (length (a :: l))))
    as [_|Hge]; [|lia].
  simpl andb. f_equal. simpl length. lia.
Qed.

Lemma last_assets_of (hrefs : list string) :
  last (assets_of hrefs) = (fun h => JObj [("href", JStr h)]) <$> last hrefs.
Proof. unfold assets_of. by rewrite fmap_last. Qed.

(** What [get_asset_url] makes of a manifest, in both scripts. *)
Lemma asset_found_last (hrefs : list string) (body : string) :
  asset_found (Response 200 body (Some (manifest_of hrefs))) =
    match last hrefs with
    | Some h => (Ret (JStr h), [])
    | None => (Ret JNull, [Print NoAssetFound])
    end.
Proof.
  unfold asset_found.
  change (data ← response_json (Response 200 body (Some (manifest_of hrefs)));
          collection_items data)
    with (Ret (JArr (assets_of hrefs))).
  destruct hrefs as [|h0 hrefs]; [done|].
  change (truthy (JArr (assets_of (h0 :: hrefs)))) with true. cbv iota.
  unfold last_href, getitem_int. rewrite seq_index_last, last_assets_of.
  destruct (last (h0 :: hrefs)) as [h|] eqn:Hl; [done|].
  by apply last_None in Hl.
Qed.

End SelectFacts.

(** ** The retry loop *)

Module RetryFacts.
Import Spec Plugin.

Lemma requests_app (ev ev' : list event) :
  requests (ev ++ ev') = (requests ev + requests ev')%nat.
Proof. unfold requests. by rewrite List.filter_app, length_app. Qed.

Section Loop.

Context {A : Type} (none : A).
Variable statement :
  nat -> gmap string string -> option (res A) * gmap string string * list event.

Lemma retry_loop_decided n attempt fs r fs' ev :
  statement attempt fs = (Some r, fs', ev) ->
  retry_loop none statement (S n) attempt fs = (r, fs', ev).
Proof. intros H. simpl. by rewrite H. Qed.

Lemma retry_loop_again n attempt fs fs' ev :
  statement attempt fs = (None, fs', ev) ->
  retry_loop none statement (S n) attempt fs =
    let '(r, fs'', ev') := retry_loop none statement n (S attempt) fs' in
    (r, fs'', ev ++ Sleep 1 :: ev').
Proof. intros H. simpl. by rewrite H. Qed.

(** [k] iterations that reach [attempt += 1] with one request each and
    the files untouched: the loop goes on from iteration [attempt + k],
    [k] requests later. *)
Lemma retry_loop_skip (k : nat) : forall n attempt fs,
  (forall i, (i < k)%nat ->
     exists ev, statement (attempt + i)%nat fs = (None, fs, ev) /\ requests ev = 1%nat) ->
  exists evk, requests evk = k /\
    retry_loop none statement (k + n) attempt fs =
      let '(r, fs', ev') := retry_loop none statement n (attempt + k)%nat fs in
      (r, fs', evk ++ ev').
Proof.
  induction k as [|k IH]; intros n attempt fs Hfail.
  - exists []. split; [done|]. rewrite Nat.add_0_r. simpl.
    by destruct (retry_loop none statement n attempt fs) as [[r fs'] ev'].
  - destruct (Hfail 0%nat) as (ev0 & H0 & Hreq0); [lia|].
    rewrite Nat.add_0_r in H0.
    destruct (IH n (S attempt) fs) as (evk & Hreq & Hloop).
    { intros i Hi. destruct (Hfail (S i)) as (ev & H & Hr); [lia|].
      exists ev. by replace (S attempt + i)%nat with (attempt + S i)%nat by lia. }
    exists (ev0 ++ Sleep 1 :: evk). split.
    + rewrite requests_app. change (Sleep 1 :: evk) with ([Sleep 1] ++ evk).
      rewrite requests_app, Hreq0, Hreq. done.
    + change (S k + n)%nat with (S (k + n)).
      rewrite (retry_loop_again _ _ _ _ _ H0), Hloop.
      replace (attempt + S k)%nat with (S attempt + k)%nat by lia.
      destruct (retry_loop none statement n (S attempt + k) fs) as [[r fs'] ev'].
      by rewrite <- app_assoc.
Qed.

(** [k] such iterations, then one that returns or raises. *)
Lemma retry_loop_then_decided (k n : nat) fs r fs' ev :
  (k < n)%nat ->
  (forall i, (i < k)%nat ->
     exists ev, statement i fs = (None, fs, ev) /\ requests ev = 1%nat) ->
  statement k fs = (Some r, fs', ev) ->
  exists evs, retry_loop none statement n 0 fs = (r, fs', evs) /\
              requests evs = (k + requests ev)%nat.
Proof.
  intros Hk Hfail Hlast.
  destruct (retry_loop_skip k (n - k) 0 fs Hfail) as (evk & Hreq & Hloop).
  replace (k + (n - k))%nat with n in Hloop by lia.
  change (0 + k)%nat with k in Hloop.
  destruct (n - k)%nat as [|m] eqn:Hm; [lia|].
  rewrite (retry_loop_decided m _ _ _ _ _ Hlast) in Hloop.
  exists (evk ++ ev). by rewrite requests_app, Hreq.
Qed.

(** Every iteration reaches [attempt += 1]: the function returns
    [None] after as many requests as there are iterations. *)
Lemma retry_loop_exhausted (n : nat) fs :
  (forall i, (i < n)%nat ->
     exists ev, statement i fs = (None, fs, ev) /\ requests ev = 1%nat) ->
  exists evs, retry_loop none statement n 0 fs = (Ret none, fs, evs) /\
              requests evs = n.
Proof.
  intros Hfail.
  destruct (retry_loop_skip n 0 0 fs Hfail) as (evk & Hreq & Hloop).
  rewrite Nat.add_0_r in Hloop. simpl in Hloop.
  exists evk. by rewrite Hloop, app_nil_r.
Qed.

(** An iteration that is run makes its request, whatever comes of it. *)
Lemma retry_loop_requests (n attempt : nat) fs :
  (forall i fs, 1 <= requests (statement i fs).2)%nat ->
  (1 <= requests (retry_loop none statement (S n) attempt fs).2)%nat.
Proof.
  intros Hreq. simpl. specialize (Hreq attempt fs).
  destruct (statement attempt fs) as [[[r|] fs'] ev]; simpl in *; [done|].
  destruct (retry_loop none statement n (S attempt) fs') as [[r fs''] ev'].
  simpl. rewrite requests_app. lia.
Qed.

End Loop.

End RetryFacts.

(** ** The three retrying stages *)

Module StageFacts.
Import Spec Plugin RetryFacts.

Lemma getitem_str_raises v k e : getitem_str v k = Raise e -> shape_error e = true.
Proof.
  destruct v; simpl; try by intros [= <-].
  destruct (lookup_key k kv); by intros [= <-].
Qed.

Lemma getitem_int_raises v i e : getitem_int v i = Raise e -> shape_error e = true.
Proof.
  destruct v; simpl; try by intros [= <-].
  - destruct (seq_index (string_chars s) i); by intros [= <-].
  - destruct (seq_index l i); by intros [= <-].
Qed.

Lemma bind_raises {A B} (m : res A) (k : A -> res B) e :
  m ≫= k = Raise e -> m = Raise e \/ exists a, m = Ret a /\ k a = Raise e.
Proof.
  destruct m as [a|e']; unfold mbind, res_bind; intros H; [right; eauto | left; congruence].
Qed.

Lemma collection_items_raises j e :
  collection_items j = Raise e -> shape_error e = true.
Proof.
  unfold collection_items.
  intros [H | (a & _ & H)]%bind_raises; by eapply getitem_str_raises.
Qed.

Lemma first_nasa_id_raises items e :
  first_nasa_id items = Raise e -> shape_error e = true.
Proof.
  unfold first_nasa_id.
  intros [H | (a & _ & [H | (b & _ & [H | (c & _ & H)]%bind_raises)]%bind_raises)]%bind_raises;
    eauto using getitem_str_raises, getitem_int_raises.
Qed.

Lemma last_href_raises items e :
  last_href items = Raise e -> shape_error e = true.
Proof.
  unfold last_href.
  intros [H | (a & _ & H)]%bind_raises;
    eauto using getitem_str_raises, getitem_int_raises.
Qed.

(** What the 200-branch of the search can raise: the decoding error of
    a body that is not JSON, or a shape error of a body that is. *)
Lemma search_found_raises r e printed :
  search_found r = (Raise e, printed) ->
  (parsed r = None /\ e = JSONDecodeError) \/ (is_Some (parsed r) /\ shape_error e = true).
Proof.
  unfold search_found, response_json.
  destruct (parsed r) as [j|]; simpl; [|intros [= <- _]; by left].
  intros H. right. split; [done|].
  destruct (collection_items j) as [items|e'] eqn:Hitems.
  - destruct (truthy items); [|done].
    injection H as H _. by eapply first_nasa_id_raises.
  - injection H as -> _. by eapply collection_items_raises.
Qed.

Lemma asset_found_raises r e printed :
  asset_found r = (Raise e, printed) ->
  (parsed r = None /\ e = JSONDecodeError) \/ (is_Some (parsed r) /\ shape_error e = true).
Proof.
  unfold asset_found, response_json.
  destruct (parsed r) as [j|]; simpl; [|intros [= <- _]; by left].
  intros H. right. split; [done|].
  destruct (collection_items j) as [items|e'] eqn:Hitems.
  - destruct (truthy items); [|done].
    injection H as H _. by eapply last_href_raises.
  - injection H as -> _. by eapply collection_items_raises.
Qed.

Lemma search_found_requests r : requests (search_found r).2 = 0%nat.
Proof.
  unfold search_found.
  destruct (data ← response_json r; collection_items data) as [items|e]; [|done].
  by destruct (truthy items).
Qed.

Lemma asset_found_requests r : requests (asset_found r).2 = 0%nat.
Proof.
  unfold asset_found.
  destruct (data ← response_json r; collection_items data) as [items|e]; [|done].
  by destruct (truthy items).
Qed.

Lemma download_found_requests w r save_path fs :
  requests (download_found w r save_path fs).2 = 0%nat.
Proof.
  unfold download_found. by destruct (write_file w save_path (content r) fs) as [[u|e] fs'].
Qed.

Section Stages.

(** [jx] is [json_error_is_request_exception]. *)
Variables (repr : json -> string) (jx : bool).

Lemma shape_error_not_caught e :
  shape_error e = true -> is_request_exception jx e = false.
Proof. by destruct e. Qed.

(** *** search *)

Lemma search_transient query retries net i fs :
  transient (net i) = true ->
  exists ev, search_statement jx query retries net i fs = (None, fs, ev) /\
             requests ev = 1%nat.
Proof.
  unfold search_statement, search_try, transient.
  destruct (net i) as [|r]; [by eexists|].
  intros Hs. destruct (status_code r =? 200); [done|]. by eexists.
Qed.

(** The iteration is answered with status 200: what the statement does
    is what the 200-branch does, except that a caught exception leads
    to [attempt += 1]. *)
Lemma search_answered query retries net i fs r :
  net i = Answer r -> status_code r = 200 ->
  exists ev, requests ev = 1%nat /\
    search_statement jx query retries net i fs =
      (match (search_found r).1 with
       | Ret v => Some (Ret v)
       | Raise e => if is_request_exception jx e
                    then None else Some (Raise e)
       end, fs, ev).
Proof.
  intros Hnet Hs. unfold search_statement, search_try. rewrite Hnet, Hs. simpl.
  pose proof (search_found_requests r) as Hreq.
  destruct (search_found r) as [[v|e] printed]; simpl in *.
  - eexists. split; [|done]. unfold requests in *. simpl. by rewrite Hreq.
  - destruct (is_request_exception _ e); (eexists; split; [|done]).
    + change (?a :: ?b :: printed ++ ?c) with ([a; b] ++ printed ++ c).
      rewrite !requests_app, Hreq. done.
    + unfold requests in *. simpl. by rewrite Hreq.
Qed.

Lemma search_requests query retries net i fs :
  (1 <= requests (search_statement jx query retries net i fs).2)%nat.
Proof.
  destruct (net i) as [|r] eqn:Hnet.
  - destruct (search_transient query retries net i fs) as (ev & Heq & Hreq);
      [by rewrite Hnet|].
    rewrite Heq. simpl. lia.
  - destruct (Z.eq_dec (status_code r) 200) as [Hs|Hs].
    + destruct (search_answered query retries net i fs r Hnet Hs) as (ev & Hreq & Heq).
      rewrite Heq. simpl. lia.
    + destruct (search_transient query retries net i fs) as (ev & Heq & Hreq).
      { rewrite Hnet. simpl. by apply negb_true_iff, Z.eqb_neq. }
      rewrite Heq. simpl. lia.
Qed.

Lemma search_again query retries net i fs :
  again jx (net i) = true ->
  exists ev, search_statement jx query retries net i fs = (None, fs, ev) /\
             requests ev = 1%nat.
Proof.
  unfold again. intros [Ht | [Hjx Hm]%andb_true_iff]%orb_true_iff.
  - by apply search_transient.
  - unfold malformed in Hm. destruct (net i) as [|r] eqn:Hnet; [done|].
    apply andb_true_iff in Hm as [Hs%Z.eqb_eq Hp%negb_true_iff].
    destruct (search_answered query retries net i fs r Hnet Hs) as (ev & Hreq & Heq).
    exists ev. split; [|done]. rewrite Heq.
    unfold search_found, response_json.
    destruct (parsed r) as [j|]; [by rewrite bool_decide_eq_true_2 in Hp|].
    simpl. by rewrite Hjx.
Qed.

(** K transient failures, then an answer with status 200. *)
Lemma search_after_failures query retries net (k : nat) r :
  Z.of_nat k < retries ->
  (forall i, (i < k)%nat -> transient (net i) = true) ->
  net k = Answer r -> status_code r = 200 ->
  is_Some (match (search_found r).1 with
           | Ret v => Some (Ret v)
           | Raise e => if is_request_exception jx e then None else Some (Raise e)
           end) ->
  exists ev,
    search_nasa_images jx query retries net =
      (match (search_found r).1 with
       | Ret v => Ret v
       | Raise e => Raise e
       end, ev) /\
    requests ev = S k.
Proof.
  intros Hk Hfail Hnet Hs Hdec. unfold search_nasa_images.
  destruct (search_answered query retries net k ∅ r Hnet Hs) as (ev & Hreq & Heq).
  destruct Hdec as [d Hd]. rewrite Hd in Heq.
  destruct (retry_loop_then_decided JNull (search_statement jx query retries net)
              k (Z.to_nat retries) ∅ d ∅ ev) as (evs & Hloop & Hreqs);
    [lia | by intros i Hi; apply search_transient, Hfail | done |].
  rewrite Hloop. exists evs. split; [|lia].
  destruct (search_found r).1 as [v|e]; [by injection Hd as <-|].
  destruct (is_request_exception jx e); [done|]. by injection Hd as <-.
Qed.

(** Every iteration reaches [attempt += 1]. *)
Lemma search_exhausted query retries net :
  (forall i, Z.of_nat i < retries -> again jx (net i) = true) ->
  exists ev, search_nasa_images jx query retries net = (Ret JNull, ev) /\
             requests ev = Z.to_nat retries.
Proof.
  intros Hfail. unfold search_nasa_images.
  destruct (retry_loop_exhausted JNull (search_statement jx query retries net)
              (Z.to_nat retries) ∅) as (evs & Hloop & Hreqs).
  { intros i Hi. apply search_again, Hfail. lia. }
  rewrite Hloop. by exists evs.
Qed.

(** K + 1 iterations reach [attempt += 1] and the budget is not spent:
    one more request is made. *)
Lemma search_retried query retries net (k : nat) :
  Z.of_nat k + 1 < retries ->
  (forall i, (i <= k)%nat -> again jx (net i) = true) ->
  (k + 2 <= requests (search_nasa_images jx query retries net).2)%nat.
Proof.
  intros Hk Hfail. unfold search_nasa_images.
  destruct (retry_loop_skip JNull (search_statement jx query retries net)
              (S k) (Z.to_nat retries - S k) 0 ∅) as (evk & Hreq & Hloop).
  { intros i Hi. apply search_again, Hfail. lia. }
  replace (S k + (Z.to_nat retries - S k))%nat with (Z.to_nat retries) in Hloop by lia.
  rewrite Hloop.
  destruct (Z.to_nat retries - S k)%nat as [|m] eqn:Hm; [lia|].
  pose proof (retry_loop_requests JNull (search_statement jx query retries net) m
                (0 + S k) ∅ (search_requests query retries net)) as Hone.
  destruct (retry_loop JNull (search_statement jx query retries net) (S m) (0 + S k) ∅)
    as [[r fs'] ev']. simpl in *. rewrite requests_app. lia.
Qed.

(** *** resolve *)

Lemma asset_transient nasa_id retries net i fs :
  transient (net i) = true ->
  exists ev, asset_statement repr jx nasa_id retries net i fs = (None, fs, ev) /\
             requests ev = 1%nat.
Proof.
  unfold asset_statement, asset_try, transient.
  destruct (net i) as [|r]; [by eexists|].
  intros Hs. destruct (status_code r =? 200); [done|]. by eexists.
Qed.

(** The iteration is answered with status 200: what the statement does
    is what the 200-branch does, except that a caught exception leads
    to [attempt += 1]. *)
Lemma asset_answered nasa_id retries net i fs r :
  net i = Answer r -> status_code r = 200 ->
  exists ev, requests ev = 1%nat /\
    asset_statement repr jx nasa_id retries net i fs =
      (match (asset_found r).1 with
       | Ret v => Some (Ret v)
       | Raise e => if is_request_exception jx e
                    then None else Some (Raise e)
       end, fs, ev).
Proof.
  intros Hnet Hs. unfold asset_statement, asset_try. rewrite Hnet, Hs. simpl.
  pose proof (asset_found_requests r) as Hreq.
  destruct (asset_found r) as [[v|e] printed]; simpl in *.
  - eexists. split; [|done]. unfold requests in *. simpl. by rewrite Hreq.
  - destruct (is_request_exception _ e); (eexists; split; [|done]).
    + change (?a :: ?b :: printed ++ ?c) with ([a; b] ++ printed ++ c).
      rewrite !requests_app, Hreq. done.
    + unfold requests in *. simpl. by rewrite Hreq.
Qed.

Lemma asset_requests nasa_id retries net i fs :
  (1 <= requests (asset_statement repr jx nasa_id retries net i fs).2)%nat.
Proof.
  destruct (net i) as [|r] eqn:Hnet.
  - destruct (asset_transient nasa_id retries net i fs) as (ev & Heq & Hreq);
      [by rewrite Hnet|].
    rewrite Heq. simpl. lia.
  - destruct (Z.eq_dec (status_code r) 200) as [Hs|Hs].
    + destruct (asset_answered nasa_id retries net i fs r Hnet Hs) as (ev & Hreq & Heq).
      rewrite Heq. simpl. lia.
    + destruct (asset_transient nasa_id retries net i fs) as (ev & Heq & Hreq).
      { rewrite Hnet. simpl. by apply negb_true_iff, Z.eqb_neq. }
      rewrite Heq. simpl. lia.
Qed.

Lemma asset_again nasa_id retries net i fs :
  again jx (net i) = true ->
  exists ev, asset_statement repr jx nasa_id retries net i fs = (None, fs, ev) /\
             requests ev = 1%nat.
Proof.
  unfold again. intros [Ht | [Hjx Hm]%andb_true_iff]%orb_true_iff.
  - by apply asset_transient.
  - unfold malformed in Hm. destruct (net i) as [|r] eqn:Hnet; [done|].
    apply andb_true_iff in Hm as [Hs%Z.eqb_eq Hp%negb_true_iff].
    destruct (asset_answered nasa_id retries net i fs r Hnet Hs) as (ev & Hreq & Heq).
    exists ev. split; [|done]. rewrite Heq.
    unfold asset_found, response_json.
    destruct (parsed r) as [j|]; [by rewrite bool_decide_eq_true_2 in Hp|].
    simpl. by rewrite Hjx.
Qed.

(** K transient failures, then an answer with status 200. *)
Lemma asset_after_failures nasa_id retries net (k : nat) r :
  Z.of_nat k < retries ->
  (forall i, (i < k)%nat -> transient (net i) = true) ->
  net k = Answer r -> status_code r = 200 ->
  is_Some (match (asset_found r).1 with
           | Ret v => Some (Ret v)
           | Raise e => if is_request_exception jx e then None else Some (Raise e)
           end) ->
  exists ev,
    get_asset_url repr jx nasa_id retries net =
      (match (asset_found r).1 with
       | Ret v => Ret v
       | Raise e => Raise e
       end, ev) /\
    requests ev = S k.
Proof.
  intros Hk Hfail Hnet Hs Hdec. unfold get_asset_url.
  destruct (asset_answered nasa_id retries net k ∅ r Hnet Hs) as (ev & Hreq & Heq).
  destruct Hdec as [d Hd]. rewrite Hd in Heq.
  destruct (retry_loop_then_decided JNull (asset_statement repr jx nasa_id retries net)
              k (Z.to_nat retries) ∅ d ∅ ev) as (evs & Hloop & Hreqs);
    [lia | by intros i Hi; apply asset_transient, Hfail | done |].
  rewrite Hloop. exists evs. split; [|lia].
  destruct (asset_found r).1 as [v|e]; [by injection Hd as <-|].
  destruct (is_request_exception jx e); [done|]. by injection Hd as <-.
Qed.

(** Every iteration reaches [attempt += 1]. *)
Lemma asset_exhausted nasa_id retries net :
  (forall i, Z.of_nat i < retries -> again jx (net i) = true) ->
  exists ev, get_asset_url repr jx nasa_id retries net = (Ret JNull, ev) /\
             requests ev = Z.to_nat retries.
Proof.
  intros Hfail. unfold get_asset_url.
  destruct (retry_loop_exhausted JNull (asset_statement repr jx nasa_id retries net)
              (Z.to_nat retries) ∅) as (evs & Hloop & Hreqs).
  { intros i Hi. apply asset_again, Hfail. lia. }
  rewrite Hloop. by exists evs.
Qed.

(** K + 1 iterations reach [attempt += 1] and the budget is not spent:
    one more request is made. *)
Lemma asset_retried nasa_id retries net (k : nat) :
  Z.of_nat k + 1 < retries ->
  (forall i, (i <= k)%nat -> again jx (net i) = true) ->
  (k + 2 <= requests (get_asset_url repr jx nasa_id retries net).2)%nat.
Proof.
  intros Hk Hfail. unfold get_asset_url.
  destruct (retry_loop_skip JNull (asset_statement repr jx nasa_id retries net)
              (S k) (Z.to_nat retries - S k) 0 ∅) as (evk & Hreq & Hloop).
  { intros i Hi. apply asset_again, Hfail. lia. }
  replace (S k + (Z.to_nat retries - S k))%nat with (Z.to_nat retries) in Hloop by lia.
  rewrite Hloop.
  destruct (Z.to_nat retries - S k)%nat as [|m] eqn:Hm; [lia|].
  pose proof (retry_loop_requests JNull (asset_statement repr jx nasa_id retries net) m
                (0 + S k) ∅ (asset_requests nasa_id retries net)) as Hone.
  destruct (retry_loop JNull (asset_statement repr jx nasa_id retries net) (S m) (0 + S k) ∅)
    as [[r fs'] ev']. simpl in *. rewrite requests_app. lia.
Qed.

(** *** download *)

Lemma write_file_raises w path data fs e :
  (write_file w path data fs).1 = Raise e -> e = OSError.
Proof. destruct w; simpl; congruence. Qed.

Lemma download_transient image_url save_path retries net disk i fs :
  transient (net i) = true ->
  exists ev,
    download_statement jx image_url save_path retries net disk i fs = (None, fs, ev) /\
    requests ev = 1%nat.
Proof.
  unfold download_statement, download_try, transient.
  destruct (net i) as [|r]; [by eexists|].
  intros Hs. destruct (status_code r =? 200); [done|]. by eexists.
Qed.

(** An iteration answered with status 200 ends the function: it returns
    when the body is written, and the [OSError] of a failed write is not
    caught. *)
Lemma download_answered image_url save_path retries net disk i fs r :
  net i = Answer r -> status_code r = 200 ->
  exists ev, requests ev = 1%nat /\
    download_statement jx image_url save_path retries net disk i fs =
      (Some (write_file (disk i) save_path (content r) fs).1,
       (write_file (disk i) save_path (content r) fs).2, ev).
Proof.
  intros Hnet Hs. unfold download_statement, download_try, download_found.
  rewrite Hnet, Hs. simpl.
  pose proof (write_file_raises (disk i) save_path (content r) fs) as He.
  destruct (write_file (disk i) save_path (content r) fs) as [[[]|e] fs']; simpl in *.
  - eexists. split; [|reflexivity]. reflexivity.
  - rewrite (He e eq_refl). simpl. eexists. split; [|reflexivity]. reflexivity.
Qed.

Lemma download_requests image_url save_path retries net disk i fs :
  (1 <= requests (download_statement jx image_url save_path retries net disk i fs).2)%nat.
Proof.
  destruct (net i) as [|r] eqn:Hnet.
  - destruct (download_transient image_url save_path retries net disk i fs)
      as (ev & Heq & Hreq); [by rewrite Hnet|].
    rewrite Heq. simpl. lia.
  - destruct (Z.eq_dec (status_code r) 200) as [Hs|Hs].
    + destruct (download_answered image_url save_path retries net disk i fs r Hnet Hs)
        as (ev & Hreq & Heq).
      rewrite Heq. simpl. lia.
    + destruct (download_transient image_url save_path retries net disk i fs)
        as (ev & Heq & Hreq).
      { rewrite Hnet. simpl. by apply negb_true_iff, Z.eqb_neq. }
      rewrite Heq. simpl. lia.
Qed.

Lemma download_after_failures image_url save_path retries net disk fs (k : nat) r :
  Z.of_nat k < retries ->
  (forall i, (i < k)%nat -> transient (net i) = true) ->
  net k = Answer r -> status_code r = 200 ->
  exists ev,
    download_image jx image_url save_path retries net disk fs =
      ((write_file (disk k) save_path (content r) fs).1,
       (write_file (disk k) save_path (content r) fs).2, ev) /\
    requests ev = S k.
Proof.
  intros Hk Hfail Hnet Hs. unfold download_image.
  destruct (download_answered image_url save_path retries net disk k fs r Hnet Hs)
    as (ev & Hreq & Heq).
  destruct (retry_loop_then_decided tt
              (download_statement jx image_url save_path retries net disk)
              k (Z.to_nat retries) fs
              (write_file (disk k) save_path (content r) fs).1
              (write_file (disk k) save_path (content r) fs).2 ev)
    as (evs & Hloop & Hreqs);
    [lia | by intros i Hi; apply download_transient, Hfail | exact Heq |].
  rewrite Hloop. exists evs. split; [done|lia].
Qed.

Lemma download_exhausted image_url save_path retries net disk fs :
  (forall i, Z.of_nat i < retries -> transient (net i) = true) ->
  exists ev,
    download_image jx image_url save_path retries net disk fs = (Ret tt, fs, ev) /\
    requests ev = Z.to_nat retries.
Proof.
  intros Hfail. unfold download_image.
  destruct (retry_loop_exhausted tt
              (download_statement jx image_url save_path retries net disk)
              (Z.to_nat retries) fs) as (evs & Hloop & Hreqs).
  { intros i Hi. apply download_transient, Hfail. lia. }
  rewrite Hloop. by exists evs.
Qed.

Lemma download_retried image_url save_path retries net disk fs (k : nat) :
  Z.of_nat k + 1 < retries ->
  (forall i, (i <= k)%nat -> transient (net i) = true) ->
  (k + 2 <= requests (download_image jx image_url save_path retries net disk fs).2)%nat.
Proof.
  intros Hk Hfail. unfold download_image.
  destruct (retry_loop_skip tt (download_statement jx image_url save_path retries net disk)
              (S k) (Z.to_nat retries - S k) 0 fs) as (evk & Hreq & Hloop).
  { intros i Hi. apply download_transient, Hfail. lia. }
  replace (S k + (Z.to_nat retries - S k))%nat with (Z.to_nat retries) in Hloop by lia.
  rewrite Hloop.
  destruct (Z.to_nat retries - S k)%nat as [|m] eqn:Hm; [lia|].
  pose proof (retry_loop_requests tt
                (download_statement jx image_url save_path retries net disk) m
                (0 + S k) fs (download_requests image_url save_path retries net disk))
    as Hone.
  destruct (retry_loop tt (download_statement jx image_url save_path retries net disk)
              (S m) (0 + S k) fs) as [[r fs'] ev']. simpl in *.
  rewrite requests_app. lia.
Qed.

(** *** An iteration is reached after any iterations that went on *)

(** K iterations that reach [attempt += 1], for whatever reason, then
    an answer with status 200. *)
Lemma search_after_again query retries net (k : nat) r :
  Z.of_nat k < retries ->
  (forall i, (i < k)%nat -> again jx (net i) = true) ->
  net k = Answer r -> status_code r = 200 ->
  is_Some (match (search_found r).1 with
           | Ret v => Some (Ret v)
           | Raise e => if is_request_exception jx e then None else Some (Raise e)
           end) ->
  exists ev,
    search_nasa_images jx query retries net =
      (match (search_found r).1 with
       | Ret v => Ret v
       | Raise e => Raise e
       end, ev) /\
    requests ev = S k.
Proof.
  intros Hk Hfail Hnet Hs Hdec. unfold search_nasa_images.
  destruct (search_answered query retries net k ∅ r Hnet Hs) as (ev & Hreq & Heq).
  destruct Hdec as [d Hd]. rewrite Hd in Heq.
  destruct (retry_loop_then_decided JNull (search_statement jx query retries net)
              k (Z.to_nat retries) ∅ d ∅ ev) as (evs & Hloop & Hreqs);
    [lia | by intros i Hi; apply search_again, Hfail | done |].
  rewrite Hloop. exists evs. split; [|lia].
  destruct (search_found r).1 as [v|e]; [by injection Hd as <-|].
  destruct (is_request_exception jx e); [done|]. by injection Hd as <-.
Qed.

Lemma asset_after_again nasa_id retries net (k : nat) r :
  Z.of_nat k < retries ->
  (forall i, (i < k)%nat -> again jx (net i) = true) ->
  net k = Answer r -> status_code r = 200 ->
  is_Some (match (asset_found r).1 with
           | Ret v => Some (Ret v)
           | Raise e => if is_request_exception jx e then None else Some (Raise e)
           end) ->
  exists ev,
    get_asset_url repr jx nasa_id retries net =
      (match (asset_found r).1 with
       | Ret v => Ret v
       | Raise e => Raise e
       end, ev) /\
    requests ev = S k.
Proof.
  intros Hk Hfail Hnet Hs Hdec. unfold get_asset_url.
  destruct (asset_answered nasa_id retries net k ∅ r Hnet Hs) as (ev & Hreq & Heq).
  destruct Hdec as [d Hd]. rewrite Hd in Heq.
  destruct (retry_loop_then_decided JNull (asset_statement repr jx nasa_id retries net)
              k (Z.to_nat retries) ∅ d ∅ ev) as (evs & Hloop & Hreqs);
    [lia | by intros i Hi; apply asset_again, Hfail | done |].
  rewrite Hloop. exists evs. split; [|lia].
  destruct (asset_found r).1 as [v|e]; [by injection Hd as <-|].
  destruct (is_request_exception jx e); [done|]. by injection Hd as <-.
Qed.

(** An iteration that does not go on is answered with status 200, and
    what its 200-branch raises, if anything, is not caught. *)
Lemma not_again_answered o :
  again jx o = false ->
  exists r, o = Answer r /\ status_code r = 200 /\
            (parsed r = None -> jx = false).
Proof.
  unfold again, transient, malformed.
  destruct o as [|r]; [done|].
  intros [Hs Hm]%orb_false_iff. apply negb_false_iff, Z.eqb_eq in Hs.
  exists r. split; [done|]. split; [done|]. intros Hp.
  rewrite Hp, (proj2 (Z.eqb_eq _ _) Hs) in Hm.
  destruct jx; [|done]. cbv in Hm. discriminate.
Qed.

Lemma search_found_decides r :
  (parsed r = None -> jx = false) ->
  is_Some (match (search_found r).1 with
           | Ret v => Some (Ret v)
           | Raise e => if is_request_exception jx e then None else Some (Raise e)
           end).
Proof.
  intros Hp. destruct (search_found r) as [[v|e] printed] eqn:Hf; simpl; [done|].
  destruct (search_found_raises r e printed Hf) as [[Hnone ->] | [_ He]].
  - simpl. by rewrite (Hp Hnone).
  - by rewrite (shape_error_not_caught e He).
Qed.

Lemma asset_found_decides r :
  (parsed r = None -> jx = false) ->
  is_Some (match (asset_found r).1 with
           | Ret v => Some (Ret v)
           | Raise e => if is_request_exception jx e then None else Some (Raise e)
           end).
Proof.
  intros Hp. destruct (asset_found r) as [[v|e] printed] eqn:Hf; simpl; [done|].
  destruct (asset_found_raises r e printed Hf) as [[Hnone ->] | [_ He]].
  - simpl. by rewrite (Hp Hnone).
  - by rewrite (shape_error_not_caught e He).
Qed.

(** K iterations that go on, then one that does not: the function ends
    there, after K + 1 requests. *)
Lemma search_stops query retries net (k : nat) :
  Z.of_nat k < retries ->
  (forall i, (i < k)%nat -> again jx (net i) = true) ->
  again jx (net k) = false ->
  requests (search_nasa_images jx query retries net).2 = S k.
Proof.
  intros Hk Hfail (r & Hnet & Hs & Hp)%not_again_answered.
  destruct (search_after_again query retries net k r Hk Hfail Hnet Hs
              (search_found_decides r Hp)) as (ev & -> & Hreq).
  done.
Qed.

Lemma asset_stops nasa_id retries net (k : nat) :
  Z.of_nat k < retries ->
  (forall i, (i < k)%nat -> again jx (net i) = true) ->
  again jx (net k) = false ->
  requests (get_asset_url repr jx nasa_id retries net).2 = S k.
Proof.
  intros Hk Hfail (r & Hnet & Hs & Hp)%not_again_answered.
  destruct (asset_after_again nasa_id retries net k r Hk Hfail Hnet Hs
              (asset_found_decides r Hp)) as (ev & -> & Hreq).
  done.
Qed.

End Stages.

End StageFacts.

Module RetryClaims.
Import Spec Plugin RetryFacts StageFacts.

(** C3, as stated, fails on its second half.  With [retries = 3] and a
    network that fails for good, [download_image] makes three requests,
    not four, and then returns [None], the very value it returns when
    the download works: no error reaches the caller.  [search_nasa_images]
    returns the [None] that it also returns for a search without items. *)
Lemma exhausted_retries_surface_nothing :
  (download_image true "http://images-assets.nasa.gov/image/PIA00001/PIA00001~orig.jpg"
     SAVE_PATH 3 Sample.always_down Sample.disk_ok ∅).1.1 = Ret tt
  /\ (download_image true "http://images-assets.nasa.gov/image/PIA00001/PIA00001~orig.jpg"
        SAVE_PATH 3 Sample.image_up Sample.disk_ok ∅).1.1 = Ret tt
  /\ requests
       (download_image true "http://images-assets.nasa.gov/image/PIA00001/PIA00001~orig.jpg"
          SAVE_PATH 3 Sample.always_down Sample.disk_ok ∅).2 = 3%nat
  /\ (search_nasa_images true "Mars" 3 Sample.always_down).1 = Ret JNull
  /\ (search_nasa_images true "Mars" 3 (fun _ => ok Sample.empty_doc)).1 = Ret JNull
  /\ requests (search_nasa_images true "Mars" 3 Sample.always_down).2 = 3%nat.
Proof. repeat split. Qed.

(** C3, amended.  For the three retrying functions: after K < retries
    transient failures (the request raises, or the status is not 200)
    followed by an attempt answered with status 200, the function
    returns what that attempt yields, after K + 1 requests.  When every
    attempt fails transiently, the function makes [retries] requests and
    no more, and returns [None]. *)
Theorem retry_policy (repr : json -> string) (jx : bool) (query : string) (nasa_id : json)
  (image_url save_path : string) (retries : Z) (net : nat -> http_outcome)
  (disk : nat -> fwrite) (fs : gmap string string) (k : nat) (r : response) :
  (Z.of_nat k < retries ->
   (forall i, (i < k)%nat -> transient (net i) = true) ->
   net k = Answer r -> status_code r = 200 ->
   (forall v, (search_found r).1 = Ret v ->
      exists ev, search_nasa_images jx query retries net = (Ret v, ev) /\
                 requests ev = S k)
   /\ (forall v, (asset_found r).1 = Ret v ->
      exists ev, get_asset_url repr jx nasa_id retries net = (Ret v, ev) /\
                 requests ev = S k)
   /\ (disk k = FwOk ->
      exists ev, download_image jx image_url save_path retries net disk fs =
                   (Ret tt, <[save_path := content r]> fs, ev) /\
                 requests ev = S k))
  /\
  ((forall i, Z.of_nat i < retries -> transient (net i) = true) ->
   (exists ev, search_nasa_images jx query retries net = (Ret JNull, ev) /\
               requests ev = Z.to_nat retries)
   /\ (exists ev, get_asset_url repr jx nasa_id retries net = (Ret JNull, ev) /\
                  requests ev = Z.to_nat retries)
   /\ (exists ev, download_image jx image_url save_path retries net disk fs =
                    (Ret tt, fs, ev) /\
                  requests ev = Z.to_nat retries)).
Proof.
  split.
  - intros Hk Hfail Hnet Hs. repeat split.
    + intros v Hv.
      destruct (search_after_failures jx query retries net k r Hk Hfail Hnet Hs)
        as (ev & Heq & Hreq); [by rewrite Hv|].
      rewrite Hv in Heq. by exists ev.
    + intros v Hv.
      destruct (asset_after_failures repr jx nasa_id retries net k r Hk Hfail Hnet Hs)
        as (ev & Heq & Hreq); [by rewrite Hv|].
      rewrite Hv in Heq. by exists ev.
    + intros Hdisk.
      destruct (download_after_failures jx image_url save_path retries net disk fs
                  k r Hk Hfail Hnet Hs) as (ev & Heq & Hreq).
      rewrite Hdisk in Heq. by exists ev.
  - intros Hfail.
    assert (forall i, Z.of_nat i < retries -> again jx (net i) = true) as Hagain.
    { intros i Hi. unfold again. by rewrite Hfail. }
    repeat split.
    + by apply search_exhausted.
    + by apply asset_exhausted.
    + by apply download_exhausted.
Qed.

Lemma retry_policy_witness :
  let r := Response 200 "" (Some Sample.search_doc) in
  ((forall v, (search_found r).1 = Ret v ->
      exists ev, search_nasa_images true "Mars" 3 (Sample.up_at_2 Sample.search_doc) =
                   (Ret v, ev) /\ requests ev = 3%nat)
   /\ (forall v, (asset_found r).1 = Ret v ->
      exists ev, get_asset_url (fun _ => "") true (JStr "PIA00001") 3
                   (Sample.up_at_2 Sample.search_doc) = (Ret v, ev) /\
                 requests ev = 3%nat)
   /\ (Sample.disk_ok 2%nat = FwOk ->
      exists ev, download_image true "http://h/a.jpg" SAVE_PATH 3
                   (Sample.up_at_2 Sample.search_doc) Sample.disk_ok ∅ =
                   (Ret tt, <[SAVE_PATH := content r]> ∅, ev) /\
                 requests ev = 3%nat))
  /\
  ((exists ev, search_nasa_images true "Mars" 3 Sample.always_down = (Ret JNull, ev) /\
               requests ev = Z.to_nat 3)
   /\ (exists ev, get_asset_url (fun _ => "") true (JStr "PIA00001") 3 Sample.always_down =
                    (Ret JNull, ev) /\
                  requests ev = Z.to_nat 3)
   /\ (exists ev, download_image true "http://h/a.jpg" SAVE_PATH 3
                    Sample.always_down Sample.disk_ok ∅ = (Ret tt, ∅, ev) /\
                  requests ev = Z.to_nat 3)).
Proof.
  intros r. split.
  - apply (proj1 (retry_policy (fun _ => "") true "Mars" (JStr "PIA00001") "http://h/a.jpg"
                    SAVE_PATH 3 (Sample.up_at_2 Sample.search_doc) Sample.disk_ok ∅ 2 r)).
    + lia.
    + intros [|[|i]] Hi; [reflexivity | reflexivity | lia].
    + reflexivity.
    + reflexivity.
  - apply (proj2 (retry_policy (fun _ => "") true "Mars" (JStr "PIA00001") "http://h/a.jpg"
                    SAVE_PATH 3 Sample.always_down Sample.disk_ok ∅ 0 r)).
    intros i Hi. reflexivity.
Defined.




End RetryClaims.

(** ** Search results and asset selection *)

Module CatalogClaims.
Import Spec RetryFacts StageFacts SelectFacts.

(** C9, as stated, fails: the search functions of the two scripts
    return [None] for a search without items, and [None] again when the
    server answers 503 or the retries are used up.  The return value
    does not tell an empty result from a failure. *)
Lemma empty_result_looks_like_failure :
  (Updater.search_nasa_images "Mars" (ok Sample.empty_doc)).1 = Ret JNull
  /\ (Updater.search_nasa_images "Mars" (Answer (Response 503 "" None))).1 = Ret JNull
  /\ (Plugin.search_nasa_images true "Mars" 3 (fun _ => ok Sample.empty_doc)).1 = Ret JNull
  /\ (Plugin.search_nasa_images true "Mars" 3 Sample.always_down).1 = Ret JNull.
Proof. repeat split. Qed.

(** C9, amended.  A search answered with status 200 and a document
    whose item list is empty is not an exception and is not retried:
    the two search functions print "No items found for the query." and
    return [None] after that one request.  [None] is also what they
    return on failure, where the line printed is another one.
    [KDENASAWallpaper.search_images] returns the document itself, which
    is not the [None] it returns on failure. *)
Theorem empty_search_returns_none (jx : bool) (query base_url body : string)
  (retries : Z) (net : nat -> http_outcome) (j : json)
  (env : KDE.cycle_env) (w : KDE.world) :
  collection_items j = Ret (JArr []) ->
  Updater.search_nasa_images query (Answer (Response 200 body (Some j))) =
    (Ret JNull, [Request NASA_SEARCH_ENDPOINT (search_params query); Print NoItemsFound])
  /\ (0 < retries -> net 0%nat = Answer (Response 200 body (Some j)) ->
      Plugin.search_nasa_images jx query retries net =
        (Ret JNull, [Request NASA_SEARCH_ENDPOINT (search_params query);
                     Print RequestURL; Print NoItemsFound]))
  /\ (KDE.search_http env = Answer (Response 200 body (Some j)) ->
      (KDE.search_images base_url env w).1 = Ret j /\ j <> JNull)
  /\ (forall r, status_code r <> 200 ->
      Updater.search_nasa_images query (Answer r) =
        (Ret JNull, [Request NASA_SEARCH_ENDPOINT (search_params query);
                     Print (FailedToSearch (status_code r))])).
Proof.
  intros Hitems.
  assert (search_found (Response 200 body (Some j)) = (Ret JNull, [Print NoItemsFound]))
    as Hfound.
  { unfold search_found, response_json. simpl. by rewrite Hitems. }
  split; [|split; [|split]].
  - unfold Updater.search_nasa_images. simpl. by rewrite Hfound.
  - intros Hr Hnet. unfold Plugin.search_nasa_images.
    destruct (Z.to_nat retries) as [|n] eqn:Hn; [lia|].
    rewrite (retry_loop_decided JNull _ n 0 ∅ (Ret JNull) ∅
               [Request NASA_SEARCH_ENDPOINT (search_params query);
                Print RequestURL; Print NoItemsFound]); [done|].
    unfold Plugin.search_statement, Plugin.search_try. rewrite Hnet. simpl.
    by rewrite Hfound.
  - intros Hnet. split; [|by intros ->].
    unfold KDE.search_images, KDE.try_except, KDE.http_get, KDE.emit, KDE.lift.
    unfold mbind, KDE.M_bind. simpl. by rewrite Hnet.
  - intros r Hs. unfold Updater.search_nasa_images.
    by rewrite (proj2 (Z.eqb_neq _ _) Hs).
Qed.

Lemma empty_search_returns_none_witness :
  collection_items Sample.empty_doc = Ret (JArr []) /\
  Updater.search_nasa_images "Mars" (Answer (Response 200 "" (Some Sample.empty_doc))) =
    (Ret JNull, [Request NASA_SEARCH_ENDPOINT (search_params "Mars"); Print NoItemsFound])
  /\ (0 < 3 ->
      (fun _ : nat => ok Sample.empty_doc) 0%nat =
        Answer (Response 200 "" (Some Sample.empty_doc)) ->
      Plugin.search_nasa_images true "Mars" 3 (fun _ => ok Sample.empty_doc) =
        (Ret JNull, [Request NASA_SEARCH_ENDPOINT (search_params "Mars");
                     Print RequestURL; Print NoItemsFound]))
  /\ (KDE.search_http Sample.failing_sink =
        Answer (Response 200 "" (Some Sample.empty_doc)) ->
      (KDE.search_images "https://images-api.nasa.gov" Sample.failing_sink
         Sample.world0).1 = Ret Sample.empty_doc /\ Sample.empty_doc <> JNull)
  /\ (forall r, status_code r <> 200 ->
      Updater.search_nasa_images "Mars" (Answer r) =
        (Ret JNull, [Request NASA_SEARCH_ENDPOINT (search_params "Mars");
                     Print (FailedToSearch (status_code r))])).
Proof.
  split; [reflexivity|].
  apply (empty_search_returns_none true "Mars" "https://images-api.nasa.gov" "" 3
           (fun _ => ok Sample.empty_doc) Sample.empty_doc Sample.failing_sink
           Sample.world0).
  reflexivity.
Defined.

(** C2, as stated, fails for [get_asset_url], in both scripts: it
    returns the href of the last item whatever its extension.  Here the
    first href is a [.jpg] and the [.tif] that follows is returned; and
    with a lone [.tif], which no allow-list entry matches, that href is
    returned rather than nothing. *)
Lemma get_asset_url_returns_last :
  find extension_allowed Sample.hrefs_jpg_tif =
    Some "http://images-assets.nasa.gov/image/PIA00001/PIA00001~thumb.jpg"
  /\ (Updater.get_asset_url (fun _ => "") (JStr "PIA00001")
        (ok (manifest_of Sample.hrefs_jpg_tif))).1 =
     Ret (JStr "http://images-assets.nasa.gov/image/PIA00001/PIA00001~orig.tif")
  /\ (Plugin.get_asset_url (fun _ => "") true (JStr "PIA00001") 3
        (fun _ => ok (manifest_of Sample.hrefs_jpg_tif))).1 =
     Ret (JStr "http://images-assets.nasa.gov/image/PIA00001/PIA00001~orig.tif")
  /\ find extension_allowed Sample.hrefs_tif = None
  /\ (Updater.get_asset_url (fun _ => "") (JStr "PIA00001")
        (ok (manifest_of Sample.hrefs_tif))).1 =
     Ret (JStr "http://images-assets.nasa.gov/image/PIA00001/PIA00001~orig.tif").
Proof. repeat split. Qed.

Lemma find_allowed (hrefs : list string) :
  find allowed hrefs = find extension_allowed hrefs.
Proof.
  induction hrefs as [|h hrefs IH]; [done|].
  simpl. by rewrite allowed_extension, IH.
Qed.

(** C2, amended.  The loop of [fetch_and_set_wallpaper] over a manifest
    with the given hrefs returns the first href whose extension (the
    text after its last dot, lower-cased) is jpg, jpeg or png, and
    nothing when there is none; it is a function of the manifest.
    [get_asset_url], in the two other scripts, returns the last href of
    the manifest, and nothing only when the manifest is empty. *)
Theorem asset_selection (repr : json -> string) (jx : bool) (nasa_id : json)
  (retries : Z) (net : nat -> http_outcome) (body : string) (hrefs : list string) :
  KDE.select_image_url (assets_of hrefs) = Ret (find extension_allowed hrefs)
  /\ (forall h, find extension_allowed hrefs = Some h <->
        exists pre post, hrefs = pre ++ h :: post /\ extension_allowed h = true /\
                         Forall (fun x => extension_allowed x = false) pre)
  /\ (find extension_allowed hrefs = None <->
        Forall (fun x => extension_allowed x = false) hrefs)
  /\ (Updater.get_asset_url repr nasa_id
        (Answer (Response 200 body (Some (manifest_of hrefs))))).1 =
     Ret (from_option JStr JNull (last hrefs))
  /\ (0 < retries ->
      net 0%nat = Answer (Response 200 body (Some (manifest_of hrefs))) ->
      (Plugin.get_asset_url repr jx nasa_id retries net).1 =
      Ret (from_option JStr JNull (last hrefs))).
Proof.
  split; [by rewrite select_is_find, find_allowed|].
  split; [intros h; apply find_first|].
  split; [apply find_nothing|].
  split.
  - unfold Updater.get_asset_url. simpl. rewrite asset_found_last.
    by destruct (last hrefs).
  - intros Hr Hnet. unfold Plugin.get_asset_url.
    destruct (Z.to_nat retries) as [|n] eqn:Hn; [lia|].
    assert (exists ev,
      Plugin.asset_statement repr jx nasa_id retries net 0 ∅ =
        (Some (Ret (from_option JStr JNull (last hrefs))), ∅, ev)) as [ev Hst].
    { unfold Plugin.asset_statement, Plugin.asset_try. rewrite Hnet. simpl.
      rewrite asset_found_last. destruct (last hrefs); by eexists. }
    by rewrite (retry_loop_decided JNull _ n 0 ∅ _ ∅ ev Hst).
Qed.

Lemma asset_selection_witness :
  KDE.select_image_url (assets_of Sample.hrefs3) =
    Ret (Some "http://images-assets.nasa.gov/image/PIA00001/PIA00001~large.JPG")
  /\ (0 < 3 ->
      (fun _ : nat => ok (manifest_of Sample.hrefs3)) 0%nat =
        Answer (Response 200 "" (Some (manifest_of Sample.hrefs3))) ->
      (Plugin.get_asset_url (fun _ => "") true (JStr "PIA00001") 3
         (fun _ => ok (manifest_of Sample.hrefs3))).1 =
      Ret (from_option JStr JNull (last Sample.hrefs3))).
Proof.
  pose proof (asset_selection (fun _ => "") true (JStr "PIA00001") 3
                (fun _ => ok (manifest_of Sample.hrefs3)) "" Sample.hrefs3)
    as (Hsel & _ & _ & _ & Hlast).
  split; [exact Hsel | exact Hlast].
Defined.

End CatalogClaims.

(** ** Downloading *)

Module DownloadFacts.
Import KDE Spec Str StrFacts.

Lemma url_path_plain (url : string) :
  has_char "?" url = false -> has_char "#" url = false -> url_path url = url.
Proof.
  induction url as [|c url IH]; [done|]. simpl.
  intros [Hq Hq']%orb_false_iff [Hh Hh']%orb_false_iff.
  rewrite Hq, Hh, IH; done.
Qed.

(** When the part after the last [d] has a [c], the last [c] of the
    string lies in that part. *)
Lemma after_last_after_last (c d : ascii) (s : string) :
  has_char c (after_last d s) = true ->
  after_last c (after_last d s) = after_last c s.
Proof.
  induction s as [|a s IH]; [done|].
  rewrite (after_last_cons d). destruct (has_char d s) eqn:Hd.
  - intros H. rewrite (IH H), (after_last_cons c a s).
    by rewrite (has_char_after_last _ _ _ H).
  - destruct (Ascii.eqb a d); [|done].
    intros H. by rewrite (after_last_cons c a s), H.
Qed.

(** The extension taken by [download_wallpaper] is that of the final
    path segment when the URL has no query or fragment and its final
    segment has a dot. *)
Lemma file_extension_of_segment (image_url : string) :
  has_char "?" image_url = false -> has_char "#" image_url = false ->
  has_char "." (after_last "/" image_url) = true ->
  url_extension image_url = Some (file_extension image_url).
Proof.
  intros Hq Hh Hdot. unfold url_extension, final_segment, extension, file_extension.
  rewrite url_path_plain by done. rewrite Hdot.
  by rewrite after_last_after_last.
Qed.

Section Download.

Variable wallpaper_dir : string.

(** Everything works: the path that is returned and the state that is
    left. *)
Lemma download_done env image_url nasa_id w temp_path r :
  mktemp env = Ret temp_path -> image_http env = Answer r ->
  raise_for_status r = Ret tt -> temp_write env = FwOk ->
  move_res env = MoveOk -> chmod_ok env = true ->
  let path := path_join wallpaper_dir (filename image_url nasa_id (now env)) in
  download_wallpaper wallpaper_dir env image_url nasa_id w =
    (Ret (Some path),
     World (<[path := content r]> (delete temp_path (fs w))) (hist w)
           (trace w ++ [MkTemp; HttpGet image_url; WriteFile temp_path;
                        Move temp_path path; Chmod path])).
Proof.
  intros Ht Hh Hs Hw Hm Hc path.
  unfold download_wallpaper, download_body, http_get, try_except, on_fs, emit, lift,
    mbind, mret, M_bind, M_ret. simpl.
  rewrite Ht. simpl. rewrite Hh. simpl. rewrite Hs, Hw. simpl.
  unfold move_file. rewrite lookup_insert_eq, Hm, Hc. simpl.
  rewrite !delete_insert_eq, <- !app_assoc. reflexivity.
Qed.

(** A path is returned only when everything worked. *)
Lemma download_returns env image_url nasa_id w path :
  (download_wallpaper wallpaper_dir env image_url nasa_id w).1 = Ret (Some path) ->
  exists temp_path r,
    mktemp env = Ret temp_path /\ image_http env = Answer r /\
    raise_for_status r = Ret tt /\ temp_write env = FwOk /\
    move_res env = MoveOk /\ chmod_ok env = true.
Proof.
  unfold download_wallpaper, download_body, http_get, try_except, on_fs, emit, lift,
    mbind, mret, M_bind, M_ret. simpl.
  destruct (mktemp env) as [t|e] eqn:Ht; simpl; [|done].
  destruct (image_http env) as [|r] eqn:Hh; simpl; [done|].
  destruct (raise_for_status r) as [[]|e] eqn:Hs; simpl; [|done].
  destruct (temp_write env) eqn:Hw; simpl; [|done|done].
  unfold move_file. rewrite lookup_insert_eq.
  destruct (move_res env) eqn:Hm; simpl; [|done|done].
  destruct (chmod_ok env) eqn:Hc; simpl; [|done].
  intros _. by exists t, r.
Qed.

(** An interrupted transfer: nothing is returned and the files are
    those of before, the temp file being new. *)
Lemma download_interrupted env image_url nasa_id w :
  transfer_interrupted env = true ->
  (forall t, mktemp env = Ret t -> fs w !! t = None) ->
  (download_wallpaper wallpaper_dir env image_url nasa_id w).1 = Ret None
  /\ fs (download_wallpaper wallpaper_dir env image_url nasa_id w).2 = fs w.
Proof.
  unfold transfer_interrupted, download_wallpaper, download_body, http_get, try_except,
    on_fs, emit, lift, mbind, mret, M_bind, M_ret, raise_for_status. simpl.
  destruct (mktemp env) as [t|e] eqn:Ht; simpl; [|done].
  intros Hint Hfresh. specialize (Hfresh t eq_refl).
  destruct (image_http env) as [|r] eqn:Hh; simpl.
  { by rewrite delete_insert_id. }
  destruct ((400 <=? status_code r) && (status_code r <? 600)); simpl.
  { by rewrite delete_insert_id. }
  destruct (temp_write env) eqn:Hw; simpl; [done| |].
  - by rewrite delete_insert_id.
  - by rewrite delete_insert_eq, delete_insert_id.
Qed.

(** Whenever nothing is returned, the temp file is gone. *)
Lemma download_cleans_up env image_url nasa_id w temp_path :
  mktemp env = Ret temp_path ->
  (download_wallpaper wallpaper_dir env image_url nasa_id w).1 = Ret None ->
  fs (download_wallpaper wallpaper_dir env image_url nasa_id w).2 !! temp_path = None.
Proof.
  unfold download_wallpaper, download_body, http_get, try_except, on_fs, emit, lift,
    mbind, mret, M_bind, M_ret. simpl.
  intros ->. simpl.
  destruct (image_http env) as [|r]; simpl; [by rewrite lookup_delete_eq|].
  destruct (raise_for_status r) as [[]|e]; simpl; [|by rewrite lookup_delete_eq].
  destruct (temp_write env); simpl; [|by rewrite lookup_delete_eq..].
  unfold move_file. rewrite lookup_insert_eq.
  destruct (move_res env); simpl; [|by rewrite lookup_delete_eq..].
  destruct (chmod_ok env); simpl; [done|by rewrite lookup_delete_eq].
Qed.

End Download.

(** [shutil.move] from the temp directory to another file system is a
    copy: when the copy breaks, what was copied stays at the
    destination, and the handler removes the temp file only. *)
Example move_across_file_systems :
  let after := (download_wallpaper "/home/u/Pictures/NASA-Wallpapers"
                  (DownloadEnv (Ret "/tmp/tmpk3v9x1")
                     (Answer (Response 200 "JFIF-bytes" None))
                     FwOk "20240101_120000" (MoveFailsAfter 4) true)
                  "http://images-assets.nasa.gov/image/PIA00001/PIA00001~orig.jpg"
                  "PIA00001" Sample.world0) in
  after.1 = Ret None
  /\ fs after.2 !! "/tmp/tmpk3v9x1" = None
  /\ fs after.2 !! "/home/u/Pictures/NASA-Wallpapers/nasa_PIA00001_20240101_120000.jpg"
     = Some "JFIF".
Proof. repeat split. Qed.

End DownloadFacts.

Module DownloadClaims.
Import KDE Spec Str StrFacts DownloadFacts StageFacts.




(** C8, as stated, fails on the extension: it is the text after the
    last dot of the whole URL.  With a query string the download works
    and the file gets the extension [5], where the final path segment
    [PIA00001~orig.JPG] has the extension [jpg]; and for a URL whose
    final segment has no dot, the text taken spans several segments. *)
Lemma extension_is_not_of_final_segment :
  (download_wallpaper "/home/u/Pictures/NASA-Wallpapers" Sample.ok_download
     Sample.url_with_query "PIA00001" Sample.world0).1 =
    Ret (Some "/home/u/Pictures/NASA-Wallpapers/nasa_PIA00001_20240101_120000.5")
  /\ url_extension Sample.url_with_query = Some "jpg"
  /\ file_extension "https://images-assets.nasa.gov/image/PIA00001/orig"
     = "gov/image/pia00001/orig"
  /\ url_extension "https://images-assets.nasa.gov/image/PIA00001/orig" = None.
Proof. repeat split. Qed.

Lemma path_join_plain (dir image_url nasa_id timestamp : string) :
  has_char "/" (filename image_url nasa_id timestamp) = false ->
  path_join dir (filename image_url nasa_id timestamp) =
    dir +:+ "/" +:+ filename image_url nasa_id timestamp.
Proof.
  intros Hslash. unfold path_join, components.
  rewrite (split_no_sep _ _ Hslash). reflexivity.
Qed.

(** C8, amended.  A download that returns a path went like this: a temp
    file was made, the image requested, its body written to the temp
    file, the temp file moved to the path, the path's mode set, in that
    order.  The path is [wallpaper_dir / nasa_{nasa_id}_{timestamp}.{ext}]
    where [ext] is the text after the last dot of the URL, lower-cased;
    [ext] is the extension of the URL's final path segment when the URL
    has no query or fragment and that segment has a dot.  Afterwards
    the path holds the body and the temp file is gone. *)
Theorem download_naming (wallpaper_dir image_url nasa_id path : string)
  (env : download_env) (w : world) :
  (download_wallpaper wallpaper_dir env image_url nasa_id w).1 = Ret (Some path) ->
  exists temp_path r,
    mktemp env = Ret temp_path /\ image_http env = Answer r
    /\ path = path_join wallpaper_dir
                ("nasa_" +:+ nasa_id +:+ "_" +:+ now env +:+ "." +:+
                 lower (after_last "." image_url))
    /\ (has_char "/" (filename image_url nasa_id (now env)) = false ->
        path = wallpaper_dir +:+ "/nasa_" +:+ nasa_id +:+ "_" +:+ now env +:+ "." +:+
               lower (after_last "." image_url))
    /\ (has_char "?" image_url = false -> has_char "#" image_url = false ->
        has_char "." (after_last "/" image_url) = true ->
        url_extension image_url = Some (lower (after_last "." image_url)))
    /\ trace (download_wallpaper wallpaper_dir env image_url nasa_id w).2 =
         trace w ++ [MkTemp; HttpGet image_url; WriteFile temp_path;
                     Move temp_path path; Chmod path]
    /\ fs (download_wallpaper wallpaper_dir env image_url nasa_id w).2 =
         <[path := content r]> (delete temp_path (fs w)).
Proof.
  intros Hret.
  destruct (download_returns wallpaper_dir env image_url nasa_id w path Hret)
    as (t & r & Ht & Hh & Hs & Hw & Hm & Hc).
  pose proof (download_done wallpaper_dir env image_url nasa_id w t r Ht Hh Hs Hw Hm Hc)
    as Hdone. simpl in Hdone.
  rewrite Hdone in Hret |- *. simpl in Hret. injection Hret as <-.
  exists t, r. split; [done|]. split; [done|]. split; [done|].
  split; [intros Hslash; by rewrite (path_join_plain _ _ _ _ Hslash)|].
  split; [apply file_extension_of_segment|]. done.
Qed.

Lemma download_naming_witness :
  (download_wallpaper "/home/u/Pictures/NASA-Wallpapers" Sample.ok_download
     "http://images-assets.nasa.gov/image/PIA00001/PIA00001~large.JPG" "PIA00001"
     Sample.world0).1 =
    Ret (Some "/home/u/Pictures/NASA-Wallpapers/nasa_PIA00001_20240101_120000.jpg") /\
  exists temp_path r,
    mktemp Sample.ok_download = Ret temp_path /\ image_http Sample.ok_download = Answer r
    /\ "/home/u/Pictures/NASA-Wallpapers/nasa_PIA00001_20240101_120000.jpg" =
       path_join "/home/u/Pictures/NASA-Wallpapers"
         ("nasa_" +:+ "PIA00001" +:+ "_" +:+ now Sample.ok_download +:+ "." +:+
          lower (after_last "."
                   "http://images-assets.nasa.gov/image/PIA00001/PIA00001~large.JPG")).
Proof.
  split; [reflexivity|].
  destruct (download_naming "/home/u/Pictures/NASA-Wallpapers"
              "http://images-assets.nasa.gov/image/PIA00001/PIA00001~large.JPG" "PIA00001"
              "/home/u/Pictures/NASA-Wallpapers/nasa_PIA00001_20240101_120000.jpg"
              Sample.ok_download Sample.world0 eq_refl)
    as (t & r & Ht & Hh & Hp & _).
  exists t, r. split; [exact Ht|]. split; [exact Hh|]. exact Hp.
Defined.

End DownloadClaims.

(* ===================================================================== *)
(** * Further properties                                                 *)
(* ===================================================================== *)

(** ** The history store, call by call *)

Module HistoryMore.
Import KDE HistoryFacts.

(** X1. Whatever list the file holds, a call that goes through stores
    at most 50 entries, namely a suffix of the old list followed by the
    new entry: the new entry is last, nothing is reordered, and only
    entries at the front are dropped. *)
Theorem record_appends_last (l : list json) (image_path date : string) (io : hist_io) :
  read_ok io = true -> write_res io = WriteOk ->
  exists kept,
    (save_wallpaper_history image_path date io (Some (Doc (JArr l)))).1 =
      Some (Doc (JArr (kept ++ [history_entry image_path date])))
    /\ kept `suffix_of` l
    /\ length kept = Nat.min (length l) 49
    /\ (length (kept ++ [history_entry image_path date]) <= 50)%nat.
Proof.
  intros Hr Hw. rewrite save_on_list by done. cbn [fst].
  rewrite slice_last_50, length_app. simpl length.
  exists (drop (length l + 1 - 50)%nat l).
  assert (length (drop (length l + 1 - 50)%nat l) = Nat.min (length l) 49) as Hlen.
  { rewrite length_drop. lia. }
  split; [by rewrite drop_app_le by lia|].
  split; [apply suffix_drop|].
  split; [done|]. rewrite length_app, Hlen. simpl. lia.
Qed.

Lemma record_appends_last_witness :
  read_ok io_ok = true /\ write_res io_ok = WriteOk /\
  exists kept,
    (save_wallpaper_history "/new.jpg" "2024-01-02T00:00:00" io_ok
       (Some (Doc (JArr Sample.full_history)))).1 =
      Some (Doc (JArr (kept ++ [history_entry "/new.jpg" "2024-01-02T00:00:00"])))
    /\ kept `suffix_of` Sample.full_history
    /\ length kept = Nat.min (length Sample.full_history) 49
    /\ (length (kept ++ [history_entry "/new.jpg" "2024-01-02T00:00:00"]) <= 50)%nat.
Proof.
  split; [reflexivity|]. split; [reflexivity|].
  apply (record_appends_last Sample.full_history "/new.jpg" "2024-01-02T00:00:00" io_ok);
    reflexivity.
Defined.

(** A file that cannot be recorded into: its content is not JSON, or
    is a JSON document other than a list. *)
Lemma save_on_broken (image_path date : string) (io : hist_io) (f : option hfile) :
  f = Some Garbage \/ (exists j, f = Some (Doc j) /\ forall l, j <> JArr l) ->
  exists e, save_wallpaper_history image_path date io f = (f, Some e).
Proof.
  unfold save_wallpaper_history, save_body, load_history.
  intros [-> | (j & -> & Hj)].
  - destruct (read_ok io); by eexists.
  - destruct (read_ok io); [|by eexists].
    destruct j; try by eexists. by destruct (Hj l).
Qed.

(** X2. A history file whose content is not JSON, or is a JSON document
    other than a list, is never repaired: every call logs an exception
    and leaves the file as it is, so no run of calls ever records
    anything again. *)
Theorem broken_history_stays_broken (records : list (string * string))
  (f : option hfile) :
  f = Some Garbage \/ (exists j, f = Some (Doc j) /\ forall l, j <> JArr l) ->
  replay records f = f
  /\ forall image_path date io,
       exists e, save_wallpaper_history image_path date io f = (f, Some e).
Proof.
  intros Hf. split; [|intros; by apply save_on_broken].
  induction records as [|r records IH]; [done|].
  rewrite replay_cons.
  destruct (save_on_broken r.1 r.2 io_ok f Hf) as [e ->]. exact IH.
Qed.

Lemma broken_history_stays_broken_witness :
  (Some (Doc (JObj [])) = Some Garbage \/
   (exists j, Some (Doc (JObj [])) = Some (Doc j) /\ forall l, j <> JArr l)) /\
  replay Sample.records3 (Some (Doc (JObj []))) = Some (Doc (JObj [])).
Proof.
  assert (Some (Doc (JObj [])) = Some Garbage \/
          (exists j, Some (Doc (JObj [])) = Some (Doc j) /\ forall l, j <> JArr l)) as H.
  { right. exists (JObj []). split; [reflexivity | discriminate]. }
  split; [exact H|].
  exact (proj1 (broken_history_stays_broken Sample.records3 (Some (Doc (JObj []))) H)).
Defined.

End HistoryMore.

(** ** One cycle, step by step *)

Module CycleMore.
Import KDE Spec Spec2 StrFacts SelectFacts.

Lemma quiet_step_refl w : quiet_step w w.
Proof. split; [done|]. exists []. split; [by rewrite app_nil_r | constructor]. Qed.

Lemma quiet_step_trans w1 w2 w3 :
  quiet_step w1 w2 -> quiet_step w2 w3 -> quiet_step w1 w3.
Proof.
  intros (Hh & evs & Ht & Hs) (Hh' & evs' & Ht' & Hs').
  split; [congruence|]. exists (evs ++ evs').
  split; [by rewrite Ht', Ht, app_assoc | by apply Forall_app].
Qed.

Lemma quiet_weaken {A} (post post' : A -> Prop) (m : M A) :
  (forall a, post a -> post' a) -> quiet post m -> quiet post' m.
Proof. intros Himp Hm w. destruct (Hm w) as [Hq Hp]. split; [done|]. eauto. Qed.

Lemma quiet_ret {A} (a : A) : quiet (fun x => x = a) (mret a).
Proof. intros w. split; [apply quiet_step_refl|]. by intros a' [= <-]. Qed.

Lemma quiet_lift {A} (r : res A) : quiet (fun x => r = Ret x) (lift r).
Proof. intros w. split; [apply quiet_step_refl|]. intros a H. exact H. Qed.

Lemma quiet_emit (e : KDE.event) :
  is_apply_or_save e = false -> quiet (fun _ => True) (emit e).
Proof.
  intros He w. split; [|done]. split; [done|].
  exists [e]. split; [done|]. by constructor.
Qed.

Lemma quiet_on_fs op : quiet (fun _ => True) (on_fs op).
Proof.
  intros w. unfold on_fs. destruct (op (fs w)) as [r fs'].
  split; [apply quiet_step_trans with w; [apply quiet_step_refl|]|done].
  split; [done|]. exists []. split; [by rewrite app_nil_r | constructor].
Qed.

Lemma quiet_bind {A B} (post : A -> Prop) (post' : B -> Prop) (m : M A) (k : A -> M B) :
  quiet post m -> (forall a, post a -> quiet post' (k a)) -> quiet post' (m ≫= k).
Proof.
  intros Hm Hk w. unfold mbind, M_bind.
  destruct (Hm w) as [Hq Hp].
  destruct (m w) as [[a|e] w1]; simpl in *; [|done].
  destruct (Hk a (Hp a eq_refl) w1) as [Hq' Hp'].
  split; [by eapply quiet_step_trans|done].
Qed.

Lemma quiet_try {A} (post : A -> Prop) (m : M A) (h : exn -> M A) :
  quiet post m -> (forall e, quiet post (h e)) -> quiet post (try_except m h).
Proof.
  intros Hm Hh w. unfold try_except.
  destruct (Hm w) as [Hq Hp].
  destruct (m w) as [[a|e] w1]; simpl in *; [done|].
  destruct (Hh e w1) as [Hq' Hp'].
  split; [by eapply quiet_step_trans|done].
Qed.

(** A statement that is quiet, whatever its value. *)
Lemma quiet_any {A} (post : A -> Prop) (m : M A) :
  quiet post m -> quiet (fun _ => True) m.
Proof. by apply quiet_weaken. Qed.

Lemma applies_quiet env good (m : M unit) (post : unit -> Prop) :
  quiet post m -> applies_last env good m.
Proof. intros Hm w. left. apply Hm. Qed.

Lemma applies_set_wallpaper env (good : string -> Prop) path :
  good path -> applies_last env good (set_wallpaper env path).
Proof. intros Hg w. right. exists w, path. split; [apply quiet_step_refl|done]. Qed.

Lemma applies_bind {A} env good (post : A -> Prop) (m : M A) (k : A -> M unit) :
  quiet post m -> (forall a, post a -> applies_last env good (k a)) ->
  applies_last env good (m ≫= k).
Proof.
  intros Hm Hk w. unfold mbind, M_bind.
  destruct (Hm w) as [Hq Hp].
  destruct (m w) as [[a|e] w1]; simpl in *; [|by left].
  destruct (Hk a (Hp a eq_refl) w1) as [Hq' | (w2 & path & Hq' & Hg & Heq)].
  - left. by eapply quiet_step_trans.
  - right. exists w2, path. split; [by eapply quiet_step_trans|done].
Qed.

Lemma qt_ret {A} (a : A) : quiet (fun _ => True) (mret a).
Proof. eapply quiet_any, quiet_ret. Qed.

Lemma qt_lift {A} (r : res A) : quiet (fun _ => True) (lift r).
Proof. eapply quiet_any, quiet_lift. Qed.

Lemma qt_bind {A B} (m : M A) (k : A -> M B) :
  quiet (fun _ => True) m -> (forall a, quiet (fun _ => True) (k a)) ->
  quiet (fun _ => True) (m ≫= k).
Proof. intros Hm Hk. eapply quiet_bind; [exact Hm|]. intros a _. apply Hk. Qed.

Lemma qt_try {A} (m : M A) (h : exn -> M A) :
  quiet (fun _ => True) m -> (forall e, quiet (fun _ => True) (h e)) ->
  quiet (fun _ => True) (try_except m h).
Proof. apply quiet_try. Qed.

Create HintDb quiet.
#[local] Hint Resolve qt_ret qt_lift quiet_on_fs : quiet.
#[local] Hint Extern 1 (quiet _ (emit _)) => (apply quiet_emit; reflexivity) : quiet.

(** Takes a block apart, statement by statement and branch by branch. *)
Ltac quiet_steps :=
  repeat first
    [ progress eauto with quiet
    | apply qt_bind; [|intros ?]
    | apply qt_try; [|intros ?]
    | match goal with
      | |- quiet _ (if ?b then _ else _) => destruct b
      | |- quiet _ (match ?x with _ => _ end) => destruct x
      end ].

Section Cycle.

Variables (base_url wallpaper_dir : string) (repr : json -> string).

Lemma quiet_http_get url o : quiet (fun _ => True) (http_get url o).
Proof. unfold http_get. quiet_steps. Qed.

Lemma quiet_search env : quiet (fun _ => True) (search_images base_url env).
Proof. unfold search_images, http_get. quiet_steps. Qed.

(** [download_wallpaper] shows nothing to the desktop or the history,
    and the path it returns is the one it built. *)
Lemma quiet_download env image_url nasa_id :
  quiet (fun r => forall path, r = Some path ->
                  path = path_join wallpaper_dir (filename image_url nasa_id (now env)))
        (download_wallpaper wallpaper_dir env image_url nasa_id).
Proof.
  intros w. split.
  - assert (quiet (fun _ => True) (download_wallpaper wallpaper_dir env image_url nasa_id))
      as Hq.
    { unfold download_wallpaper, download_body, http_get. quiet_steps. }
    apply Hq.
  - intros r Hr path ->.
    destruct (DownloadFacts.download_returns wallpaper_dir env image_url nasa_id w path Hr)
      as (t & rsp & Ht & Hh & Hs & Hw & Hm & Hc).
    pose proof (DownloadFacts.download_done wallpaper_dir env image_url nasa_id w t rsp
                  Ht Hh Hs Hw Hm Hc) as Hdone.
    simpl in Hdone. rewrite Hdone in Hr. simpl in Hr. by injection Hr as <-.
Qed.

(** One turn of the loop, on any item. *)
Lemma select_step (asset : json) (rest : list json) :
  select_image_url (asset :: rest) =
    match getitem_str asset "href" with
    | Ret (JStr h) => if allowed h then Ret (Some h) else select_image_url rest
    | Ret _ => Raise AttributeError
    | Raise e => Raise e
    end.
Proof.
  change (select_image_url (asset :: rest)) with
    (href ← getitem_str asset "href";
     match href with
     | JStr h => if allowed h then Ret (Some h) else select_image_url rest
     | _ => Raise AttributeError
     end).
  by destruct (getitem_str asset "href") as [[| | |s| |]|e].
Qed.

(** Whatever the items are, an href that the loop returns passed the
    test of line 208. *)
Lemma select_allowed (assets : list json) (h : string) :
  select_image_url assets = Ret (Some h) -> allowed h = true.
Proof.
  induction assets as [|asset assets IH]; [done|].
  rewrite select_step.
  destruct (getitem_str asset "href") as [[| | |s| |]|e]; try done.
  destruct (allowed s) eqn:Hs; [|exact IH].
  by intros [= <-].
Qed.

(** The paths a cycle may hand to the shell. *)
Lemma cycle_applies_last env :
  applies_last env
    (fun path => exists image_url nasa_id,
       allowed image_url = true /\
       path = path_join wallpaper_dir (filename image_url nasa_id (now (dl env))))
    (fetch_body base_url wallpaper_dir repr env).
Proof.
  unfold fetch_body.
  pose proof (quiet_search env) as Hsearch.
  pose proof quiet_http_get as Hget.
  repeat first
    [ eapply applies_quiet; apply qt_ret
    | match goal with
      | |- applies_last _ _ (lift (select_image_url _) ≫= _) =>
          eapply applies_bind; [apply quiet_lift | intros [image_url|] Hsel]
      | |- applies_last _ _ (download_wallpaper _ _ _ _ ≫= _) =>
          eapply applies_bind; [apply quiet_download | intros [path|] Hpath]
      | |- applies_last _ _ (set_wallpaper _ _) =>
          apply applies_set_wallpaper; eexists _, _; split;
            [eapply select_allowed; eassumption | by apply Hpath]
      | |- applies_last _ _ (_ ≫= _) =>
          eapply (applies_bind _ _ (fun _ => True)); [by eauto with quiet | intros ? _]
      | |- applies_last _ _ (if ?b then _ else _) => destruct b
      end ].
Qed.

End Cycle.

Section Shape.

Variables (base_url wallpaper_dir : string) (repr : json -> string).

(** [set_wallpaper] when the shell call returns. *)
Lemma set_wallpaper_applied env image_path w :
  sink_ok env = true ->
  set_wallpaper env image_path w =
    (Ret tt,
     World (fs w)
       (save_wallpaper_history image_path (date env) (hio env) (hist w)).1
       (trace w ++
        [EvaluateScript image_path;
         LogInfo ("Successfully set wallpaper: " +:+ image_path);
         SaveHistory image_path] ++
        match (save_wallpaper_history image_path (date env) (hio env) (hist w)).2 with
        | Some e => [LogError "Failed to save wallpaper history" e]
        | None => []
        end)).
Proof.
  intros Hs.
  unfold set_wallpaper, try_except, record_history, on_hist, mbind, M_bind, emit, lift.
  simpl. rewrite Hs. simpl.
  destruct (save_wallpaper_history image_path (date env) (hio env) (hist w)) as [f' err].
  simpl. by rewrite <- !app_assoc.
Qed.


End Shape.

(** A cycle in which everything works, from an empty picture folder
    and a history of one entry. *)
Example working_cycle :
  let out := fetch_and_set_wallpaper "https://images-api.nasa.gov"
               "/home/u/Pictures/NASA-Wallpapers" (fun _ => "")
               Sample2.working Sample.world0 in
  hist out.2 =
    Some (Doc (JArr [history_entry "/a.jpg" "2024-01-01T00:00:00";
                     history_entry
                       "/home/u/Pictures/NASA-Wallpapers/nasa_PIA00001_20240101_120000.jpg"
                       "2024-01-01T12:00:01"]))
  /\ fs out.2 !! "/home/u/Pictures/NASA-Wallpapers/nasa_PIA00001_20240101_120000.jpg"
     = Some "JFIF-bytes"
  /\ fs out.2 !! "/tmp/tmpk3v9x1" = None.
Proof. repeat split. Qed.

End CycleMore.

(** ** Which files a cycle touches *)

Module FrameFacts.
Import KDE Spec Spec2 Str StrFacts.

Lemma string_app_assoc (a b c : string) : (a +:+ b) +:+ c = a +:+ (b +:+ c).
Proof.
  induction a as [|x a IH]; [done|].
  change (String x ((a +:+ b) +:+ c) = String x (a +:+ (b +:+ c))). by rewrite IH.
Qed.

Lemma string_app_empty (a : string) : a +:+ "" = a.
Proof.
  induction a as [|x a IH]; [done|].
  change (String x (a +:+ "") = String x a). by rewrite IH.
Qed.

Lemma startswith_app (a b : string) : startswith (a +:+ b) a = true.
Proof.
  induction a as [|x a IH]; [by destruct b|].
  change (Ascii.eqb x x && startswith (a +:+ b) a = true).
  by rewrite Ascii.eqb_refl.
Qed.

(** The first component of a name that begins with [nasa_]. *)
Lemma components_nasa (rest : string) :
  exists c cs, components ("nasa_" +:+ rest) = ("nasa_" +:+ c) :: cs.
Proof.
  unfold components.
  change ("nasa_" +:+ rest)
    with (String "n" (String "a" (String "s" (String "a" (String "_" rest))))).
  simpl. destruct (split "/" rest) as [|h t]; simpl; by eexists _, _.
Qed.

Lemma join_cons_app (sep c : string) (cs : list string) :
  exists tail, join sep (c :: cs) = c +:+ tail.
Proof.
  destruct cs as [|c' cs]; simpl.
  - exists "". by rewrite string_app_empty.
  - by eexists.
Qed.

(** Where [download_wallpaper] puts a file: under [wallpaper_dir], in
    a file or directory whose name begins with [nasa_]. *)
Lemma path_join_nasa (dir image_url nasa_id timestamp : string) :
  startswith (path_join dir (filename image_url nasa_id timestamp)) (dir +:+ "/nasa_")
  = true.
Proof.
  unfold filename, path_join.
  change (startswith ("nasa_" +:+ ?r) "/") with false. cbv iota.
  destruct (components_nasa
              (nasa_id +:+ "_" +:+ timestamp +:+ "." +:+ file_extension image_url))
    as (c & cs & ->).
  destruct (join_cons_app "/" ("nasa_" +:+ c) cs) as [tail Htail].
  change (join "/" (dir :: ("nasa_" +:+ c) :: cs))
    with (dir +:+ "/" +:+ join "/" (("nasa_" +:+ c) :: cs)).
  rewrite Htail.
  replace (dir +:+ "/" +:+ ("nasa_" +:+ c) +:+ tail)
    with ((dir +:+ "/nasa_") +:+ (c +:+ tail)).
  - apply startswith_app.
  - rewrite !string_app_assoc. reflexivity.
Qed.

Lemma frames_ret {A} keep (a : A) : frames keep (mret a).
Proof. by intros w q _. Qed.

Lemma frames_lift {A} keep (r : res A) : frames keep (lift r).
Proof. by intros w q _. Qed.

Lemma frames_emit keep e : frames keep (emit e).
Proof. by intros w q _. Qed.

Lemma frames_on_hist keep image_path date io : frames keep (on_hist image_path date io).
Proof.
  intros w q _. unfold on_hist.
  by destruct (save_wallpaper_history image_path date io (hist w)).
Qed.

Lemma frames_on_fs keep op :
  (forall fs q, keep q -> (op fs).2 !! q = fs !! q) -> frames keep (on_fs op).
Proof.
  intros Hop w q Hq. unfold on_fs. specialize (Hop (fs w) q Hq).
  by destruct (op (fs w)).
Qed.

Lemma frames_bind {A B} keep (m : M A) (k : A -> M B) :
  frames keep m -> (forall a, frames keep (k a)) -> frames keep (m ≫= k).
Proof.
  intros Hm Hk w q Hq. unfold mbind, M_bind. specialize (Hm w q Hq).
  destruct (m w) as [[a|e] w1]; simpl in *; [|done].
  by rewrite (Hk a w1 q Hq).
Qed.

Lemma frames_try {A} keep (m : M A) (h : exn -> M A) :
  frames keep m -> (forall e, frames keep (h e)) -> frames keep (try_except m h).
Proof.
  intros Hm Hh w q Hq. unfold try_except. specialize (Hm w q Hq).
  destruct (m w) as [[a|e] w1]; simpl in *; [done|].
  by rewrite (Hh e w1 q Hq).
Qed.

Lemma frames_weaken {A} (keep keep' : string -> Prop) (m : M A) :
  (forall q, keep' q -> keep q) -> frames keep m -> frames keep' m.
Proof. intros Himp Hm w q Hq. by apply Hm, Himp. Qed.

Lemma write_file_other w path data (fs : gmap string string) q :
  q <> path -> (write_file w path data fs).2 !! q = fs !! q.
Proof. intros Hq. destruct w; simpl; by rewrite ?lookup_insert_ne. Qed.

Lemma move_file_other m src dst (fs : gmap string string) q :
  q <> src -> q <> dst -> (move_file m src dst fs).2 !! q = fs !! q.
Proof.
  intros Hs Hd. unfold move_file. destruct (fs !! src); [|done].
  destruct m; simpl; by rewrite ?lookup_insert_ne, ?lookup_delete_ne.
Qed.

Create HintDb frames.
#[local] Hint Resolve frames_ret frames_lift frames_emit frames_on_hist : frames.

Ltac frames_steps :=
  repeat first
    [ progress eauto with frames
    | apply frames_bind; [|intros ?]
    | apply frames_try; [|intros ?]
    | match goal with
      | |- frames _ (if ?b then _ else _) => destruct b
      | |- frames _ (match ?x with _ => _ end) => destruct x
      end ].

Lemma log_lines_app (evs evs' : list KDE.event) :
  log_lines (evs ++ evs') = log_lines evs ++ log_lines evs'.
Proof. unfold log_lines. apply List.filter_app. Qed.

(** Two worlds show the same content at a path when they agree on
    [fs] there and on the history, and either the path is no file of
    the logger or nothing was logged in between. *)
Lemma disk_same config_dir dumps logged (w w' : world) (q : string) :
  fs w' !! q = fs w !! q -> hist w' = hist w ->
  is_log_file config_dir q = false \/ log_lines (trace w') = log_lines (trace w) ->
  disk config_dir dumps logged w' q = disk config_dir dumps logged w q.
Proof.
  intros Hfs Hhist Hlog. unfold disk. rewrite Hfs, Hhist.
  destruct Hlog as [-> | ->]; reflexivity.
Qed.

Section Frames.

Variables (base_url wallpaper_dir : string) (repr : json -> string).

(** [config_dir] is [str(self.config_dir)]; [dumps] and [logged] are
    those of [disk]. *)
Variables (config_dir : string) (dumps : hfile -> string)
  (logged : list KDE.event -> string -> option string).

Lemma frames_download (env : download_env) (image_url nasa_id : string) :
  frames (fun q => (forall t, mktemp env = Ret t -> q <> t) /\
                   q <> path_join wallpaper_dir (filename image_url nasa_id (now env)))
    (download_wallpaper wallpaper_dir env image_url nasa_id).
Proof.
  unfold download_wallpaper, download_body, http_get.
  destruct (mktemp env) as [t|e]; [|frames_steps].
  frames_steps; apply frames_on_fs; intros files p [Hp Hp']; specialize (Hp t eq_refl);
    simpl; rewrite ?lookup_insert_ne, ?lookup_delete_ne by done;
    auto using write_file_other, move_file_other.
Qed.

(** A call that returns a path has logged nothing. *)
Lemma download_logs_on_failure_only (env : download_env) (image_url nasa_id : string)
  (w : world) (path : string) :
  (download_wallpaper wallpaper_dir env image_url nasa_id w).1 = Ret (Some path) ->
  log_lines (trace (download_wallpaper wallpaper_dir env image_url nasa_id w).2)
  = log_lines (trace w).
Proof.
  intros (t & r & Ht & Hh & Hs & Hw & Hm & Hc)%DownloadFacts.download_returns.
  rewrite (DownloadFacts.download_done wallpaper_dir env image_url nasa_id w t r
             Ht Hh Hs Hw Hm Hc).
  simpl. rewrite log_lines_app. simpl. apply app_nil_r.
Qed.

(** X4. The files [download_wallpaper] touches: the temp file, the
    destination it builds and, when it returns [None], the files of the
    logger (the handler logs the error).  Every other file of the
    machine, the history file among them, is as before; and after a
    call that returns a path the files of the logger are as before
    too. *)
Theorem download_touches_two_paths (env : download_env) (image_url nasa_id : string)
  (w : world) (q : string) :
  (forall t, mktemp env = Ret t -> q <> t) ->
  q <> path_join wallpaper_dir (filename image_url nasa_id (now env)) ->
  let out := download_wallpaper wallpaper_dir env image_url nasa_id w in
  (is_log_file config_dir q = false ->
     disk config_dir dumps logged out.2 q = disk config_dir dumps logged w q)
  /\ (forall path, out.1 = Ret (Some path) ->
        disk config_dir dumps logged out.2 q = disk config_dir dumps logged w q)
  /\ hist out.2 = hist w.
Proof.
  intros Htemp Hdest out.
  assert (fs out.2 !! q = fs w !! q) as Hfs by (by apply frames_download).
  assert (hist out.2 = hist w) as Hhist
    by apply (CycleFacts.no_record_download wallpaper_dir env image_url nasa_id w).
  split; [|split; [|done]].
  - intros Hlog. apply disk_same; auto.
  - intros path Hpath. apply disk_same; [done..|]. right.
    by apply download_logs_on_failure_only with path.
Qed.

Lemma frames_cycle (env : cycle_env) :
  frames (fun q => (forall t, mktemp (dl env) = Ret t -> q <> t) /\
                   startswith q (wallpaper_dir +:+ "/nasa_") = false)
    (fetch_and_set_wallpaper base_url wallpaper_dir repr env).
Proof.
  assert (forall image_url nasa_id,
            frames (fun q => (forall t, mktemp (dl env) = Ret t -> q <> t) /\
                             startswith q (wallpaper_dir +:+ "/nasa_") = false)
              (download_wallpaper wallpaper_dir (dl env) image_url nasa_id)) as Hdl.
  { intros image_url nasa_id. eapply frames_weaken; [|apply frames_download].
    intros q [Ht Hpre]. split; [done|]. intros ->.
    by rewrite path_join_nasa in Hpre. }
  unfold fetch_and_set_wallpaper, fetch_body, search_images, set_wallpaper,
    record_history, http_get.
  frames_steps.
Qed.

(** X5. The files a whole cycle touches: the temp file, paths that
    begin with [wallpaper_dir/nasa_], the history file and the files of
    the logger.  Every other file of the machine is as before. *)
Theorem cycle_touches_only_wallpapers (env : cycle_env) (w : world) (q : string) :
  (forall t, mktemp (dl env) = Ret t -> q <> t) ->
  startswith q (wallpaper_dir +:+ "/nasa_") = false ->
  q <> history_file config_dir ->
  is_log_file config_dir q = false ->
  disk config_dir dumps logged
    (fetch_and_set_wallpaper base_url wallpaper_dir repr env w).2 q
  = disk config_dir dumps logged w q.
Proof.
  intros Htemp Hpre Hhist Hlog. unfold disk. rewrite Hlog.
  rewrite (proj2 (String.eqb_neq _ _) Hhist). by apply frames_cycle.
Qed.

End Frames.

(** A failed download, seen at the history file: the handler has logged
    the error, and the history file is as before. *)
Lemma download_touches_two_paths_witness :
  let config_dir := "/home/u/.config/plasma-nasa-wallpaper" in
  let q := history_file config_dir in
  let out := download_wallpaper "/home/u/Pictures/NASA-Wallpapers" Sample.broken_download
               "http://h/a.jpg" "PIA00001" Sample.world0 in
  (forall t, mktemp Sample.broken_download = Ret t -> q <> t) /\
  q <> path_join "/home/u/Pictures/NASA-Wallpapers"
         (filename "http://h/a.jpg" "PIA00001" (now Sample.broken_download)) /\
  is_log_file config_dir q = false /\
  log_lines (trace out.2) = [LogError "Download error" ConnectionError] /\
  disk config_dir (fun _ => "[]") (fun _ _ => None) out.2 q
  = disk config_dir (fun _ => "[]") (fun _ _ => None) Sample.world0 q.
Proof.
  intros config_dir q out.
  assert (forall t, mktemp Sample.broken_download = Ret t -> q <> t) as Htemp.
  { intros t [= <-]. discriminate. }
  assert (q <> path_join "/home/u/Pictures/NASA-Wallpapers"
                 (filename "http://h/a.jpg" "PIA00001" (now Sample.broken_download)))
    as Hdest by discriminate.
  split; [exact Htemp|]. split; [exact Hdest|]. split; [reflexivity|].
  split; [reflexivity|].
  exact (proj1 (download_touches_two_paths "/home/u/Pictures/NASA-Wallpapers" config_dir
                  (fun _ => "[]") (fun _ _ => None) Sample.broken_download
                  "http://h/a.jpg" "PIA00001" Sample.world0 q Htemp Hdest) eq_refl).
Defined.

Lemma cycle_touches_only_wallpapers_witness :
  let config_dir := "/home/u/.config/plasma-nasa-wallpaper" in
  (forall t, mktemp (dl Sample2.working) = Ret t -> SAVE_PATH <> t) /\
  startswith SAVE_PATH ("/home/u/Pictures/NASA-Wallpapers" +:+ "/nasa_") = false /\
  SAVE_PATH <> history_file config_dir /\
  is_log_file config_dir SAVE_PATH = false /\
  disk config_dir (fun _ => "[]") (fun _ _ => None)
    (fetch_and_set_wallpaper "https://images-api.nasa.gov"
       "/home/u/Pictures/NASA-Wallpapers" (fun _ => "") Sample2.working
       (World Sample.old_wallpaper None [])).2 SAVE_PATH
  = disk config_dir (fun _ => "[]") (fun _ _ => None)
      (World Sample.old_wallpaper None []) SAVE_PATH.
Proof.
  intros config_dir.
  assert (forall t, mktemp (dl Sample2.working) = Ret t -> SAVE_PATH <> t) as Htemp.
  { intros t [= <-]. discriminate. }
  assert (SAVE_PATH <> history_file config_dir) as Hhist by discriminate.
  split; [exact Htemp|]. split; [reflexivity|]. split; [exact Hhist|].
  split; [reflexivity|].
  exact (cycle_touches_only_wallpapers "https://images-api.nasa.gov"
           "/home/u/Pictures/NASA-Wallpapers" (fun _ => "") config_dir
           (fun _ => "[]") (fun _ _ => None) Sample2.working
           (World Sample.old_wallpaper None []) SAVE_PATH Htemp eq_refl Hhist eq_refl).
Defined.

End FrameFacts.

(** ** The selection loop on any list of items *)

Module SelectMore.
Import KDE Spec Spec2 Str StrFacts SelectFacts CycleMore.

Lemma select_step_ext (asset : json) (rest : list json) :
  select_image_url (asset :: rest) =
    match getitem_str asset "href" with
    | Ret (JStr h) => if extension_allowed h then Ret (Some h) else select_image_url rest
    | Ret _ => Raise AttributeError
    | Raise e => Raise e
    end.
Proof.
  rewrite select_step. destruct (getitem_str asset "href") as [[| | |s| |]|e]; try done.
  by rewrite allowed_extension.
Qed.

Lemma select_skip (pre rest : list json) :
  Forall skipped pre -> select_image_url (pre ++ rest) = select_image_url rest.
Proof.
  induction 1 as [|a pre (x & Hx & Hno) _ IH]; [done|].
  change ((a :: pre) ++ rest) with (a :: (pre ++ rest)).
  by rewrite select_step_ext, Hx, Hno.
Qed.

(** The extension of a name that passes the test, as [download_wallpaper]
    computes it. *)
Lemma extension_allowed_file_extension (h : string) :
  extension_allowed h = true ->
  file_extension h ∈ allow_list /\ has_char "." h = true.
Proof.
  unfold extension_allowed, extension, file_extension, allow_list.
  destruct (has_char "." h); [|done]. simpl.
  intros H. split; [|done].
  destruct (String.eqb_spec (lower (after_last "." h)) "jpg") as [->|_];
    [set_solver|].
  destruct (String.eqb_spec (lower (after_last "." h)) "jpeg") as [->|_];
    [set_solver|].
  destruct (String.eqb_spec (lower (after_last "." h)) "png") as [->|_];
    [set_solver|done].
Qed.

Lemma select_some_iff (assets : list json) (h : string) :
  select_image_url assets = Ret (Some h) <->
  exists pre asset post,
    assets = pre ++ asset :: post /\ Forall skipped pre /\
    getitem_str asset "href" = Ret (JStr h) /\ extension_allowed h = true.
Proof.
  split.
  - induction assets as [|a rest IH]; [done|].
    rewrite select_step_ext.
    destruct (getitem_str a "href") as [[| | |s| |]|e] eqn:Ha; try done.
    destruct (extension_allowed s) eqn:Hs.
    + intros [= <-]. by exists [], a, rest.
    + intros (pre & asset & post & -> & Hpre & Hh & Hok)%IH.
      exists (a :: pre), asset, post. split; [done|].
      split; [constructor; [by exists s|done]|done].
  - intros (pre & asset & post & -> & Hpre & Hh & Hok).
    by rewrite (select_skip _ _ Hpre), select_step_ext, Hh, Hok.
Qed.

Lemma select_raise_iff (assets : list json) (e : exn) :
  select_image_url assets = Raise e <->
  exists pre asset post,
    assets = pre ++ asset :: post /\ Forall skipped pre /\ breaks asset e.
Proof.
  split.
  - induction assets as [|a rest IH]; [done|].
    rewrite select_step_ext.
    destruct (getitem_str a "href") as [v|e'] eqn:Ha.
    + destruct v as [| | |s| |];
        try (intros [= <-]; exists [], a, rest; split; [done|]; split; [done|];
             right; eexists; split; [exact Ha|]; split; [by intros x|done]).
      destruct (extension_allowed s) eqn:Hs; [done|].
      intros (pre & asset & post & -> & Hpre & Hb)%IH.
      exists (a :: pre), asset, post. split; [done|].
      split; [constructor; [by exists s|done]|done].
    + intros [= <-]. exists [], a, rest. split; [done|]. split; [done|]. by left.
  - intros (pre & asset & post & -> & Hpre & Hb).
    rewrite (select_skip _ _ Hpre), select_step_ext.
    destruct Hb as [-> | (v & -> & Hv & ->)]; [done|].
    destruct v; try done. by destruct (Hv s).
Qed.

Lemma select_none_iff (assets : list json) :
  select_image_url assets = Ret None <-> Forall skipped assets.
Proof.
  split.
  - induction assets as [|a rest IH]; [by constructor|].
    rewrite select_step_ext.
    destruct (getitem_str a "href") as [[| | |s| |]|e] eqn:Ha; try done.
    destruct (extension_allowed s) eqn:Hs; [done|].
    intros H%IH. constructor; [by exists s|done].
  - intros Hall. rewrite <- (app_nil_r assets). by rewrite (select_skip _ _ Hall).
Qed.

(** X6. The loop over the items of a manifest, on any JSON items at
    all.  It returns an href exactly when some item carries it, its
    extension is on the allow-list, and every item before was looked at
    and passed over; the items after it are never looked at, whatever
    they are.  It raises exactly when, before any match, an item has no
    href, is not a dict, or has an href that is not a string.  A
    returned href always yields one of the extensions jpg, jpeg, png
    for the file. *)
Theorem select_on_any_items (assets : list json) :
  (forall h,
     select_image_url assets = Ret (Some h) <->
     exists pre asset post,
       assets = pre ++ asset :: post /\ Forall skipped pre /\
       getitem_str asset "href" = Ret (JStr h) /\ extension_allowed h = true)
  /\ (forall e,
     select_image_url assets = Raise e <->
     exists pre asset post,
       assets = pre ++ asset :: post /\ Forall skipped pre /\ breaks asset e)
  /\ (select_image_url assets = Ret None <-> Forall skipped assets)
  /\ (forall h, select_image_url assets = Ret (Some h) ->
        file_extension h ∈ allow_list /\ h <> "").
Proof.
  split; [intros h; apply select_some_iff|].
  split; [intros e; apply select_raise_iff|].
  split; [apply select_none_iff|].
  intros h Hh. apply select_allowed in Hh. rewrite allowed_extension in Hh.
  destruct (extension_allowed_file_extension h Hh) as [Hext Hdot].
  split; [done|]. by intros ->.
Qed.

(** A manifest with a [.tif], a [.PNG], an item without href and a
    number: the [.PNG] is returned and the rest is not looked at.  With
    the item without href first, the loop raises. *)
Example select_samples :
  select_image_url Sample2.assets_png_then_bad =
    Ret (Some "http://images-assets.nasa.gov/image/PIA00001/PIA00001~medium.PNG")
  /\ select_image_url Sample2.assets_bad_first = Raise KeyError
  /\ select_image_url [] = Ret None.
Proof. repeat split. Qed.

End SelectMore.

(** ** The retrying functions: bounds, and how they relate to the plain ones *)

Module RetryMore.
Import Spec Spec2 Plugin RetryFacts StageFacts.

Lemma slept_cons (e : event) (ev : list event) :
  slept (e :: ev) = match e with Sleep s => s | _ => 0 end + slept ev.
Proof. by destruct e. Qed.

Lemma slept_app (ev ev' : list event) : slept (ev ++ ev') = slept ev + slept ev'.
Proof.
  induction ev as [|e ev IH]; [done|].
  change ((e :: ev) ++ ev') with (e :: (ev ++ ev')).
  rewrite !slept_cons, IH. lia.
Qed.

Lemma slept_nonneg_loop_step (ev ev' : list event) :
  slept (ev ++ Sleep 1 :: ev') = slept ev + 1 + slept ev'.
Proof. rewrite slept_app, slept_cons. lia. Qed.

Section Bounds.

Context {A : Type} (none : A).
Variable statement :
  nat -> gmap string string -> option (res A) * gmap string string * list event.

(** Each iteration makes one request and does not sleep by itself. *)
Hypothesis one_request :
  forall i fs, requests (statement i fs).2 = 1%nat /\ slept (statement i fs).2 = 0.

(** A loop of [n] iterations makes at most [n] requests, and sleeps one
    second after each iteration that reaches [attempt += 1]. *)
Lemma retry_loop_bounds (n : nat) : forall attempt fs,
  (requests (retry_loop none statement n attempt fs).2 <= n)%nat
  /\ 0 <= slept (retry_loop none statement n attempt fs).2
       <= Z.of_nat (requests (retry_loop none statement n attempt fs).2).
Proof.
  induction n as [|n IH]; intros attempt fs.
  { unfold requests, slept. simpl. lia. }
  simpl. destruct (one_request attempt fs) as [Hreq Hsl].
  destruct (statement attempt fs) as [[[r|] fs'] ev]; simpl in *.
  - rewrite Hreq, Hsl. lia.
  - specialize (IH (S attempt) fs').
    destruct (retry_loop none statement n (S attempt) fs') as [[r fs''] ev'].
    simpl in *. rewrite requests_app, slept_nonneg_loop_step, Hreq, Hsl.
    change (requests (Sleep 1 :: ev')) with (requests ev'). lia.
Qed.

End Bounds.

Lemma search_found_prints r :
  (search_found r).2 = [] \/ (search_found r).2 = [Print NoItemsFound].
Proof.
  unfold search_found.
  destruct (data ← response_json r; collection_items data) as [items|e]; [|by left].
  destruct (truthy items); [by left | by right].
Qed.

Lemma asset_found_prints r :
  (asset_found r).2 = [] \/ (asset_found r).2 = [Print NoAssetFound].
Proof.
  unfold asset_found.
  destruct (data ← response_json r; collection_items data) as [items|e]; [|by left].
  destruct (truthy items); [by left | by right].
Qed.

Section Stages.

Variables (repr : json -> string) (jx : bool).

Lemma search_one_request query retries net i fs :
  requests (search_statement jx query retries net i fs).2 = 1%nat
  /\ slept (search_statement jx query retries net i fs).2 = 0.
Proof.
  unfold search_statement, search_try, except_request.
  destruct (net i) as [|r]; [done|].
  destruct (status_code r =? 200); [|done].
  pose proof (search_found_prints r) as Hp.
  destruct (search_found r) as [[v|e] printed]; simpl in *.
  - destruct Hp as [-> | ->]; done.
  - destruct (is_request_exception jx e); destruct Hp as [-> | ->]; done.
Qed.

Lemma asset_one_request nasa_id retries net i fs :
  requests (asset_statement repr jx nasa_id retries net i fs).2 = 1%nat
  /\ slept (asset_statement repr jx nasa_id retries net i fs).2 = 0.
Proof.
  unfold asset_statement, asset_try, except_request.
  destruct (net i) as [|r]; [done|].
  destruct (status_code r =? 200); [|done].
  pose proof (asset_found_prints r) as Hp.
  destruct (asset_found r) as [[v|e] printed]; simpl in *.
  - destruct Hp as [-> | ->]; done.
  - destruct (is_request_exception jx e); destruct Hp as [-> | ->]; done.
Qed.

Lemma download_one_request image_url save_path retries net disk i fs :
  requests (download_statement jx image_url save_path retries net disk i fs).2 = 1%nat
  /\ slept (download_statement jx image_url save_path retries net disk i fs).2 = 0.
Proof.
  unfold download_statement, download_try, download_found, except_request.
  destruct (net i) as [|r]; [done|].
  destruct (status_code r =? 200); [|done].
  destruct (write_file (disk i) save_path (content r) fs) as [[[]|e] fs']; simpl; [done|].
  by destruct (is_request_exception jx e).
Qed.

(** X7. Whatever the network does, each retrying function makes at most
    [retries] requests and sleeps at most one second per request made,
    so it returns after at most [retries] requests and [retries]
    seconds of sleep; with [retries <= 0] it makes no request at all
    and returns [None]. *)
Theorem attempts_are_bounded (query image_url save_path : string) (nasa_id : json)
  (retries : Z) (net : nat -> http_outcome) (disk : nat -> fwrite)
  (fs : gmap string string) :
  ((requests (search_nasa_images jx query retries net).2 <= Z.to_nat retries)%nat
   /\ 0 <= slept (search_nasa_images jx query retries net).2
        <= Z.of_nat (requests (search_nasa_images jx query retries net).2))
  /\ ((requests (get_asset_url repr jx nasa_id retries net).2 <= Z.to_nat retries)%nat
   /\ 0 <= slept (get_asset_url repr jx nasa_id retries net).2
        <= Z.of_nat (requests (get_asset_url repr jx nasa_id retries net).2))
  /\ ((requests (download_image jx image_url save_path retries net disk fs).2
       <= Z.to_nat retries)%nat
   /\ 0 <= slept (download_image jx image_url save_path retries net disk fs).2
        <= Z.of_nat
             (requests (download_image jx image_url save_path retries net disk fs).2))
  /\ (retries <= 0 ->
      search_nasa_images jx query retries net = (Ret JNull, [])
      /\ get_asset_url repr jx nasa_id retries net = (Ret JNull, [])
      /\ download_image jx image_url save_path retries net disk fs = (Ret tt, fs, [])).
Proof.
  split; [|split; [|split]].
  - unfold search_nasa_images.
    pose proof (retry_loop_bounds JNull (search_statement jx query retries net)
                  (search_one_request query retries net) (Z.to_nat retries) 0 ∅) as H.
    by destruct (retry_loop JNull (search_statement jx query retries net)
                   (Z.to_nat retries) 0 ∅) as [[r fs'] ev].
  - unfold get_asset_url.
    pose proof (retry_loop_bounds JNull (asset_statement repr jx nasa_id retries net)
                  (asset_one_request nasa_id retries net) (Z.to_nat retries) 0 ∅) as H.
    by destruct (retry_loop JNull (asset_statement repr jx nasa_id retries net)
                   (Z.to_nat retries) 0 ∅) as [[r fs'] ev].
  - unfold download_image.
    apply (retry_loop_bounds tt
             (download_statement jx image_url save_path retries net disk)
             (download_one_request image_url save_path retries net disk)).
  - intros Hr. unfold search_nasa_images, get_asset_url, download_image.
    by replace (Z.to_nat retries) with 0%nat by lia.
Qed.


(** X8. In [download_image], a write that fails ends the call: after K
    transient failures and an answer with status 200, a failure to open
    or to write the file raises [OSError] at once, the attempts that
    are left are not used, and what was written stays in the file. *)
Theorem failed_write_ends_download (image_url save_path : string) (retries : Z)
  (net : nat -> http_outcome) (disk : nat -> fwrite) (fs : gmap string string)
  (k : nat) (r : response) :
  Z.of_nat k < retries ->
  (forall i, (i < k)%nat -> transient (net i) = true) ->
  net k = Answer r -> status_code r = 200 ->
  disk k <> FwOk ->
  exists ev,
    download_image jx image_url save_path retries net disk fs =
      (Raise OSError,
       match disk k with
       | FwFailsAfter n => <[save_path := String.substring 0 n (content r)]> fs
       | _ => fs
       end, ev)
    /\ requests ev = S k.
Proof.
  intros Hk Hfail Hnet Hs Hdisk.
  destruct (download_after_failures jx image_url save_path retries net disk fs k r
              Hk Hfail Hnet Hs) as (ev & Heq & Hreq).
  exists ev. split; [|done]. rewrite Heq. by destruct (disk k).
Qed.

(** Against a server that answers every request in the same way, what
    the retrying search makes of the answer. *)
Lemma search_against_constant (query : string) (retries : Z) (o : http_outcome) :
  0 < retries ->
  (search_nasa_images jx query retries (fun _ => o)).1 =
    match (Updater.search_nasa_images query o).1 with
    | Ret v => Ret v
    | Raise e => if is_request_exception jx e then Ret JNull else Raise e
    end.
Proof.
  intros Hr. unfold Updater.search_nasa_images.
  destruct o as [|r].
  { destruct (search_exhausted jx query retries (fun _ => NetFail)) as (ev & -> & _);
      done. }
  destruct (Z.eqb_spec (status_code r) 200) as [Hs|Hs].
  - replace (let '(v, printed) := search_found r in
             (v, Request NASA_SEARCH_ENDPOINT (search_params query) :: printed)).1
      with (search_found r).1 by by destruct (search_found r).
    destruct (search_found r) as [[v|e] printed] eqn:Hfound.
    + destruct (search_after_failures jx query retries (fun _ => Answer r) 0 r)
        as (ev & Heq & _); try done; [lia | by rewrite Hfound |].
      rewrite Heq. by rewrite Hfound.
    + simpl. destruct (is_request_exception jx e) eqn:Hc.
      * destruct (search_found_raises r e printed Hfound) as [[Hp ->] | [_ He]];
          [|by rewrite (shape_error_not_caught jx e He) in Hc].
        destruct (search_exhausted jx query retries (fun _ => Answer r))
          as (ev & -> & _); [|done].
        intros i _. unfold again, malformed, transient. simpl in Hc.
        rewrite Hc, Hp, (proj2 (Z.eqb_eq _ _) Hs). reflexivity.
      * destruct (search_after_failures jx query retries (fun _ => Answer r) 0 r)
          as (ev & Heq & _); try done; [lia | by rewrite Hfound; simpl; rewrite Hc |].
        rewrite Heq. by rewrite Hfound.
  - destruct (search_exhausted jx query retries (fun _ => Answer r)) as (ev & -> & _);
      [|done].
    intros i _. unfold again. simpl. by rewrite (proj2 (Z.eqb_neq _ _) Hs).
Qed.

Lemma asset_against_constant (nasa_id : json) (retries : Z) (o : http_outcome) :
  0 < retries ->
  (get_asset_url repr jx nasa_id retries (fun _ => o)).1 =
    match (Updater.get_asset_url repr nasa_id o).1 with
    | Ret v => Ret v
    | Raise e => if is_request_exception jx e then Ret JNull else Raise e
    end.
Proof.
  intros Hr. unfold Updater.get_asset_url.
  destruct o as [|r].
  { destruct (asset_exhausted repr jx nasa_id retries (fun _ => NetFail))
      as (ev & -> & _); done. }
  destruct (Z.eqb_spec (status_code r) 200) as [Hs|Hs].
  - replace (let '(v, printed) := asset_found r in
             (v, Request (NASA_ASSET_ENDPOINT +:+ "/" +:+ Py.format repr nasa_id) []
                 :: printed)).1
      with (asset_found r).1 by by destruct (asset_found r).
    destruct (asset_found r) as [[v|e] printed] eqn:Hfound.
    + destruct (asset_after_failures repr jx nasa_id retries (fun _ => Answer r) 0 r)
        as (ev & Heq & _); try done; [lia | by rewrite Hfound |].
      rewrite Heq. by rewrite Hfound.
    + simpl. destruct (is_request_exception jx e) eqn:Hc.
      * destruct (asset_found_raises r e printed Hfound) as [[Hp ->] | [_ He]];
          [|by rewrite (shape_error_not_caught jx e He) in Hc].
        destruct (asset_exhausted repr jx nasa_id retries (fun _ => Answer r))
          as (ev & -> & _); [|done].
        intros i _. unfold again, malformed, transient. simpl in Hc.
        rewrite Hc, Hp, (proj2 (Z.eqb_eq _ _) Hs). reflexivity.
      * destruct (asset_after_failures repr jx nasa_id retries (fun _ => Answer r) 0 r)
          as (ev & Heq & _); try done; [lia | by rewrite Hfound; simpl; rewrite Hc |].
        rewrite Heq. by rewrite Hfound.
  - destruct (asset_exhausted repr jx nasa_id retries (fun _ => Answer r))
      as (ev & -> & _); [|done].
    intros i _. unfold again. simpl. by rewrite (proj2 (Z.eqb_neq _ _) Hs).
Qed.

Lemma download_against_constant (image_url save_path : string) (retries : Z)
  (o : http_outcome) (w : fwrite) (fs : gmap string string) :
  0 < retries ->
  (download_image jx image_url save_path retries (fun _ => o) (fun _ => w) fs).1 =
    (match (Updater.download_image image_url save_path o w fs).1 .1 with
     | Ret _ => Ret tt
     | Raise e => if is_request_exception jx e then Ret tt else Raise e
     end,
     (Updater.download_image image_url save_path o w fs).1 .2).
Proof.
  intros Hr. unfold Updater.download_image.
  destruct o as [|r].
  { destruct (download_exhausted jx image_url save_path retries (fun _ => NetFail)
                (fun _ => w) fs) as (ev & -> & _); done. }
  destruct (Z.eqb_spec (status_code r) 200) as [Hs|Hs].
  - destruct (download_after_failures jx image_url save_path retries
                (fun _ => Answer r) (fun _ => w) fs 0 r) as (ev & -> & _);
      try done; [lia|].
    unfold download_found. by destruct w.
  - destruct (download_exhausted jx image_url save_path retries (fun _ => Answer r)
                (fun _ => w) fs) as (ev & -> & _); [|done].
    intros i _. simpl. by rewrite (proj2 (Z.eqb_neq _ _) Hs).
Qed.

(** X9. The retrying functions and the plain ones of the other script,
    against a server that answers every request in the same way: the
    retrying function returns what the plain one returns, and raises
    what the plain one raises, except that an exception its [except]
    clause catches (a failed request; a body that is not JSON, with a
    recent [requests]) becomes a plain [None].  The file written by the
    download is the same. *)
Theorem retrying_agrees_with_plain (query image_url save_path : string) (nasa_id : json)
  (retries : Z) (o : http_outcome) (w : fwrite) (fs : gmap string string) :
  0 < retries ->
  (search_nasa_images jx query retries (fun _ => o)).1 =
    match (Updater.search_nasa_images query o).1 with
    | Ret v => Ret v
    | Raise e => if is_request_exception jx e then Ret JNull else Raise e
    end
  /\ (get_asset_url repr jx nasa_id retries (fun _ => o)).1 =
    match (Updater.get_asset_url repr nasa_id o).1 with
    | Ret v => Ret v
    | Raise e => if is_request_exception jx e then Ret JNull else Raise e
    end
  /\ (download_image jx image_url save_path retries (fun _ => o) (fun _ => w) fs).1 =
    (match (Updater.download_image image_url save_path o w fs).1 .1 with
     | Ret _ => Ret tt
     | Raise e => if is_request_exception jx e then Ret tt else Raise e
     end,
     (Updater.download_image image_url save_path o w fs).1 .2).
Proof.
  intros Hr. split; [by apply search_against_constant|].
  split; [by apply asset_against_constant | by apply download_against_constant].
Qed.

End Stages.

Lemma attempts_are_bounded_witness :
  0 <= 0 /\
  search_nasa_images true "Mars" 0 Sample.image_up = (Ret JNull, [])
  /\ get_asset_url (fun _ => "") true (JStr "PIA00001") 0 Sample.image_up = (Ret JNull, [])
  /\ download_image true "http://h/a.jpg" SAVE_PATH 0 Sample.image_up Sample.disk_ok
       Sample.old_wallpaper = (Ret tt, Sample.old_wallpaper, []).
Proof.
  split; [lia|].
  apply (attempts_are_bounded (fun _ => "") true "Mars" "http://h/a.jpg" SAVE_PATH
           (JStr "PIA00001") 0 Sample.image_up Sample.disk_ok Sample.old_wallpaper).
  lia.
Defined.

Lemma failed_write_ends_download_witness :
  Z.of_nat 0 < 3 /\
  (forall i, (i < 0)%nat -> transient (Sample.image_up i) = true) /\
  Sample.image_up 0%nat = Answer (Response 200 "JFIF-bytes" None) /\
  status_code (Response 200 "JFIF-bytes" None) = 200 /\
  (fun _ : nat => FwFailsAfter 4) 0%nat <> FwOk /\
  exists ev,
    download_image true "http://h/a.jpg" SAVE_PATH 3 Sample.image_up
      (fun _ => FwFailsAfter 4) Sample.old_wallpaper =
      (Raise OSError, <[SAVE_PATH := "JFIF"]> Sample.old_wallpaper, ev)
    /\ requests ev = 1%nat.
Proof.
  assert (forall i, (i < 0)%nat -> transient (Sample.image_up i) = true) as Hfail.
  { intros i Hi. lia. }
  split; [lia|]. split; [exact Hfail|]. split; [reflexivity|]. split; [reflexivity|].
  split; [discriminate|].
  apply (failed_write_ends_download true "http://h/a.jpg" SAVE_PATH 3 Sample.image_up
           (fun _ => FwFailsAfter 4) Sample.old_wallpaper 0
           (Response 200 "JFIF-bytes" None));
    [lia | exact Hfail | reflexivity | reflexivity | discriminate].
Defined.

Lemma retrying_agrees_with_plain_witness :
  0 < 3 /\
  (search_nasa_images true "Mars" 3 (fun _ => NetFail)).1 =
    match (Updater.search_nasa_images "Mars" NetFail).1 with
    | Ret v => Ret v
    | Raise e => if is_request_exception true e then Ret JNull else Raise e
    end.
Proof.
  split; [lia|].
  apply (retrying_agrees_with_plain (fun _ => "") true "Mars" "http://h/a.jpg" SAVE_PATH
           (JStr "PIA00001") 3 NetFail FwOk ∅).
  lia.
Defined.

End RetryMore.

(** ** The scripts as wholes *)

Module ScriptMore.
Import Spec Spec2 RetryFacts StageFacts.

Lemma commands_app (a b : list action) : commands (a ++ b) = commands a ++ commands b.
Proof. unfold commands. apply omap_app. Qed.

Lemma commands_stage (ev : list event) : commands (Stage <$> ev) = [].
Proof. induction ev as [|e ev IH]; [done|]. exact IH. Qed.

(** A stage that touches no file, followed by the rest of the script. *)
Lemma stage_bind {A B} (x : res A * list event) (k : A -> P B) (fs : gmap string string) :
  (stage x ≫= k) fs =
    match x.1 with
    | Ret a => let '(r, fs', acts) := k a fs in (r, fs', (Stage <$> x.2) ++ acts)
    | Raise e => (Raise e, fs, Stage <$> x.2)
    end.
Proof. unfold mbind, P_bind, stage. by destruct x.1. Qed.

Lemma file_stage_bind {A B} (f : gmap string string -> out A) (k : A -> P B)
  (fs : gmap string string) :
  (file_stage f ≫= k) fs =
    match (f fs).1.1 with
    | Ret a => let '(r, fs', acts) := k a (f fs).1.2 in
               (r, fs', (Stage <$> (f fs).2) ++ acts)
    | Raise e => (Raise e, (f fs).1.2, Stage <$> (f fs).2)
    end.
Proof.
  unfold mbind, P_bind, file_stage. destruct (f fs) as [[[a|e] fs'] ev]; done.
Qed.

(** The plain [download_image] writes to [save_path] only. *)
Lemma updater_download_frame image_url save_path o w (fs : gmap string string) q :
  q <> save_path ->
  (Updater.download_image image_url save_path o w fs).1.2 !! q = fs !! q.
Proof.
  intros Hq. unfold Updater.download_image, download_found.
  destruct o as [|r]; [done|]. destruct (status_code r =? 200); [|done].
  destruct w; simpl; by rewrite ?lookup_insert_ne.
Qed.

(** A loop whose iterations leave a path alone leaves it alone. *)
Lemma retry_loop_frame {A} (none : A) statement (q : string) :
  (forall i (fs : gmap string string), (statement i fs).1.2 !! q = fs !! q) ->
  forall n attempt fs,
    (Plugin.retry_loop none statement n attempt fs).1.2 !! q = fs !! q.
Proof.
  intros Hst. induction n as [|n IH]; intros attempt fs; [done|].
  simpl. specialize (Hst attempt fs).
  destruct (statement attempt fs) as [[[r|] fs'] ev]; simpl in *; [done|].
  specialize (IH (S attempt) fs').
  destruct (Plugin.retry_loop none statement n (S attempt) fs') as [[r fs''] ev'].
  simpl in *. congruence.
Qed.

Lemma plugin_download_frame jx image_url save_path retries net disk
  (fs : gmap string string) q :
  q <> save_path ->
  (Plugin.download_image jx image_url save_path retries net disk fs).1.2 !! q = fs !! q.
Proof.
  intros Hq. unfold Plugin.download_image. apply retry_loop_frame.
  intros i files.
  unfold Plugin.download_statement, Plugin.download_try, Plugin.except_request,
    download_found.
  destruct (net i) as [|r]; [done|]. destruct (status_code r =? 200); [|done].
  destruct (disk i); simpl; by rewrite ?lookup_insert_ne.
Qed.

Section Scripts.

Variables (repr : json -> string) (jx : bool).

(** X10. Neither script ever writes a file other than
    [/tmp/nasa_wallpaper.jpg], whatever the catalog answers and however
    the run ends. *)
Theorem scripts_write_save_path_only (query : string) (ue : UpdaterMain.env)
  (pe : NasaWallpaperPlugin.env) (fs : gmap string string) (q : string) :
  q <> SAVE_PATH ->
  (UpdaterMain.main repr query ue fs).1.2 !! q = fs !! q
  /\ (NasaWallpaperPlugin.update_wallpaper repr jx query pe fs).1.2 !! q = fs !! q.
Proof.
  intros Hq. split.
  - unfold UpdaterMain.main. rewrite stage_bind.
    destruct (Updater.search_nasa_images query (UpdaterMain.search_o ue)).1
      as [nasa_id|e]; [|done].
    destruct (truthy nasa_id); [|done]. rewrite stage_bind.
    destruct (Updater.get_asset_url repr nasa_id (UpdaterMain.asset_o ue)).1
      as [image_url|e]; [|done].
    destruct (truthy image_url); [|done]. rewrite file_stage_bind.
    pose proof (updater_download_frame (Py.format repr image_url) SAVE_PATH
                  (UpdaterMain.image_o ue) (UpdaterMain.disk_o ue) fs q Hq) as Hd.
    destruct (Updater.download_image _ _ _ _ fs) as [[[[]|e] fs'] ev]; simpl in *; done.
  - unfold NasaWallpaperPlugin.update_wallpaper. rewrite stage_bind.
    destruct (Plugin.search_nasa_images jx query 3 (NasaWallpaperPlugin.search_net pe)).1
      as [nasa_id|e]; [|done].
    destruct (truthy nasa_id); [|done]. rewrite stage_bind.
    destruct (Plugin.get_asset_url repr jx nasa_id 3
                (NasaWallpaperPlugin.asset_net pe)).1 as [image_url|e]; [|done].
    destruct (truthy image_url); [|done]. rewrite file_stage_bind.
    pose proof (plugin_download_frame jx (Py.format repr image_url) SAVE_PATH 3
                  (NasaWallpaperPlugin.image_net pe) (NasaWallpaperPlugin.disk pe)
                  fs q Hq) as Hd.
    destruct (Plugin.download_image _ _ _ _ _ _ fs) as [[[[]|e] fs'] ev]; simpl in *;
      [|done].
    unfold NasaWallpaperPlugin.set_wallpaper.
    by destruct (NasaWallpaperPlugin.which_qdbus pe),
                (NasaWallpaperPlugin.which_dbus_send pe).
Qed.


End Scripts.

(** The catalog works and the image server is down (or answers 404):
    the command is run all the same and the old file is what is shown. *)
Example stale_wallpaper_is_applied :
  (NasaWallpaperPlugin.update_wallpaper (fun _ => "") true "Mars"
     Sample2.plugin_image_down Sample.old_wallpaper).1 = (Ret tt, Sample.old_wallpaper)
  /\ commands (NasaWallpaperPlugin.update_wallpaper (fun _ => "") true "Mars"
                 Sample2.plugin_image_down Sample.old_wallpaper).2 = [Qdbus SAVE_PATH]
  /\ (UpdaterMain.main (fun _ => "") "Mars" Sample2.updater_image_404
        Sample.old_wallpaper).1 = (Ret tt, Sample.old_wallpaper)
  /\ commands (UpdaterMain.main (fun _ => "") "Mars" Sample2.updater_image_404
                 Sample.old_wallpaper).2 = [Qdbus SAVE_PATH].
Proof. repeat split. Qed.

Lemma scripts_write_save_path_only_witness :
  "/home/u/notes.txt" <> SAVE_PATH /\
  (UpdaterMain.main (fun _ => "") "Mars" Sample2.updater_image_404
     Sample.old_wallpaper).1.2 !! "/home/u/notes.txt"
    = Sample.old_wallpaper !! "/home/u/notes.txt"
  /\ (NasaWallpaperPlugin.update_wallpaper (fun _ => "") true "Mars"
        Sample2.plugin_image_down Sample.old_wallpaper).1.2 !! "/home/u/notes.txt"
    = Sample.old_wallpaper !! "/home/u/notes.txt".
Proof.
  assert ("/home/u/notes.txt" <> SAVE_PATH) as Hq by discriminate.
  split; [exact Hq|].
  exact (scripts_write_save_path_only (fun _ => "") true "Mars" Sample2.updater_image_404
           Sample2.plugin_image_down Sample.old_wallpaper "/home/u/notes.txt" Hq).
Defined.


End ScriptMore.

(** ** [download_wallpaper], whatever goes wrong *)

Module DownloadMore.
Import KDE Spec Spec2.

(** X12. [download_wallpaper] never raises: it returns a path or
    [None].  And whenever it returns [None] after the temp file was
    made (the request, the write, the move or the chmod failed), the
    temp file is gone.  The logger call and the [unlink] of the handler
    are taken to succeed, as in the model. *)
Theorem download_fails_cleanly (wallpaper_dir image_url nasa_id : string)
  (env : download_env) (w : world) :
  (exists r, (download_wallpaper wallpaper_dir env image_url nasa_id w).1 = Ret r)
  /\ forall t, mktemp env = Ret t ->
       (download_wallpaper wallpaper_dir env image_url nasa_id w).1 = Ret None ->
       fs (download_wallpaper wallpaper_dir env image_url nasa_id w).2 !! t = None.
Proof.
  split.
  - unfold download_wallpaper, download_body, http_get, try_except, on_fs, emit, lift,
      mbind, mret, M_bind, M_ret. simpl.
    destruct (mktemp env) as [t|e]; simpl; [|by eexists].
    destruct (image_http env) as [|r]; simpl; [by eexists|].
    destruct (raise_for_status r) as [[]|e]; simpl; [|by eexists].
    destruct (temp_write env); simpl; [|by eexists..].
    unfold move_file. rewrite lookup_insert_eq.
    destruct (move_res env); simpl; [|by eexists..].
    destruct (chmod_ok env); simpl; by eexists.
  - intros t Ht Hnone. by apply DownloadFacts.download_cleans_up.
Qed.

Lemma download_fails_cleanly_witness :
  mktemp Sample.broken_download = Ret "/tmp/tmpk3v9x1" /\
  (download_wallpaper "/home/u/Pictures/NASA-Wallpapers" Sample.broken_download
     "http://h/a.jpg" "PIA00001" Sample.world0).1 = Ret None /\
  fs (download_wallpaper "/home/u/Pictures/NASA-Wallpapers" Sample.broken_download
        "http://h/a.jpg" "PIA00001" Sample.world0).2 !! "/tmp/tmpk3v9x1" = None.
Proof.
  split; [reflexivity|]. split; [reflexivity|].
  exact (proj2 (download_fails_cleanly "/home/u/Pictures/NASA-Wallpapers" "http://h/a.jpg"
                  "PIA00001" Sample.broken_download Sample.world0)
           "/tmp/tmpk3v9x1" eq_refl eq_refl).
Defined.

End DownloadMore.

(** ** How many requests a cycle makes *)

Module CountFacts.
Import KDE Spec Spec2.

Lemma http_gets_app (a b : list KDE.event) :
  http_gets (a ++ b) = (http_gets a + http_gets b)%nat.
Proof. unfold http_gets. by rewrite List.filter_app, length_app. Qed.

Lemma gets_ret {A} n (a : A) : gets_at_most n (mret a).
Proof. intros w. exists []. split; [by rewrite app_nil_r | unfold http_gets; simpl; lia]. Qed.

Lemma gets_lift {A} n (r : res A) : gets_at_most n (lift r).
Proof. intros w. exists []. split; [by rewrite app_nil_r | unfold http_gets; simpl; lia]. Qed.

Lemma gets_on_fs n op : gets_at_most n (on_fs op).
Proof.
  intros w. unfold on_fs. destruct (op (fs w)) as [r fs'].
  exists []. split; [by rewrite app_nil_r | unfold http_gets; simpl; lia].
Qed.

Lemma gets_on_hist n image_path date io : gets_at_most n (on_hist image_path date io).
Proof.
  intros w. unfold on_hist.
  destruct (save_wallpaper_history image_path date io (hist w)) as [f' [e|]];
    eexists; (split; [reflexivity | unfold http_gets; simpl; lia]).
Qed.

Lemma gets_emit n (e : KDE.event) :
  (forall url, e <> HttpGet url) -> gets_at_most n (emit e).
Proof.
  intros He w. exists [e]. split; [done|].
  destruct e; unfold http_gets; simpl; try lia. by destruct (He url).
Qed.

Lemma gets_emit_get n url : gets_at_most (S n) (emit (HttpGet url)).
Proof. intros w. exists [HttpGet url]. split; [done | unfold http_gets; simpl; lia]. Qed.

(** A statement that makes no request, then the rest. *)
Lemma gets_bind0 {A B} n (m : M A) (k : A -> M B) :
  gets_at_most 0 m -> (forall a, gets_at_most n (k a)) -> gets_at_most n (m ≫= k).
Proof.
  intros Hm Hk w. unfold mbind, M_bind. destruct (Hm w) as (evs & Ht & Hn).
  destruct (m w) as [[a|e] w1]; simpl in *.
  - destruct (Hk a w1) as (evs' & Ht' & Hn'). exists (evs ++ evs').
    rewrite Ht', Ht, app_assoc, http_gets_app. split; [done|lia].
  - exists evs. split; [done|lia].
Qed.

(** A statement that makes at most one request, then the rest. *)
Lemma gets_bind1 {A B} n (m : M A) (k : A -> M B) :
  gets_at_most 1 m -> (forall a, gets_at_most n (k a)) -> gets_at_most (S n) (m ≫= k).
Proof.
  intros Hm Hk w. unfold mbind, M_bind. destruct (Hm w) as (evs & Ht & Hn).
  destruct (m w) as [[a|e] w1]; simpl in *.
  - destruct (Hk a w1) as (evs' & Ht' & Hn'). exists (evs ++ evs').
    rewrite Ht', Ht, app_assoc, http_gets_app. split; [done|lia].
  - exists evs. split; [done|lia].
Qed.

Lemma gets_try {A} n (m : M A) (h : exn -> M A) :
  gets_at_most n m -> (forall e, gets_at_most 0 (h e)) -> gets_at_most n (try_except m h).
Proof.
  intros Hm Hh w. unfold try_except. destruct (Hm w) as (evs & Ht & Hn).
  destruct (m w) as [[a|e] w1]; simpl in *; [by exists evs|].
  destruct (Hh e w1) as (evs' & Ht' & Hn'). exists (evs ++ evs').
  rewrite Ht', Ht, app_assoc, http_gets_app. split; [done|lia].
Qed.

Create HintDb gets.
#[local] Hint Resolve gets_ret gets_lift gets_on_fs gets_on_hist gets_emit_get : gets.
#[local] Hint Extern 1 (gets_at_most _ (emit _)) =>
  (apply gets_emit; intros ?; discriminate) : gets.

(** Statement by statement: one that makes no request is passed over,
    one that may make a request uses one of the [n] that are allowed. *)
Ltac gets_steps :=
  repeat
    match goal with
    | |- gets_at_most _ (if ?b then _ else _) => destruct b
    | |- gets_at_most _ ((if ?b then _ else _) ≫= _) => destruct b
    | |- gets_at_most _ (match ?x with _ => _ end) => destruct x
    | |- gets_at_most _ (try_except _ _) => apply gets_try; [|intros ?]
    | |- gets_at_most _ (_ ≫= _) =>
        first [ apply gets_bind0; [solve [eauto with gets]|intros ?]
              | apply gets_bind1; [solve [eauto with gets]|intros ?] ]
    | |- gets_at_most _ _ => solve [eauto with gets]
    end.

Section Count.

Variables (base_url wallpaper_dir : string) (repr : json -> string).

Lemma gets_http_get url o : gets_at_most 1 (http_get url o).
Proof. unfold http_get. gets_steps. Qed.

Lemma gets_search env : gets_at_most 1 (search_images base_url env).
Proof.
  unfold search_images. pose proof gets_http_get. gets_steps.
Qed.

Lemma gets_download_body env image_url nasa_id temp_path :
  gets_at_most 1 (download_body wallpaper_dir env image_url nasa_id temp_path).
Proof. unfold download_body. pose proof gets_http_get. gets_steps. Qed.

Lemma gets_download env image_url nasa_id :
  gets_at_most 1 (download_wallpaper wallpaper_dir env image_url nasa_id).
Proof.
  unfold download_wallpaper. pose proof gets_download_body.
  destruct (mktemp env); gets_steps.
Qed.

Lemma gets_set_wallpaper env path : gets_at_most 0 (set_wallpaper env path).
Proof. unfold set_wallpaper, record_history. gets_steps. Qed.

Lemma gets_cycle env :
  gets_at_most 3 (fetch_and_set_wallpaper base_url wallpaper_dir repr env).
Proof.
  unfold fetch_and_set_wallpaper, fetch_body.
  pose proof (gets_search env). pose proof gets_http_get.
  pose proof gets_download. pose proof (gets_set_wallpaper env).
  gets_steps.
Qed.

(** X13. A cycle calls [requests.get] at most three times (the search,
    the manifest, the image): nothing in [KDENASAWallpaper] is tried a
    second time. *)
Theorem cycle_makes_three_requests (env : cycle_env) (w : world) :
  exists evs,
    trace (fetch_and_set_wallpaper base_url wallpaper_dir repr env w).2 = trace w ++ evs
    /\ (http_gets evs <= 3)%nat.
Proof. apply gets_cycle. Qed.

End Count.

End CountFacts.
